(** * Figma-Telegram-Bot: change trackers and subscription registry

    A shallow embedding of
      - [figma_telegram_bot/utils/version_tracker.py]   (class FigmaVersionTracker)
      - [figma_telegram_bot/utils/comment_tracker.py]   (class FigmaCommentTracker)
      - [figma_telegram_bot/utils/subscription_manager.py] (class SubscriptionManager)
    and of the two [FigmaClient] calls the trackers make; further down, of
    the command handlers and the polling job of [figma_telegram_bot/bot/bot.py].

    Modelling choices.
      - A Python [dict] is a [gmap], a Python [set] is a [gset]: keys are
        unique and equality is extensional.  A dict is iterated in
        [map_to_list] order; no statement below depends on that order.
      - Every method is a program in a state-and-trace monad: the state is
        the tracker's in-memory attribute ([self.versions], [self.comments],
        the two subscription dicts), the trace records each call made to
        the Figma client and each call of a [_save_*] method together with
        the snapshot it writes.
      - The Figma client is an oracle handed to each method call: what
        [get_file_version] and [get_file_comments] answer at that moment.
        A method fetches a given key at most once, so an oracle that is a
        function of the key loses nothing.
      - A payload of the Figma API is a [value], as Python holds the parsed
        JSON.  A comment is the dict of the keys the code reads; its
        ["id"] is a string when present.
      - A method the source lets an exception escape from returns an
        [outcome]: its result, or [Raises]; the state changed and the
        effects made before the exception stay.
      - Log lines are not modelled, but the expressions evaluated to build
        them are where they can raise. *)

From stdpp Require Import base option list strings gmap.

(** ** The state-and-trace monad *)

Section prog.
Context {S E : Type}.

(** A program reads a state and yields a result, the next state and the
    effects it performed, oldest first. *)
Definition prog (A : Type) : Type := S → A * S * list E.

Definition prog_ret {A} (a : A) : prog A := λ s, (a, s, []).

Definition prog_bind {A B} (f : A → prog B) (m : prog A) : prog B :=
  λ s, let '(a, s1, t1) := m s in
       let '(b, s2, t2) := f a s1 in
       (b, s2, t1 ++ t2).

Definition get_state : prog S := λ s, (s, s, []).
Definition put_state (s' : S) : prog unit := λ _, (tt, s', []).
Definition emit (e : E) : prog unit := λ s, (tt, s, [e]).

Definition result {A} (m : prog A) (s : S) : A := (m s).1.1.
Definition state_after {A} (m : prog A) (s : S) : S := (m s).1.2.
Definition effects {A} (m : prog A) (s : S) : list E := (m s).2.
End prog.

Arguments prog : clear implicits.

#[global] Instance prog_mret {S E} : MRet (prog S E) := @prog_ret S E.
#[global] Instance prog_mbind {S E} : MBind (prog S E) := @prog_bind S E.

(** ** Shared data *)

(** Python truthiness of a [str]: only the empty string is falsy. *)
Definition truthy (s : string) : bool :=
  match s with
  | EmptyString => false
  | String _ _ => true
  end.

(** A value parsed from a JSON payload, as Python holds it: [None], a
    [bool], a number (kept as its literal), a [str], a [list], or a [dict]
    listed by key, one entry per key. *)
#[local] Unset Elimination Schemes.
Inductive value :=
| VNone
| VBool (b : bool)
| VNumber (literal : string)
| VStr (s : string)
| VList (items : list value)
| VDict (items : list (string * value)).
#[local] Set Elimination Schemes.

Fixpoint value_eq_dec (v w : value) : Decision (v = w).
Proof.
  refine
    match v, w with
    | VNone, VNone => left _
    | VBool b, VBool b' => cast_if (decide (b = b'))
    | VNumber s, VNumber s' => cast_if (decide (s = s'))
    | VStr s, VStr s' => cast_if (decide (s = s'))
    | VList l, VList l' => cast_if (@list_eq_dec _ value_eq_dec l l')
    | VDict l, VDict l' =>
        cast_if (@list_eq_dec _ (@prod_eq_dec _ _ _ value_eq_dec) l l')
    | _, _ => right _
    end; congruence.
Defined.

#[global] Instance value_eq : EqDecision value := value_eq_dec.

(** [field.get(...)] evaluates, for [field = d.get(key, {})]: the key is
    missing from [d], or holds a dict.  No other value has a [get]: not
    [None], not a [str], not a [list]. *)
Definition has_get (field : option value) : bool :=
  match field with
  | None | Some (VDict _) => true
  | Some _ => false
  end.

(** How a call ends that the source lets an exception escape from: with
    its result, or with the exception. *)
Inductive outcome (A : Type) :=
| Returns (a : A)
| Raises.

Arguments Returns {A} a.
Arguments Raises {A}.

#[global] Instance outcome_eq_dec {A} `{EqDecision A} : EqDecision (outcome A).
Proof. solve_decision. Defined.

(** A comment object of the Figma API, by the keys the code reads.
    [comment_id] is [comment.get("id")]: [None] when the key is missing or
    null.  Every other field is [None] when its key is missing, and holds
    the value under the key otherwise, [VNone] for a JSON null. *)
Record comment := Comment {
  comment_id : option string;
  message : option value;
  user : option value;
  created_at : option value;
  client_meta : option value;
}.

#[global] Instance comment_eq_dec : EqDecision comment.
Proof. solve_decision. Defined.

(** The answers of the Figma API client ([figma_api/client.py]) at the
    moment of one method call.  [get_file_version] answers the empty string
    on any error; [get_file_comments] answers the comment list. *)
Record FigmaClient := {
  client_file_version : string → string;
  client_file_comments : string → list comment;
}.

Inductive event :=
| GetFileVersion (file_key : string)
| GetFileComments (file_key : string)
| SaveVersions (versions : gmap string string)
| SaveComments (comments : gmap string (gset string))
| SaveSubscriptions (user_subscriptions comment_subscriptions : gmap Z (gset string)).

Definition get_file_version {S} (figma_client : FigmaClient) (file_key : string)
  : prog S event string :=
  emit (GetFileVersion file_key);;
  mret (client_file_version figma_client file_key).

Definition get_file_comments {S} (figma_client : FigmaClient) (file_key : string)
  : prog S event (list comment) :=
  emit (GetFileComments file_key);;
  mret (client_file_comments figma_client file_key).

(** ** version_tracker.py *)

Module VersionTracker.

(** [self.versions] *)
Abbreviation state := (gmap string string).

(** One entry of the list [check_all_updates] returns. *)
Record update := Update {
  file_key : string;
  old_version : option string;
  new_version : option string;
}.

Section methods.
Variable figma_client : FigmaClient.

Definition _save_versions : prog state event unit :=
  versions ← get_state;
  emit (SaveVersions versions).

Definition add_file_to_track (file_key : string) : prog state event unit :=
  versions ← get_state;
  match versions !! file_key with
  | Some _ => mret tt
  | None =>
      version ← get_file_version figma_client file_key;
      if truthy version then
        put_state (<[file_key := version]> versions);;
        _save_versions
      else mret tt
  end.

Definition remove_file_from_track (file_key : string) : prog state event unit :=
  versions ← get_state;
  match versions !! file_key with
  | Some _ =>
      put_state (delete file_key versions);;
      _save_versions
  | None => mret tt
  end.

Definition check_file_updates (file_key : string)
  : prog state event (bool * option string * option string) :=
  versions ← get_state;
  match versions !! file_key with
  | None => mret (false, None, None)
  | Some old_version =>
      new_version ← get_file_version figma_client file_key;
      if negb (truthy new_version) then
        mret (false, Some old_version, None)
      else if bool_decide (old_version ≠ new_version) then
        put_state (<[file_key := new_version]> versions);;
        _save_versions;;
        mret (true, Some old_version, Some new_version)
      else
        mret (false, Some old_version, Some new_version)
  end.

(** The body of the [for file_key in ...] loop of [check_all_updates],
    over the keys still to visit. *)
Fixpoint check_each (file_keys : list string) : prog state event (list update) :=
  match file_keys with
  | [] => mret []
  | file_key :: rest =>
      '(updated, old_version, new_version) ← check_file_updates file_key;
      updated_files ← check_each rest;
      mret (if updated : bool
            then Update file_key old_version new_version :: updated_files
            else updated_files)
  end.

Definition check_all_updates : prog state event (list update) :=
  versions ← get_state;
  check_each (map_to_list versions).*1.
End methods.

End VersionTracker.

(** ** comment_tracker.py *)

Module CommentTracker.

(** [self.comments]: for each tracked file the set of comment ids seen. *)
Abbreviation state := (gmap string (gset string)).

(** Truthiness of [comment.get("id")]: a missing key and an empty string
    are both falsy. *)
Definition has_id (c : comment) : bool :=
  match comment_id c with
  | Some i => truthy i
  | None => false
  end.

(** [{comment.get("id") for comment in current_comments if comment.get("id")}] *)
Definition comment_ids (current_comments : list comment) : gset string :=
  list_to_set (omap comment_id (filter has_id current_comments)).

(** [self.comments[file_key]] for a key that is present. *)
Definition seen (comments : state) (file_key : string) : gset string :=
  default ∅ (comments !! file_key).

Section methods.
Variable figma_client : FigmaClient.

Definition _save_comments : prog state event unit :=
  comments ← get_state;
  emit (SaveComments comments).

Definition add_file_to_track (file_key : string) : prog state event unit :=
  current_comments ← get_file_comments figma_client file_key;
  let comment_ids := comment_ids current_comments in
  comments ← get_state;
  match comments !! file_key with
  | Some known =>
      (* self.comments[file_key].update(comment_ids) *)
      put_state (<[file_key := known ∪ comment_ids]> comments)
  | None =>
      put_state (<[file_key := comment_ids]> comments)
  end;;
  _save_comments.

Definition remove_file_from_track (file_key : string) : prog state event unit :=
  comments ← get_state;
  match comments !! file_key with
  | Some _ =>
      put_state (delete file_key comments);;
      _save_comments
  | None => mret tt
  end.

(** The [for comment in current_comments] loop of [check_file_comments].
    [known_comment_ids] is the very set object stored under [file_key],
    so [known_comment_ids.add] changes [self.comments] in place: the
    loop reads and writes the stored set. *)
Fixpoint scan_comments (file_key : string) (current_comments : list comment)
  : prog state event (list comment) :=
  match current_comments with
  | [] => mret []
  | comment :: rest =>
      comments ← get_state;
      let known_comment_ids := seen comments file_key in
      match comment_id comment with
      | Some comment_id =>
          if truthy comment_id && bool_decide (comment_id ∉ known_comment_ids)
          then
            put_state (<[file_key := known_comment_ids ∪ {[comment_id]}]> comments);;
            new_comments ← scan_comments file_key rest;
            mret (comment :: new_comments)
          else scan_comments file_key rest
      | None => scan_comments file_key rest
      end
  end.

(** The expression [m[:50] + "..." if len(m) > 50 else m] of the debug
    loop, for [m = comment.get("message", "")], evaluates: [m] has a
    length and, when that exceeds 50, is a [str].  [None], a [bool] and a
    number have no length; a longer [list] cannot be added to a [str], and
    a [dict] takes no slice. *)
Definition comment_text_evaluates (comment : comment) : bool :=
  match message comment with
  | None | Some (VStr _) => true
  | Some (VList items) => bool_decide (length items ≤ 50)
  | Some (VDict items) => bool_decide (length items ≤ 50)
  | Some _ => false
  end.

(** One turn of the debug loop runs to its end: the comment text and
    [comment.get("user", {}).get("handle", ...)] both evaluate. *)
Definition logs (comment : comment) : bool :=
  comment_text_evaluates comment && has_get (user comment).

(** [for comment in new_comments: ... logger.debug(...)], the loop between
    [_save_comments] and the [return]. *)
Fixpoint log_new_comments (new_comments : list comment) : outcome unit :=
  match new_comments with
  | [] => Returns tt
  | comment :: rest => if logs comment then log_new_comments rest else Raises
  end.

Definition check_file_comments (file_key : string)
  : prog state event (outcome (list comment * bool)) :=
  comments ← get_state;
  match comments !! file_key with
  | None => mret (Returns ([], false))
  | Some _ =>
      current_comments ← get_file_comments figma_client file_key;
      new_comments ← scan_comments file_key current_comments;
      match new_comments with
      | _ :: _ =>
          (* self.comments[file_key] = known_comment_ids *)
          comments ← get_state;
          put_state (<[file_key := seen comments file_key]> comments);;
          _save_comments;;
          match log_new_comments new_comments with
          | Returns _ => mret (Returns (new_comments, true))
          | Raises => mret Raises
          end
      | [] => mret (Returns ([], false))
      end
  end.

(** The loop of [check_all_comments] over the keys still to visit, with
    the dict filled so far.  Nothing catches an exception of
    [check_file_comments]: it ends the loop and the method. *)
Fixpoint check_each (file_keys : list string)
    (new_comments_by_file : gmap string (list comment))
  : prog state event (outcome (gmap string (list comment))) :=
  match file_keys with
  | [] => mret (Returns new_comments_by_file)
  | file_key :: rest =>
      checked ← check_file_comments file_key;
      match checked with
      | Returns (new_comments, has_new) =>
          check_each rest
            (if has_new : bool
             then <[file_key := new_comments]> new_comments_by_file
             else new_comments_by_file)
      | Raises => mret Raises
      end
  end.

Definition check_all_comments
  : prog state event (outcome (gmap string (list comment))) :=
  comments ← get_state;
  check_each (map_to_list comments).*1 ∅.

Definition reset_comments_for_file (file_key : string) : prog state event bool :=
  comments ← get_state;
  match comments !! file_key with
  | None => mret false
  | Some _ =>
      put_state (<[file_key := ∅]> comments);;
      _save_comments;;
      mret true
  end.
End methods.

End CommentTracker.

(** ** subscription_manager.py *)

Module SubscriptionManager.

(** The two dicts [chat_id -> set of file keys]. *)
Record state := State {
  user_subscriptions : gmap Z (gset string);
  comment_subscriptions : gmap Z (gset string);
}.

(** A manager built when no subscription file exists. *)
Definition initial : state := State ∅ ∅.

Definition with_user_subscriptions (subs : gmap Z (gset string)) (st : state) : state :=
  State subs (comment_subscriptions st).

Definition with_comment_subscriptions (subs : gmap Z (gset string)) (st : state) : state :=
  State (user_subscriptions st) subs.

(** [subs[chat_id]] for a key that is present. *)
Definition files_of (subs : gmap Z (gset string)) (chat_id : Z) : gset string :=
  default ∅ (subs !! chat_id).

Definition _save_subscriptions : prog state event unit :=
  st ← get_state;
  emit (SaveSubscriptions (user_subscriptions st) (comment_subscriptions st)).

Definition add_file_subscription (chat_id : Z) (file_key : string)
  : prog state event unit :=
  st ← get_state;
  match user_subscriptions st !! chat_id with
  | None =>
      put_state (with_user_subscriptions (<[chat_id := ∅]> (user_subscriptions st)) st)
  | Some _ => mret tt
  end;;
  st ← get_state;
  let subs := user_subscriptions st in
  put_state (with_user_subscriptions
               (<[chat_id := files_of subs chat_id ∪ {[file_key]}]> subs) st);;
  _save_subscriptions.

Definition remove_file_subscription (chat_id : Z) (file_key : string)
  : prog state event bool :=
  st ← get_state;
  let subs := user_subscriptions st in
  if bool_decide (subs !! chat_id = None)
     || bool_decide (file_key ∉ files_of subs chat_id)
  then mret false
  else
    put_state (with_user_subscriptions
                 (<[chat_id := files_of subs chat_id ∖ {[file_key]}]> subs) st);;
    st ← get_state;
    let subs := user_subscriptions st in
    (if bool_decide (files_of subs chat_id = ∅)
     then put_state (with_user_subscriptions (delete chat_id subs) st)
     else mret tt);;
    _save_subscriptions;;
    mret true.

Definition add_comment_subscription (chat_id : Z) (file_key : string)
  : prog state event unit :=
  st ← get_state;
  match comment_subscriptions st !! chat_id with
  | None =>
      put_state (with_comment_subscriptions
                   (<[chat_id := ∅]> (comment_subscriptions st)) st)
  | Some _ => mret tt
  end;;
  st ← get_state;
  let subs := comment_subscriptions st in
  put_state (with_comment_subscriptions
               (<[chat_id := files_of subs chat_id ∪ {[file_key]}]> subs) st);;
  _save_subscriptions.

Definition remove_comment_subscription (chat_id : Z) (file_key : string)
  : prog state event bool :=
  st ← get_state;
  let subs := comment_subscriptions st in
  if bool_decide (subs !! chat_id = None)
     || bool_decide (file_key ∉ files_of subs chat_id)
  then mret false
  else
    put_state (with_comment_subscriptions
                 (<[chat_id := files_of subs chat_id ∖ {[file_key]}]> subs) st);;
    st ← get_state;
    let subs := comment_subscriptions st in
    (if bool_decide (files_of subs chat_id = ∅)
     then put_state (with_comment_subscriptions (delete chat_id subs) st)
     else mret tt);;
    _save_subscriptions;;
    mret true.

(** The loop [for chat_id, file_keys in subs.items(): if file_key in file_keys]. *)
Definition subscribers_in (subs : gmap Z (gset string)) (file_key : string) : list Z :=
  (filter (λ item : Z * gset string, file_key ∈ item.2) (map_to_list subs)).*1.

Definition get_file_subscribers (st : state) (file_key : string) : list Z :=
  subscribers_in (user_subscriptions st) file_key.

Definition get_comment_subscribers (st : state) (file_key : string) : list Z :=
  subscribers_in (comment_subscriptions st) file_key.

Definition get_user_file_subscriptions (st : state) (chat_id : Z) : gset string :=
  files_of (user_subscriptions st) chat_id.

Definition get_user_comment_subscriptions (st : state) (chat_id : Z) : gset string :=
  files_of (comment_subscriptions st) chat_id.

Definition is_user_subscribed_to_file (st : state) (chat_id : Z) (file_key : string)
  : bool :=
  bool_decide (is_Some (user_subscriptions st !! chat_id))
  && bool_decide (file_key ∈ files_of (user_subscriptions st) chat_id).

Definition is_user_subscribed_to_comments (st : state) (chat_id : Z) (file_key : string)
  : bool :=
  bool_decide (is_Some (comment_subscriptions st !! chat_id))
  && bool_decide (file_key ∈ files_of (comment_subscriptions st) chat_id).

Definition has_any_file_subscribers (st : state) (file_key : string) : bool :=
  bool_decide (Exists (λ item : Z * gset string, file_key ∈ item.2)
                 (map_to_list (user_subscriptions st))).

Definition has_any_comment_subscribers (st : state) (file_key : string) : bool :=
  bool_decide (Exists (λ item : Z * gset string, file_key ∈ item.2)
                 (map_to_list (comment_subscriptions st))).

End SubscriptionManager.

(** ** bot.py *)

(** The command handlers and the scheduled job of [bot/bot.py], over the
    three module-level objects [version_tracker], [comment_tracker] and
    [subscription_manager].

    A handler replies through Telegram and the job sends messages through
    it; both are recorded in the trace.  A reply is recorded by the message
    it is (one constructor per message text of the source) with the values
    the text interpolates; a sent notification by its recipient and the
    data its text is built from.  A reply never fails here; a send is
    recorded when [send_message] is called: the source catches and logs a
    failure of the call and goes on with the next, and calls nothing for a
    message it could not build.  Every
    handler awaits only when it replies, after its last change of state,
    so a handler is one step; the job is modelled run to its end without a
    command in between. *)

Module Bot.

(** The dict [figma_client.get_file] returns, as far as the bot reads it:
    its ["error"] and its ["name"], each if present. *)
Record file_info := FileInfo {
  info_error : option string;
  info_name : option string;
}.

(** What [figma_client.get_file] gives: a dict, or an exception. *)
Inductive file_answer :=
| FileReturns (info : file_info)
| FileRaises (error : string).

(** The first entry of [figma_client.get_file_versions], as far as the
    update message reads it. *)
Record version_info := VersionInfo {
  handle : option string;
  label : option string;
  created_at : option string;
}.

(** What fetching the version history and reading its first entry gives:
    that entry, if the list is not empty, or an exception. *)
Inductive versions_answer :=
| Versions (latest : option version_info)
| VersionsRaises.

(** The answers of the module-level Figma client at the moment of one
    handler call, for the two calls the trackers do not make. *)
Record FigmaFiles := {
  client_file : string → file_answer;
  client_file_versions : string → versions_answer;
}.

(** The reply texts of the handlers. *)
Inductive reply :=
| Usage (command : string)
| AccessError (error : string)
| Failure (error : string)
| Subscribed (file_name version : option string) (comment_count : option nat)
| SubscribedToComments (file_name : option string) (comment_count : nat)
| NotSubscribedToComments (file_key : string)
| CommentsReset
| CommentsResetFailed (file_key : string)
| NoCommentSubscription
| UnsubscribedFromComments
| NoFileSubscription
| Unsubscribed.

(** The notifications of the scheduled job. *)
Inductive notification :=
| UpdateNotice (file_name : option string) (file_update : VersionTracker.update)
    (latest : option version_info)
| CommentNotice (file_name : option string) (file_key : string) (new_comment : comment).

Inductive bot_event :=
| Component (e : event)
| GetFile (file_key : string)
| GetFileVersions (file_key : string)
| ReplyText (chat_id : Z) (text : reply)
| SendMessage (chat_id : Z) (text : notification).

(** The three module-level objects. *)
Record bot := BotState {
  version_tracker : gmap string string;
  comment_tracker : gmap string (gset string);
  subscription_manager : SubscriptionManager.state;
}.

(** A bot started with no stored file. *)
Definition fresh : bot := BotState ∅ ∅ SubscriptionManager.initial.

(** A method call on one of the three objects. *)
Definition on_version_tracker {A} (m : prog (gmap string string) event A)
  : prog bot bot_event A :=
  λ b, let '(a, versions, trace) := m (version_tracker b) in
       (a, BotState versions (comment_tracker b) (subscription_manager b),
        Component <$> trace).

Definition on_comment_tracker {A} (m : prog (gmap string (gset string)) event A)
  : prog bot bot_event A :=
  λ b, let '(a, comments, trace) := m (comment_tracker b) in
       (a, BotState (version_tracker b) comments (subscription_manager b),
        Component <$> trace).

Definition on_subscription_manager {A} (m : prog SubscriptionManager.state event A)
  : prog bot bot_event A :=
  λ b, let '(a, subscriptions, trace) := m (subscription_manager b) in
       (a, BotState (version_tracker b) (comment_tracker b) subscriptions,
        Component <$> trace).

(** A call of the module-level Figma client that the trackers also make. *)
Definition on_client {A} (m : prog unit event A) : prog bot bot_event A :=
  λ b, let '(a, _, trace) := m tt in (a, b, Component <$> trace).

(** [for x in l: body(x)] *)
Fixpoint for_each {A} (l : list A) (body : A → prog bot bot_event unit)
  : prog bot bot_event unit :=
  match l with
  | [] => mret tt
  | x :: rest => body x;; for_each rest body
  end.

Section handlers.
Variable figma_client : FigmaClient.
Variable figma_files : FigmaFiles.
(** [config/settings.py], read from the environment. *)
Variable AUTO_SUBSCRIBE_COMMENTS : bool.

Definition get_file (file_key : string) : prog bot bot_event file_answer :=
  emit (GetFile file_key);;
  mret (client_file figma_files file_key).

Definition get_file_versions (file_key : string) : prog bot bot_event versions_answer :=
  emit (GetFileVersions file_key);;
  mret (client_file_versions figma_files file_key).

Definition reply_text (chat_id : Z) (text : reply) : prog bot bot_event unit :=
  emit (ReplyText chat_id text).

Definition subscribe (chat_id : Z) (args : list string) : prog bot bot_event unit :=
  match args with
  | [] => reply_text chat_id (Usage "subscribe")
  | file_key :: _ =>
      answer ← get_file file_key;
      match answer with
      | FileRaises error => reply_text chat_id (Failure error)
      | FileReturns (FileInfo (Some error) _) => reply_text chat_id (AccessError error)
      | FileReturns (FileInfo None file_name) =>
          on_version_tracker (VersionTracker.add_file_to_track figma_client file_key);;
          on_subscription_manager
            (SubscriptionManager.add_file_subscription chat_id file_key);;
          b ← get_state;
          let version := version_tracker b !! file_key in
          if AUTO_SUBSCRIBE_COMMENTS then
            on_comment_tracker (CommentTracker.add_file_to_track figma_client file_key);;
            on_subscription_manager
              (SubscriptionManager.add_comment_subscription chat_id file_key);;
            current_comments ← on_client (get_file_comments figma_client file_key);
            reply_text chat_id
              (Subscribed file_name version (Some (length current_comments)))
          else
            reply_text chat_id (Subscribed file_name version None)
      end
  end.

Definition comments_on (chat_id : Z) (args : list string) : prog bot bot_event unit :=
  match args with
  | [] => reply_text chat_id (Usage "comments_on")
  | file_key :: _ =>
      answer ← get_file file_key;
      match answer with
      | FileRaises error => reply_text chat_id (Failure error)
      | FileReturns (FileInfo (Some error) _) => reply_text chat_id (AccessError error)
      | FileReturns (FileInfo None file_name) =>
          on_comment_tracker (CommentTracker.add_file_to_track figma_client file_key);;
          on_subscription_manager
            (SubscriptionManager.add_comment_subscription chat_id file_key);;
          current_comments ← on_client (get_file_comments figma_client file_key);
          reply_text chat_id (SubscribedToComments file_name (length current_comments))
      end
  end.

Definition reset_comments (chat_id : Z) (args : list string) : prog bot bot_event unit :=
  match args with
  | [] => reply_text chat_id (Usage "reset_comments")
  | file_key :: _ =>
      b ← get_state;
      if negb (SubscriptionManager.is_user_subscribed_to_comments
                 (subscription_manager b) chat_id file_key)
      then reply_text chat_id (NotSubscribedToComments file_key)
      else
        done ← on_comment_tracker (CommentTracker.reset_comments_for_file file_key);
        if done : bool
        then reply_text chat_id CommentsReset
        else reply_text chat_id (CommentsResetFailed file_key)
  end.

Definition comments_off (chat_id : Z) (args : list string) : prog bot bot_event unit :=
  match args with
  | [] => reply_text chat_id (Usage "comments_off")
  | file_key :: _ =>
      b ← get_state;
      if negb (SubscriptionManager.is_user_subscribed_to_comments
                 (subscription_manager b) chat_id file_key)
      then reply_text chat_id NoCommentSubscription
      else
        on_subscription_manager
          (SubscriptionManager.remove_comment_subscription chat_id file_key);;
        b ← get_state;
        (if negb (SubscriptionManager.has_any_comment_subscribers
                    (subscription_manager b) file_key)
         then on_comment_tracker (CommentTracker.remove_file_from_track file_key)
         else mret tt);;
        reply_text chat_id UnsubscribedFromComments
  end.

Definition unsubscribe (chat_id : Z) (args : list string) : prog bot bot_event unit :=
  match args with
  | [] => reply_text chat_id (Usage "unsubscribe")
  | file_key :: _ =>
      b ← get_state;
      if negb (SubscriptionManager.is_user_subscribed_to_file
                 (subscription_manager b) chat_id file_key)
      then reply_text chat_id NoFileSubscription
      else
        on_subscription_manager
          (SubscriptionManager.remove_file_subscription chat_id file_key);;
        b ← get_state;
        (if negb (SubscriptionManager.has_any_file_subscribers
                    (subscription_manager b) file_key)
         then on_version_tracker (VersionTracker.remove_file_from_track file_key)
         else mret tt);;
        b ← get_state;
        (if SubscriptionManager.is_user_subscribed_to_comments
              (subscription_manager b) chat_id file_key
         then
           on_subscription_manager
             (SubscriptionManager.remove_comment_subscription chat_id file_key);;
           b ← get_state;
           if negb (SubscriptionManager.has_any_comment_subscribers
                      (subscription_manager b) file_key)
           then on_comment_tracker (CommentTracker.remove_file_from_track file_key)
           else mret tt
         else mret tt);;
        reply_text chat_id Unsubscribed
  end.

Definition send_message (chat_id : Z) (text : notification) : prog bot bot_event unit :=
  emit (SendMessage chat_id text).

(** The body of the loop over [updated_files] in [check_updates]: an
    exception while the message is prepared skips the file. *)
Definition notify_update (file_update : VersionTracker.update)
  : prog bot bot_event unit :=
  let file_key := VersionTracker.file_key file_update in
  answer ← get_file file_key;
  match answer with
  | FileRaises _ => mret tt
  | FileReturns file_info =>
      versions_info ← get_file_versions file_key;
      match versions_info with
      | VersionsRaises => mret tt
      | Versions latest =>
          b ← get_state;
          let subscribers :=
            SubscriptionManager.get_file_subscribers (subscription_manager b) file_key in
          for_each subscribers (λ chat_id,
            send_message chat_id (UpdateNotice (info_name file_info) file_update latest))
      end
  end.

(** Building the text and the button of one comment notice evaluates:
    [comment.get("user", {}).get("handle", ...)] and
    [comment.get('client_meta', {}).get('node_id', '')] both do. *)
Definition builds_message (comment : comment) : bool :=
  has_get (user comment) && has_get (client_meta comment).

(** The body of the loop over [new_comments_by_file.items()].  The message
    of one comment is built inside the [try] that also sends it: when
    building raises, nothing is sent for that subscriber and comment. *)
Definition notify_comments (item : string * list comment) : prog bot bot_event unit :=
  let '(file_key, new_comments) := item in
  answer ← get_file file_key;
  match answer with
  | FileRaises _ => mret tt
  | FileReturns file_info =>
      b ← get_state;
      let subscribers :=
        SubscriptionManager.get_comment_subscribers (subscription_manager b) file_key in
      for_each subscribers (λ chat_id,
        for_each new_comments (λ comment,
          if builds_message comment
          then send_message chat_id
                 (CommentNotice (info_name file_info) file_key comment)
          else mret tt))
  end.

(** [check_all_comments] is called outside any [try]: its exception ends
    the job, after the update notices went out. *)
Definition check_updates : prog bot bot_event (outcome unit) :=
  updated_files ← on_version_tracker (VersionTracker.check_all_updates figma_client);
  for_each updated_files notify_update;;
  checked ← on_comment_tracker (CommentTracker.check_all_comments figma_client);
  match checked with
  | Returns new_comments_by_file =>
      for_each (map_to_list new_comments_by_file) notify_comments;;
      mret (Returns tt)
  | Raises => mret Raises
  end.
End handlers.

End Bot.
(** ** Vocabulary of the statements *)

(** What a check of [k] reports as changed, read off the state before it:
    the fetched version is non-empty and differs from the stored one. *)
Definition changed_entry (figma_client : FigmaClient)
    (versions : gmap string string) (k : string) : option VersionTracker.update :=
  old ← versions !! k;
  let new := client_file_version figma_client k in
  if truthy new && bool_decide (old ≠ new)
  then Some (VersionTracker.Update k (Some old) (Some new))
  else None.

(** The baseline a check of [k] leaves behind. *)
Definition next_baseline (figma_client : FigmaClient)
    (versions : gmap string string) (k : string) : option string :=
  old ← versions !! k;
  let new := client_file_version figma_client k in
  Some (if truthy new then new else old).

(** Sample data: the resource ["abc123"] at baseline ["v1"], and clients
    that answer a fixed version for every key. *)
Definition sample_versions : gmap string string := {[ "abc123" := "v1" ]}.

Definition client_answering (version : string) (comments : list comment) : FigmaClient :=
  {| client_file_version := λ _, version; client_file_comments := λ _, comments |}.

Definition failing_client : FigmaClient := client_answering EmptyString [].

(** A fetched comment counts as unseen against the set [known] when it
    carries a non-empty id that is not in [known]. *)
Definition unseen (known : gset string) (c : comment) : Prop :=
  match comment_id c with
  | Some i => i ≠ EmptyString ∧ i ∉ known
  | None => False
  end.

#[global] Instance unseen_dec known c : Decision (unseen known c).
Proof. unfold unseen. destruct (comment_id c); apply _. Defined.

(** Keeps, for each id, the first comment of the list that carries it. *)
Fixpoint first_per_id (l : list comment) : list comment :=
  match l with
  | [] => []
  | c :: rest => c :: filter (λ d, comment_id d ≠ comment_id c) (first_per_id rest)
  end.


(** What [check_file_comments] ends in once its loop has collected
    [new_comments]: it raises when the debug loop does, else returns them
    with the flag. *)
Definition reported (new_comments : list comment) : outcome (list comment * bool) :=
  if decide (Forall CommentTracker.logs new_comments)
  then Returns (new_comments, bool_decide (new_comments ≠ []))
  else Raises.

(** A comment as the Figma API gives it: text, author and position all in
    place. *)
Definition posted (id : option string) (text : string) : comment :=
  {| comment_id := id;
     message := Some (VStr text);
     user := Some (VDict [("handle", VStr "ann")]);
     created_at := Some (VStr "2024-05-01T10:00:00Z");
     client_meta := Some (VDict [("node_id", VStr "1:2")]) |}.

(** Sample data: ["abc123"] tracked with the comment ["c1"] seen; a live
    comment list holding ["c1"], a comment without id, and two comments
    that share the id ["c2"]; one holding a comment whose id is the empty
    string; one holding a comment whose ["user"] is null. *)
Definition sample_comments : gmap string (gset string) := {[ "abc123" := {[ "c1" ]} ]}.

Definition c1_comment : comment := posted (Some "c1") "first".
Definition orphan_comment : comment := posted None "no id".
Definition c2_comment : comment := posted (Some "c2") "second".
Definition c2_again_comment : comment := posted (Some "c2") "second, again".


Definition plain_live : list comment := [c1_comment; c2_comment].

Definition odd_live : list comment :=
  [c1_comment; orphan_comment; c2_comment; c2_again_comment].



(** The reading "the comment's id is absent from the set [known]", with no
    condition on the id itself: what [comment_id not in known_comment_ids]
    alone would test. *)
Definition id_absent (known : gset string) (c : comment) : Prop :=
  match comment_id c with
  | Some i => i ∉ known
  | None => True
  end.

#[global] Instance id_absent_dec known c : Decision (id_absent known c).
Proof. unfold id_absent. destruct (comment_id c); apply _. Defined.

(** The four mutating calls of the subscription manager, and a run of a
    sequence of them. *)
Inductive call :=
| AddFile (chat_id : Z) (file_key : string)
| RemoveFile (chat_id : Z) (file_key : string)
| AddComment (chat_id : Z) (file_key : string)
| RemoveComment (chat_id : Z) (file_key : string).

Definition perform (c : call) : prog SubscriptionManager.state event unit :=
  match c with
  | AddFile chat_id file_key =>
      SubscriptionManager.add_file_subscription chat_id file_key
  | RemoveFile chat_id file_key =>
      SubscriptionManager.remove_file_subscription chat_id file_key;; mret tt
  | AddComment chat_id file_key =>
      SubscriptionManager.add_comment_subscription chat_id file_key
  | RemoveComment chat_id file_key =>
      SubscriptionManager.remove_comment_subscription chat_id file_key;; mret tt
  end.

Fixpoint perform_all (calls : list call) : prog SubscriptionManager.state event unit :=
  match calls with
  | [] => mret tt
  | c :: rest => perform c;; perform_all rest
  end.

(** The dict an add leaves: the subscriber's set gains the file key. *)
Definition added (subs : gmap Z (gset string)) (chat_id : Z) (file_key : string)
  : gmap Z (gset string) :=
  <[chat_id := SubscriptionManager.files_of subs chat_id ∪ {[ file_key ]}]> subs.

(** The dict a remove leaves: the subscriber's set loses the file key, and
    the entry goes when the set becomes empty. *)
Definition removed (subs : gmap Z (gset string)) (chat_id : Z) (file_key : string)
  : gmap Z (gset string) :=
  if decide (file_key ∈ SubscriptionManager.files_of subs chat_id)
  then if decide (SubscriptionManager.files_of subs chat_id ∖ {[ file_key ]} = ∅)
       then delete chat_id subs
       else <[chat_id := SubscriptionManager.files_of subs chat_id ∖ {[ file_key ]}]> subs
  else subs.

(** No key of the dict maps to the empty set. *)
Definition no_empty_entry (subs : gmap Z (gset string)) : Prop :=
  ∀ (chat_id : Z) (file_keys : gset string),
    subs !! chat_id = Some file_keys → file_keys ≠ ∅.

Definition keeps_no_empty_entry (st : SubscriptionManager.state) : Prop :=
  no_empty_entry (SubscriptionManager.user_subscriptions st)
  ∧ no_empty_entry (SubscriptionManager.comment_subscriptions st).

(** Sample data: subscriber 7 holds one update subscription. *)
Definition sample_subscriptions : SubscriptionManager.state :=
  SubscriptionManager.State {[ 7%Z := {[ "abc123" ]} ]} ∅.

(** ** Reading traces *)

(** The file keys whose version was fetched, in call order. *)
Definition fetched_versions (trace : list event) : list string :=
  omap (λ e, match e with GetFileVersion k => Some k | _ => None end) trace.

(** The snapshots handed to [_save_versions], in call order. *)
Definition saved_versions (trace : list event) : list (gmap string string) :=
  omap (λ e, match e with SaveVersions versions => Some versions | _ => None end) trace.

(** The file keys whose comments were fetched, in call order. *)
Definition fetched_comments (trace : list event) : list string :=
  omap (λ e, match e with GetFileComments k => Some k | _ => None end) trace.


(** The comments one check of [k] collects as new, read off the state
    before it. *)
Definition new_for (figma_client : FigmaClient)
    (comments : gmap string (gset string)) (k : string) : list comment :=
  match comments !! k with
  | Some known =>
      first_per_id (filter (unseen known) (client_file_comments figma_client k))
  | None => []
  end.

(** No check of a sweep over [comments] raises. *)
Definition sweep_returns (figma_client : FigmaClient)
    (comments : gmap string (gset string)) : Prop :=
  ∀ k, Forall CommentTracker.logs (new_for figma_client comments k).

(** Successive checks of one file, one per client answer, with everything
    they return; a check that raises returns nothing. *)
Fixpoint check_repeatedly (clients : list FigmaClient) (file_key : string)
  : prog (gmap string (gset string)) event (list comment) :=
  match clients with
  | [] => mret []
  | figma_client :: rest =>
      checked ← CommentTracker.check_file_comments figma_client file_key;
      later ← check_repeatedly rest file_key;
      mret (match checked with
            | Returns (new_comments, _) => new_comments ++ later
            | Raises => later
            end)
  end.

(** ** Vocabulary for the bot *)

(** The notifications handed to Telegram, with their recipients, in
    sending order. *)
Definition sent (trace : list Bot.bot_event) : list (Z * Bot.notification) :=
  omap (λ e, match e with
             | Bot.SendMessage chat_id text => Some (chat_id, text)
             | _ => None
             end) trace.

(** What the Figma API answers at the moment of one step. *)
Record world := World {
  world_client : FigmaClient;
  world_files : Bot.FigmaFiles;
}.

(** The steps of the bot: a command of a user, or a run of the job. *)
Inductive command :=
| Subscribe (chat_id : Z) (args : list string)
| Unsubscribe (chat_id : Z) (args : list string)
| CommentsOn (chat_id : Z) (args : list string)
| CommentsOff (chat_id : Z) (args : list string)
| ResetComments (chat_id : Z) (args : list string)
| CheckUpdates.

Definition handle (auto_subscribe_comments : bool) (w : world) (c : command)
  : prog Bot.bot Bot.bot_event unit :=
  match c with
  | Subscribe chat_id args =>
      Bot.subscribe (world_client w) (world_files w) auto_subscribe_comments chat_id args
  | Unsubscribe chat_id args => Bot.unsubscribe chat_id args
  | CommentsOn chat_id args =>
      Bot.comments_on (world_client w) (world_files w) chat_id args
  | CommentsOff chat_id args => Bot.comments_off chat_id args
  | ResetComments chat_id args => Bot.reset_comments chat_id args
  | CheckUpdates => Bot.check_updates (world_client w) (world_files w);; mret tt
  end.

Fixpoint handle_all (auto_subscribe_comments : bool) (steps : list (world * command))
  : prog Bot.bot Bot.bot_event unit :=
  match steps with
  | [] => mret tt
  | (w, c) :: rest =>
      handle auto_subscribe_comments w c;; handle_all auto_subscribe_comments rest
  end.

(** Every file a tracker holds has a subscriber of the matching class. *)
Definition no_orphan_tracking (b : Bot.bot) : Prop :=
  (∀ k, is_Some (Bot.version_tracker b !! k) →
        SubscriptionManager.has_any_file_subscribers (Bot.subscription_manager b) k = true)
  ∧ (∀ k, is_Some (Bot.comment_tracker b !! k) →
          SubscriptionManager.has_any_comment_subscribers
            (Bot.subscription_manager b) k = true).

(** The notifications one run of the job owes for one reported update:
    none when preparing the message raises, else one per subscriber of the
    file. *)
Definition update_jobs (figma_files : Bot.FigmaFiles) (subs : SubscriptionManager.state)
    (file_update : VersionTracker.update) : list (Z * Bot.notification) :=
  let k := VersionTracker.file_key file_update in
  match Bot.client_file figma_files k, Bot.client_file_versions figma_files k with
  | Bot.FileReturns info, Bot.Versions latest =>
      (λ chat_id, (chat_id, Bot.UpdateNotice (Bot.info_name info) file_update latest))
        <$> SubscriptionManager.get_file_subscribers subs k
  | _, _ => []
  end.

(** The notifications owed for the new comments of one file: none when
    [get_file] raises, else one per comment subscriber and new comment
    whose message can be built. *)
Definition comment_jobs (figma_files : Bot.FigmaFiles) (subs : SubscriptionManager.state)
    (item : string * list comment) : list (Z * Bot.notification) :=
  match Bot.client_file figma_files item.1 with
  | Bot.FileReturns info =>
      chat_id ← SubscriptionManager.get_comment_subscribers subs item.1;
      (λ c, (chat_id, Bot.CommentNotice (Bot.info_name info) item.1 c))
        <$> filter Bot.builds_message item.2
  | Bot.FileRaises _ => []
  end.

(** Sample data: a bot tracking ["abc123"], with subscriber 7 on its
    updates and subscribers 7 and 8 on its comments; a Figma API that knows
    every file under the name ["Design"]. *)
Definition sample_bot : Bot.bot :=
  Bot.BotState sample_versions sample_comments
    (SubscriptionManager.State {[ 7%Z := {[ "abc123" ]} ]}
       {[ 7%Z := {[ "abc123" ]}; 8%Z := {[ "abc123" ]} ]}).

Definition sample_files : Bot.FigmaFiles :=
  {| Bot.client_file := λ _, Bot.FileReturns (Bot.FileInfo None (Some "Design"));
     Bot.client_file_versions := λ _, Bot.Versions None |}.


(** ** Reasoning about programs *)

Section prog_lemmas.
Context {S E : Type}.
Implicit Types s : S.

Lemma result_bind {A B} (m : prog S E A) (f : A → prog S E B) s :
  result (m ≫= f) s = result (f (result m s)) (state_after m s).
Proof.
  unfold result, state_after, mbind, prog_mbind, prog_bind.
  destruct (m s) as [[a s1] t1]; simpl. by destruct (f a s1) as [[b s2] t2].
Qed.

Lemma state_after_bind {A B} (m : prog S E A) (f : A → prog S E B) s :
  state_after (m ≫= f) s = state_after (f (result m s)) (state_after m s).
Proof.
  unfold result, state_after, mbind, prog_mbind, prog_bind.
  destruct (m s) as [[a s1] t1]; simpl. by destruct (f a s1) as [[b s2] t2].
Qed.

Lemma effects_bind {A B} (m : prog S E A) (f : A → prog S E B) s :
  effects (m ≫= f) s
  = effects m s ++ effects (f (result m s)) (state_after m s).
Proof.
  unfold effects, result, state_after, mbind, prog_mbind, prog_bind.
  destruct (m s) as [[a s1] t1]; simpl. by destruct (f a s1) as [[b s2] t2].
Qed.
End prog_lemmas.

(** Unfolds the monad down to tuples. *)
Ltac run_prog :=
  unfold result, state_after, effects, get_file_version, get_file_comments,
    mbind, mret, prog_mbind, prog_mret, prog_bind, prog_ret,
    get_state, put_state, emit in *;
  simpl in *.

(** Settles a closed decidable statement by evaluating its decision. *)
Ltac by_evaluation := apply (bool_decide_unpack _); vm_compute; exact I.

Lemma truthy_spec (s : string) : truthy s = true ↔ s ≠ EmptyString.
Proof. destruct s; simpl; split; (done || congruence). Qed.

Lemma truthy_false (s : string) : truthy s = false ↔ s = EmptyString.
Proof. destruct s; simpl; split; (done || congruence). Qed.

(** ** Properties of the version tracker *)

Module VersionTrackerFacts.
Import VersionTracker.

Section facts.
Variable figma_client : FigmaClient.
Implicit Types versions : gmap string string.

Abbreviation fetch := (client_file_version figma_client).

Lemma check_file_updates_untracked versions k :
  versions !! k = None →
  check_file_updates figma_client k versions = ((false, None, None), versions, []).
Proof. intros Hk. unfold check_file_updates. run_prog. by rewrite Hk. Qed.

Lemma check_file_updates_failed versions k old :
  versions !! k = Some old →
  fetch k = EmptyString →
  check_file_updates figma_client k versions
  = ((false, Some old, None), versions, [GetFileVersion k]).
Proof.
  intros Hk Hf. unfold check_file_updates. run_prog. by rewrite Hk, Hf.
Qed.

Lemma check_file_updates_changed versions k old :
  versions !! k = Some old →
  fetch k ≠ EmptyString →
  fetch k ≠ old →
  check_file_updates figma_client k versions
  = ((true, Some old, Some (fetch k)),
     <[k := fetch k]> versions,
     [GetFileVersion k; SaveVersions (<[k := fetch k]> versions)]).
Proof.
  intros Hk Hf Hne. unfold check_file_updates, _save_versions. run_prog.
  rewrite Hk. apply truthy_spec in Hf as ->. simpl.
  by rewrite bool_decide_eq_true_2.
Qed.

Lemma check_file_updates_same versions k old :
  versions !! k = Some old →
  fetch k ≠ EmptyString →
  fetch k = old →
  check_file_updates figma_client k versions
  = ((false, Some old, Some old), versions, [GetFileVersion k]).
Proof.
  intros Hk Hf He. unfold check_file_updates. run_prog.
  rewrite Hk. apply truthy_spec in Hf as ->. simpl.
  rewrite bool_decide_eq_false_2; [by rewrite He|]. by intros Hne.
Qed.

Lemma check_file_updates_result versions k :
  result (check_file_updates figma_client k) versions
  = match changed_entry figma_client versions k with
    | Some u => (true, old_version u, new_version u)
    | None => (false, versions !! k,
               if truthy (fetch k) then versions !! k else None)
    end.
Proof.
  unfold changed_entry, check_file_updates. run_prog.
  destruct (versions !! k) as [old|]; simpl; [|by destruct (truthy _)].
  destruct (truthy (fetch k)) eqn:Ht; simpl; [|done].
  case_bool_decide as Hd; simpl; [done|].
  by rewrite Hd.
Qed.

Lemma check_file_updates_state versions k k' :
  state_after (check_file_updates figma_client k) versions !! k'
  = if decide (k = k') then next_baseline figma_client versions k else versions !! k'.
Proof.
  unfold next_baseline, check_file_updates, _save_versions. run_prog.
  destruct (versions !! k) as [old|] eqn:Hk; simpl.
  - destruct (truthy (fetch k)) eqn:Ht; simpl.
    + case_bool_decide as Hd; simpl.
      * rewrite lookup_insert. by case_decide.
      * case_decide; [|done]. subst k'. rewrite Hk. congruence.
    + case_decide; [|done]. by subst k'.
  - case_decide; [|done]. by subst k'.
Qed.

Lemma check_each_cons k rest versions :
  result (check_each figma_client (k :: rest)) versions
  = let versions' := state_after (check_file_updates figma_client k) versions in
    match changed_entry figma_client versions k with
    | Some u => u :: result (check_each figma_client rest) versions'
    | None => result (check_each figma_client rest) versions'
    end.
Proof.
  simpl. rewrite result_bind, check_file_updates_result.
  destruct (changed_entry figma_client versions k) as [u|] eqn:Hu.
  - rewrite result_bind.
    unfold changed_entry in Hu.
    destruct (versions !! k) as [old|]; simpl in Hu; [|done].
    destruct (truthy (fetch k) && bool_decide (old ≠ fetch k)); [|done].
    by simplify_eq.
  - by rewrite result_bind.
Qed.

Lemma check_each_state_cons k rest versions :
  state_after (check_each figma_client (k :: rest)) versions
  = state_after (check_each figma_client rest)
      (state_after (check_file_updates figma_client k) versions).
Proof.
  simpl. rewrite state_after_bind.
  destruct (result _ versions) as [[updated o] n].
  by rewrite state_after_bind.
Qed.

Lemma changed_entry_file_key versions k u :
  changed_entry figma_client versions k = Some u → file_key u = k.
Proof.
  unfold changed_entry. destruct (versions !! k) as [old|]; simpl; [|done].
  destruct (_ && _); [|done]. by intros [= <-].
Qed.

Lemma changed_entry_agree versions versions' k :
  versions' !! k = versions !! k →
  changed_entry figma_client versions' k = changed_entry figma_client versions k.
Proof. unfold changed_entry. by intros ->. Qed.

(** The sweep over distinct keys reports, for each key, what a check of
    that key alone would report on the state before the sweep. *)
Lemma check_each_result file_keys versions :
  NoDup file_keys →
  result (check_each figma_client file_keys) versions
  = omap (changed_entry figma_client versions) file_keys.
Proof.
  intros Hnd. revert versions.
  induction Hnd as [|k rest Hk Hnd IH]; intros versions; [done|].
  rewrite check_each_cons. simpl. rewrite IH.
  assert (omap (changed_entry figma_client
                  (state_after (check_file_updates figma_client k) versions)) rest
          = omap (changed_entry figma_client versions) rest) as ->.
  { apply list_omap_ext, Forall_Forall2_diag, Forall_forall.
    intros k' Hk'. apply changed_entry_agree.
    rewrite check_file_updates_state.
    destruct (decide (k = k')) as [->|]; done. }
  by destruct (changed_entry figma_client versions k).
Qed.

Lemma next_baseline_agree versions versions' k :
  versions' !! k = versions !! k →
  next_baseline figma_client versions' k = next_baseline figma_client versions k.
Proof. unfold next_baseline. by intros ->. Qed.

Lemma check_each_state file_keys versions k :
  NoDup file_keys →
  state_after (check_each figma_client file_keys) versions !! k
  = if decide (k ∈ file_keys) then next_baseline figma_client versions k
    else versions !! k.
Proof.
  intros Hnd. revert versions.
  induction Hnd as [|k0 rest Hk0 Hnd IH]; intros versions.
  - by rewrite decide_False by apply not_elem_of_nil.
  - rewrite check_each_state_cons, IH.
    destruct (decide (k = k0)) as [->|Hne].
    + rewrite decide_False by done.
      rewrite decide_True by apply list_elem_of_here.
      rewrite check_file_updates_state. by rewrite decide_True.
    + assert (state_after (check_file_updates figma_client k0) versions !! k
              = versions !! k) as Hsame.
      { rewrite check_file_updates_state. by rewrite decide_False. }
      rewrite (next_baseline_agree _ _ _ Hsame), Hsame.
      destruct (decide (k ∈ rest)).
      * rewrite decide_True; [done|by apply list_elem_of_further].
      * rewrite decide_False; [done|]. rewrite elem_of_cons. by intros [?|?].
Qed.

Lemma check_all_updates_result versions :
  result (check_all_updates figma_client) versions
  = omap (changed_entry figma_client versions) (map_to_list versions).*1.
Proof.
  unfold check_all_updates. rewrite result_bind.
  apply check_each_result, NoDup_fst_map_to_list.
Qed.

Lemma check_all_updates_state versions k :
  state_after (check_all_updates figma_client) versions !! k
  = next_baseline figma_client versions k.
Proof.
  unfold check_all_updates. rewrite state_after_bind.
  change (result get_state versions) with versions.
  change (state_after get_state versions) with versions.
  rewrite check_each_state by apply NoDup_fst_map_to_list.
  case_decide as Hin; [done|].
  unfold next_baseline. destruct (versions !! k) as [old|] eqn:Hk; [|done].
  destruct Hin. apply list_elem_of_fmap. exists (k, old).
  split; [done|]. by apply elem_of_map_to_list.
Qed.
End facts.

(** C1. When the version fetch fails (the client answers the empty
    string) for a tracked resource, [check_file_updates] returns
    (False, stored baseline, None), leaves the whole versions map as it
    was and saves nothing; in a [check_all_updates] pass such a resource
    is absent from the returned list and keeps its baseline. *)
Theorem check_file_updates_fetch_failure
    (figma_client : FigmaClient) (versions : gmap string string)
    (k old : string) :
  versions !! k = Some old →
  client_file_version figma_client k = EmptyString →
  check_file_updates figma_client k versions
  = ((false, Some old, None), versions, [GetFileVersion k])
  ∧ (k ∉ file_key <$> result (check_all_updates figma_client) versions)
  ∧ state_after (check_all_updates figma_client) versions !! k = Some old.
Proof.
  intros Hk Hfail. split; [by apply check_file_updates_failed|]. split.
  - rewrite check_all_updates_result.
    intros (u & -> & Hu)%list_elem_of_fmap.
    apply list_elem_of_omap in Hu as (k' & _ & Hu).
    pose proof (changed_entry_file_key _ _ _ _ Hu) as <-.
    unfold changed_entry in Hu. rewrite Hk, Hfail in Hu. done.
  - rewrite check_all_updates_state. unfold next_baseline.
    by rewrite Hk, Hfail.
Qed.

Lemma check_file_updates_fetch_failure_witness :
  check_file_updates failing_client "abc123" sample_versions
  = ((false, Some "v1", None), sample_versions, [GetFileVersion "abc123"])
  ∧ ("abc123" ∉ file_key <$> result (check_all_updates failing_client) sample_versions)
  ∧ state_after (check_all_updates failing_client) sample_versions !! "abc123"
    = Some "v1".
Proof.
  apply (check_file_updates_fetch_failure failing_client sample_versions
           "abc123" "v1"); reflexivity.
Defined.

(** C2. For a tracked resource with baseline [v0], a fetched version
    [v1] that is non-empty and differs from [v0] makes
    [check_file_updates] return (True, v0, v1); the stored baseline is
    [v1] and that map has been saved when the call returns.  A following
    check while the live version is still [v1] returns changed = False
    and leaves the map alone. *)
Theorem check_file_updates_detects_change
    (first second : FigmaClient) (versions : gmap string string)
    (k v0 v1 : string) :
  versions !! k = Some v0 →
  client_file_version first k = v1 →
  v1 ≠ EmptyString →
  v1 ≠ v0 →
  client_file_version second k = v1 →
  check_file_updates first k versions
  = ((true, Some v0, Some v1), <[k := v1]> versions,
     [GetFileVersion k; SaveVersions (<[k := v1]> versions)])
  ∧ <[k := v1]> versions !! k = Some v1
  ∧ check_file_updates second k (<[k := v1]> versions)
    = ((false, Some v1, Some v1), <[k := v1]> versions, [GetFileVersion k]).
Proof.
  intros Hk Hv1 Hne Hdiff Hv1'. subst v1. split; [|split].
  - by apply check_file_updates_changed.
  - apply lookup_insert_eq.
  - apply check_file_updates_same; [apply lookup_insert_eq|congruence|done].
Qed.

Lemma check_file_updates_detects_change_witness :
  check_file_updates (client_answering "v2" []) "abc123" sample_versions
  = ((true, Some "v1", Some "v2"), <["abc123" := "v2"]> sample_versions,
     [GetFileVersion "abc123";
      SaveVersions (<["abc123" := "v2"]> sample_versions)])
  ∧ <["abc123" := "v2"]> sample_versions !! "abc123" = Some "v2"
  ∧ check_file_updates (client_answering "v2" []) "abc123"
      (<["abc123" := "v2"]> sample_versions)
    = ((false, Some "v2", Some "v2"), <["abc123" := "v2"]> sample_versions,
       [GetFileVersion "abc123"]).
Proof.
  apply (check_file_updates_detects_change
           (client_answering "v2" []) (client_answering "v2" [])
           sample_versions "abc123" "v1" "v2");
    (reflexivity || discriminate).
Defined.

(** C3. [add_file_to_track] on a resource already present in the
    versions map returns at once: the map, hence the stored baseline, is
    exactly as before, nothing is fetched and nothing is saved, whatever
    version the client would answer. *)
Theorem add_file_to_track_keeps_baseline
    (figma_client : FigmaClient) (versions : gmap string string) (k : string) :
  is_Some (versions !! k) →
  add_file_to_track figma_client k versions = (tt, versions, []).
Proof.
  intros [old Hk]. unfold add_file_to_track. run_prog. by rewrite Hk.
Qed.

Lemma add_file_to_track_keeps_baseline_witness :
  add_file_to_track (client_answering "v2" []) "abc123" sample_versions
  = (tt, sample_versions, []).
Proof.
  apply (add_file_to_track_keeps_baseline (client_answering "v2" [])
           sample_versions "abc123").
  exists "v1". reflexivity.
Defined.

(** C8. The list one [check_all_updates] pass returns holds exactly the
    tracked resources whose fetched version is non-empty and differs from
    the baseline stored before the pass, each with that baseline as old
    and the fetched version as new version; no file key occurs twice. *)
Theorem check_all_updates_exact
    (figma_client : FigmaClient) (versions : gmap string string) :
  NoDup (file_key <$> result (check_all_updates figma_client) versions)
  ∧ ∀ u : update,
      u ∈ result (check_all_updates figma_client) versions
      ↔ ∃ old : string,
          versions !! file_key u = Some old
          ∧ client_file_version figma_client (file_key u) ≠ EmptyString
          ∧ client_file_version figma_client (file_key u) ≠ old
          ∧ old_version u = Some old
          ∧ new_version u = Some (client_file_version figma_client (file_key u)).
Proof.
  rewrite check_all_updates_result. split.
  - pose proof (NoDup_fst_map_to_list versions) as Hnd.
    induction Hnd as [|k rest Hk Hnd IH]; [constructor|]. simpl.
    destruct (changed_entry figma_client versions k) as [u|] eqn:Hu; [|done].
    simpl. apply NoDup_cons. split; [|done].
    rewrite (changed_entry_file_key _ _ _ _ Hu).
    intros (u' & -> & Hu')%list_elem_of_fmap.
    apply list_elem_of_omap in Hu' as (k' & Hk' & Hu').
    by rewrite (changed_entry_file_key _ _ _ _ Hu') in Hk.
  - intros u. rewrite list_elem_of_omap. unfold changed_entry. split.
    + intros (k & _ & Hu).
      destruct (versions !! k) as [old|] eqn:Hk; simpl in Hu; [|done].
      destruct (truthy _) eqn:Ht; simpl in Hu; [|done].
      case_bool_decide as Hd; [|done]. injection Hu as <-. simpl.
      exists old. apply truthy_spec in Ht. by repeat split.
    + intros (old & Hk & Hne & Hdiff & Hold & Hnew).
      exists (file_key u). split.
      * apply list_elem_of_fmap. exists (file_key u, old).
        split; [done|]. by apply elem_of_map_to_list.
      * rewrite Hk. simpl. apply truthy_spec in Hne as ->. simpl.
        rewrite bool_decide_eq_true_2 by congruence.
        destruct u; simpl in *. by subst.
Qed.

(** C9. When the version fetch fails during [add_file_to_track] on a
    resource that is not tracked, the versions map is unchanged and
    nothing is saved: the resource stays untracked, and a following
    [check_file_updates] on it returns (False, None, None) without
    fetching. *)
Theorem add_file_to_track_fetch_failure
    (figma_client later_client : FigmaClient)
    (versions : gmap string string) (k : string) :
  versions !! k = None →
  client_file_version figma_client k = EmptyString →
  add_file_to_track figma_client k versions = (tt, versions, [GetFileVersion k])
  ∧ check_file_updates later_client k
      (state_after (add_file_to_track figma_client k) versions)
    = ((false, None, None), versions, []).
Proof.
  intros Hk Hfail.
  assert (add_file_to_track figma_client k versions
          = (tt, versions, [GetFileVersion k])) as Hadd.
  { unfold add_file_to_track. run_prog. by rewrite Hk, Hfail. }
  split; [done|].
  unfold state_after. rewrite Hadd. simpl.
  by apply check_file_updates_untracked.
Qed.

Lemma add_file_to_track_fetch_failure_witness :
  add_file_to_track failing_client "xyz789" sample_versions
  = (tt, sample_versions, [GetFileVersion "xyz789"])
  ∧ check_file_updates (client_answering "v2" []) "xyz789"
      (state_after (add_file_to_track failing_client "xyz789") sample_versions)
    = ((false, None, None), sample_versions, []).
Proof.
  apply (add_file_to_track_fetch_failure failing_client
           (client_answering "v2" []) sample_versions "xyz789"); reflexivity.
Defined.

End VersionTrackerFacts.

(** ** Further properties of the version tracker *)

Module VersionTrackerMore.
Import VersionTracker VersionTrackerFacts.

Section more.
Variable figma_client : FigmaClient.
Implicit Types versions : gmap string string.

Abbreviation fetch := (client_file_version figma_client).

Lemma changed_entry_Some versions k u :
  changed_entry figma_client versions k = Some u →
  ∃ old, versions !! k = Some old ∧ fetch k ≠ EmptyString ∧ fetch k ≠ old
         ∧ u = Update k (Some old) (Some (fetch k)).
Proof.
  unfold changed_entry. destruct (versions !! k) as [old|]; simpl; [|done].
  destruct (truthy (fetch k)) eqn:Ht; simpl; [|done].
  case_bool_decide as Hd; [|done]. intros [= <-].
  exists old. apply truthy_spec in Ht. repeat split; [done|congruence].
Qed.

Lemma changed_entry_None versions k :
  changed_entry figma_client versions k = None →
  state_after (check_file_updates figma_client k) versions = versions
  ∧ saved_versions (effects (check_file_updates figma_client k) versions) = []
  ∧ fetched_versions (effects (check_file_updates figma_client k) versions)
    = if versions !! k is Some _ then [k] else [].
Proof.
  unfold changed_entry, check_file_updates, _save_versions. run_prog.
  destruct (versions !! k) as [old|]; simpl; [|done].
  destruct (truthy (fetch k)); simpl; [|done].
  by case_bool_decide.
Qed.

Lemma check_file_updates_is_Some versions k k' :
  is_Some (state_after (check_file_updates figma_client k) versions !! k')
  ↔ is_Some (versions !! k').
Proof.
  rewrite check_file_updates_state. case_decide as Hk; [|done]. subst k'.
  unfold next_baseline. by destruct (versions !! k).
Qed.

Lemma effects_check_each_cons k rest versions :
  effects (check_each figma_client (k :: rest)) versions
  = effects (check_file_updates figma_client k) versions
    ++ effects (check_each figma_client rest)
         (state_after (check_file_updates figma_client k) versions).
Proof.
  simpl. rewrite effects_bind. f_equal.
  destruct (result _ versions) as [[updated o] n].
  rewrite effects_bind. apply app_nil_r.
Qed.

Lemma fetched_versions_app t1 t2 :
  fetched_versions (t1 ++ t2) = fetched_versions t1 ++ fetched_versions t2.
Proof. apply omap_app. Qed.

Lemma saved_versions_app t1 t2 :
  saved_versions (t1 ++ t2) = saved_versions t1 ++ saved_versions t2.
Proof. apply omap_app. Qed.

(** A sweep over tracked keys fetches each key of the list, in order. *)
Lemma check_each_fetches file_keys versions :
  (∀ k, k ∈ file_keys → is_Some (versions !! k)) →
  fetched_versions (effects (check_each figma_client file_keys) versions) = file_keys.
Proof.
  revert versions. induction file_keys as [|k rest IH]; intros versions Hall; [done|].
  rewrite effects_check_each_cons, fetched_versions_app.
  rewrite IH.
  - destruct (Hall k) as [old Hk]; [apply list_elem_of_here|].
    destruct (changed_entry figma_client versions k) as [u|] eqn:Hu.
    + apply changed_entry_Some in Hu as (old' & Hk' & Hne & Hdiff & _).
      unfold effects. by rewrite (check_file_updates_changed _ _ _ _ Hk' Hne Hdiff).
    + apply changed_entry_None in Hu as (_ & _ & ->). by rewrite Hk.
  - intros k' Hk'. apply check_file_updates_is_Some, Hall.
    by apply list_elem_of_further.
Qed.

(** Saves of a sweep: one per reported change, the last one holding the
    map the sweep leaves; a sweep that reports nothing leaves the map as it
    was. *)
Lemma check_each_saves file_keys versions :
  length (saved_versions (effects (check_each figma_client file_keys) versions))
  = length (result (check_each figma_client file_keys) versions)
  ∧ (result (check_each figma_client file_keys) versions = [] →
     state_after (check_each figma_client file_keys) versions = versions)
  ∧ (result (check_each figma_client file_keys) versions ≠ [] →
     last (saved_versions (effects (check_each figma_client file_keys) versions))
     = Some (state_after (check_each figma_client file_keys) versions)).
Proof.
  revert versions. induction file_keys as [|k rest IH]; intros versions; [done|].
  rewrite effects_check_each_cons, saved_versions_app, check_each_cons,
    check_each_state_cons. simpl.
  destruct (IH (state_after (check_file_updates figma_client k) versions))
    as (IHlen & IHnil & IHlast).
  rewrite length_app, IHlen.
  destruct (changed_entry figma_client versions k) as [u|] eqn:Hu.
  - apply changed_entry_Some in Hu as (old & Hk & Hne & Hdiff & _).
    unfold state_after, effects in *.
    rewrite (check_file_updates_changed _ _ _ _ Hk Hne Hdiff) in *. simpl in *.
    split; [done|]. split; [done|]. intros _.
    destruct (result (check_each figma_client rest) (<[k:=fetch k]> versions))
      as [|u' us] eqn:Hrest.
    + rewrite IHnil by done.
      apply nil_length_inv in IHlen. by rewrite IHlen.
    + rewrite <-IHlast by done.
      destruct (saved_versions _) as [|s ss]; [done|]. done.
  - apply changed_entry_None in Hu as (Hst & Hsaved & _).
    rewrite Hst in *. rewrite Hsaved. simpl. done.
Qed.
Lemma check_all_updates_unfold versions :
  check_all_updates figma_client versions
  = check_each figma_client (map_to_list versions).*1 versions.
Proof.
  unfold check_all_updates, mbind, prog_mbind, prog_bind, get_state.
  by destruct (check_each _ _ _) as [[??]?].
Qed.

Lemma elem_of_tracked_keys versions k :
  k ∈ (map_to_list versions).*1 ↔ is_Some (versions !! k).
Proof.
  rewrite list_elem_of_fmap. split.
  - intros ([k' old] & -> & Hin). exists old. by apply elem_of_map_to_list.
  - intros [old Hk]. exists (k, old). split; [done|]. by apply elem_of_map_to_list.
Qed.
End more.

Lemma elem_of_check_all_updates
    (figma_client : FigmaClient) (versions : gmap string string) (u : update) :
  u ∈ result (check_all_updates figma_client) versions
  ↔ ∃ old : string,
      versions !! file_key u = Some old
      ∧ client_file_version figma_client (file_key u) ≠ EmptyString
      ∧ client_file_version figma_client (file_key u) ≠ old
      ∧ u = Update (file_key u) (Some old)
              (Some (client_file_version figma_client (file_key u))).
Proof.
  rewrite check_all_updates_result, list_elem_of_omap. split.
  - intros (k & _ & Hu).
    pose proof (changed_entry_file_key _ _ _ _ Hu) as <-.
    apply changed_entry_Some in Hu as (old & ? & ? & ? & Hu'). by exists old.
  - intros (old & Hk & Hne & Hdiff & Hu). exists (file_key u). split.
    + apply elem_of_tracked_keys. by eexists.
    + unfold changed_entry. rewrite Hk. simpl.
      apply truthy_spec in Hne as ->. simpl.
      rewrite bool_decide_eq_true_2 by congruence. by rewrite Hu at 3.
Qed.

Lemma NoDup_check_all_updates
    (figma_client : FigmaClient) (versions : gmap string string) :
  NoDup (result (check_all_updates figma_client) versions).
Proof.
  apply (NoDup_fmap_1 file_key). rewrite check_all_updates_result.
  pose proof (NoDup_fst_map_to_list versions) as Hnd.
  induction Hnd as [|k rest Hk Hnd IH]; [constructor|]. simpl.
  destruct (changed_entry figma_client versions k) as [u|] eqn:Hu; [|done].
  simpl. apply NoDup_cons. split; [|done].
  rewrite (changed_entry_file_key _ _ _ _ Hu).
  intros (u' & -> & Hu')%list_elem_of_fmap.
  apply list_elem_of_omap in Hu' as (k' & Hk' & Hu').
  by rewrite (changed_entry_file_key _ _ _ _ Hu') in Hk.
Qed.

(** Right after a pass, a pass with the same answers reports nothing. *)
Lemma check_all_updates_quiet
    (figma_client : FigmaClient) (versions : gmap string string) :
  result (check_all_updates figma_client)
    (state_after (check_all_updates figma_client) versions) = [].
Proof.
  rewrite check_all_updates_result. apply elem_of_nil_inv. intros u Hu.
  apply list_elem_of_omap in Hu as (k & _ & Hu).
  apply changed_entry_Some in Hu as (old & Hk & Hne & Hdiff & _).
  rewrite check_all_updates_state in Hk.
  unfold next_baseline in Hk.
  destruct (versions !! k) as [old0|]; simpl in Hk; [|done].
  apply truthy_spec in Hne. rewrite Hne in Hk. by injection Hk as <-.
Qed.

(** X1. Tracking an untracked file whose fetched version is non-empty
    stores that version as baseline and saves the map; a check made while
    the live version is still the same reports no change and saves
    nothing. *)
Theorem add_file_to_track_then_check
    (figma_client later_client : FigmaClient)
    (versions : gmap string string) (k : string) :
  versions !! k = None →
  client_file_version figma_client k ≠ EmptyString →
  client_file_version later_client k = client_file_version figma_client k →
  let v := client_file_version figma_client k in
  add_file_to_track figma_client k versions
  = (tt, <[k := v]> versions, [GetFileVersion k; SaveVersions (<[k := v]> versions)])
  ∧ check_file_updates later_client k (<[k := v]> versions)
    = ((false, Some v, Some v), <[k := v]> versions, [GetFileVersion k]).
Proof.
  intros Hk Hne Hsame v. split.
  - unfold add_file_to_track, _save_versions. run_prog. rewrite Hk.
    by apply truthy_spec in Hne as ->.
  - apply check_file_updates_same; [apply lookup_insert_eq|congruence|done].
Qed.

Lemma add_file_to_track_then_check_witness :
  add_file_to_track (client_answering "v2" []) "xyz789" sample_versions
  = (tt, <["xyz789" := "v2"]> sample_versions,
     [GetFileVersion "xyz789"; SaveVersions (<["xyz789" := "v2"]> sample_versions)])
  ∧ check_file_updates (client_answering "v2" []) "xyz789"
      (<["xyz789" := "v2"]> sample_versions)
    = ((false, Some "v2", Some "v2"), <["xyz789" := "v2"]> sample_versions,
       [GetFileVersion "xyz789"]).
Proof.
  apply (add_file_to_track_then_check (client_answering "v2" [])
           (client_answering "v2" []) sample_versions "xyz789");
    (reflexivity || discriminate).
Defined.

(** X2. [remove_file_from_track] on a tracked file deletes its entry,
    keeps every other baseline and saves; the file then checks as
    untracked, without a fetch.  Tracking it again takes the version
    fetched at that moment as baseline, whatever the old baseline was, when
    that version is non-empty; when the fetch gives the empty string the
    file stays untracked.  On an untracked file the method changes and
    saves nothing. *)
Theorem remove_file_from_track_then_retrack
    (figma_client : FigmaClient) (versions : gmap string string) (k : string) :
  (versions !! k = None → remove_file_from_track k versions = (tt, versions, []))
  ∧ (is_Some (versions !! k) →
     let untracked := state_after (remove_file_from_track k) versions in
     effects (remove_file_from_track k) versions = [SaveVersions untracked]
     ∧ untracked !! k = None
     ∧ (∀ k', k' ≠ k → untracked !! k' = versions !! k')
     ∧ check_file_updates figma_client k untracked = ((false, None, None), untracked, [])
     ∧ (client_file_version figma_client k ≠ EmptyString →
        state_after (add_file_to_track figma_client k) untracked !! k
        = Some (client_file_version figma_client k))
     ∧ (client_file_version figma_client k = EmptyString →
        state_after (add_file_to_track figma_client k) untracked = untracked)).
Proof.
  split.
  - intros Hk. unfold remove_file_from_track. run_prog. by rewrite Hk.
  - intros [old Hk] untracked.
    assert (remove_file_from_track k versions
            = (tt, delete k versions, [SaveVersions (delete k versions)])) as Hrun.
    { unfold remove_file_from_track, _save_versions. run_prog. by rewrite Hk. }
    assert (untracked = delete k versions) as ->.
    { unfold untracked, state_after. by rewrite Hrun. }
    unfold effects. rewrite Hrun. simpl.
    split; [done|]. split; [apply lookup_delete_eq|].
    split; [intros k' Hne; by apply lookup_delete_ne|].
    split; [apply check_file_updates_untracked, lookup_delete_eq|].
    split.
    + intros Hne. unfold add_file_to_track, _save_versions. run_prog.
      rewrite lookup_delete_eq. apply truthy_spec in Hne as ->. simpl.
      apply lookup_insert_eq.
    + intros Hempty. unfold add_file_to_track, _save_versions. run_prog.
      rewrite lookup_delete_eq. by rewrite Hempty.
Qed.

Lemma remove_file_from_track_then_retrack_witness :
  remove_file_from_track "xyz789" sample_versions = (tt, sample_versions, [])
  ∧ state_after (remove_file_from_track "abc123") sample_versions !! "abc123" = None
  ∧ state_after (add_file_to_track (client_answering "v9" []) "abc123")
      (state_after (remove_file_from_track "abc123") sample_versions) !! "abc123"
    = Some "v9"
  ∧ state_after (add_file_to_track failing_client "abc123")
      (state_after (remove_file_from_track "abc123") sample_versions)
    = state_after (remove_file_from_track "abc123") sample_versions.
Proof.
  split.
  - apply (proj1 (remove_file_from_track_then_retrack (client_answering "v9" [])
                    sample_versions "xyz789")).
    reflexivity.
  - destruct (proj2 (remove_file_from_track_then_retrack (client_answering "v9" [])
                       sample_versions "abc123"))
      as (_ & Hgone & _ & _ & Hretrack & _).
    + exists "v1". reflexivity.
    + destruct (proj2 (remove_file_from_track_then_retrack failing_client
                         sample_versions "abc123"))
        as (_ & _ & _ & _ & _ & Hstays).
      * exists "v1". reflexivity.
      * split; [exact Hgone|]. split; [apply Hretrack; discriminate|].
        apply Hstays. reflexivity.
Defined.

(** X3. One [check_all_updates] pass neither adds nor drops a tracked
    key, and leaves under each key the fetched version when that is
    non-empty and the old baseline otherwise. *)
Theorem check_all_updates_baselines
    (figma_client : FigmaClient) (versions : gmap string string) :
  let versions' := state_after (check_all_updates figma_client) versions in
  dom versions' = dom versions
  ∧ ∀ (k old : string),
      versions !! k = Some old →
      versions' !! k
      = Some (if decide (client_file_version figma_client k = EmptyString)
              then old else client_file_version figma_client k).
Proof.
  intros versions'. split.
  - apply set_eq. intros k. rewrite !elem_of_dom. unfold versions'.
    rewrite check_all_updates_state. unfold next_baseline.
    by destruct (versions !! k).
  - intros k old Hk. unfold versions'.
    rewrite check_all_updates_state. unfold next_baseline. rewrite Hk. simpl.
    destruct (truthy _) eqn:Ht.
    + apply truthy_spec in Ht. by rewrite decide_False.
    + apply truthy_false in Ht. by rewrite decide_True.
Qed.

Lemma check_all_updates_baselines_witness :
  state_after (check_all_updates (client_answering "v2" [])) sample_versions !! "abc123"
  = Some "v2".
Proof.
  apply (proj2 (check_all_updates_baselines (client_answering "v2" [])
                  sample_versions) "abc123" "v1").
  reflexivity.
Defined.

(** X4. A second [check_all_updates] pass made while the client answers
    as in the first reports nothing, leaves the map as the first pass left
    it and saves nothing. *)
Theorem check_all_updates_second_pass
    (figma_client : FigmaClient) (versions : gmap string string) :
  let versions' := state_after (check_all_updates figma_client) versions in
  result (check_all_updates figma_client) versions' = []
  ∧ state_after (check_all_updates figma_client) versions' = versions'
  ∧ saved_versions (effects (check_all_updates figma_client) versions') = [].
Proof.
  intros versions'.
  pose proof (check_all_updates_quiet figma_client versions) as Hquiet.
  fold versions' in Hquiet.
  split; [done|].
  pose proof (check_each_saves figma_client (map_to_list versions').*1 versions')
    as (Hlen & Hnil & _).
  unfold result, state_after, effects in *.
  rewrite check_all_updates_unfold in *. rewrite Hquiet in *.
  split; [by apply Hnil|]. by apply nil_length_inv.
Qed.

(** X5. One [check_all_updates] pass asks the client for the version of
    each tracked key exactly once, and of no other key. *)
Theorem check_all_updates_fetches_each_key_once
    (figma_client : FigmaClient) (versions : gmap string string) :
  let fetched :=
    fetched_versions (effects (check_all_updates figma_client) versions) in
  NoDup fetched ∧ ∀ k : string, k ∈ fetched ↔ is_Some (versions !! k).
Proof.
  intros fetched.
  assert (fetched = (map_to_list versions).*1) as ->.
  { unfold fetched, effects. rewrite check_all_updates_unfold.
    apply check_each_fetches. intros k. apply elem_of_tracked_keys. }
  split; [apply NoDup_fst_map_to_list|]. intros k. apply elem_of_tracked_keys.
Qed.

(** X6. One [check_all_updates] pass calls [_save_versions] once per
    reported change; when it reports a change, the last snapshot saved is
    the map it leaves in memory; when it reports none, it leaves the map
    untouched. *)
Theorem check_all_updates_write_through
    (figma_client : FigmaClient) (versions : gmap string string) :
  let updated_files := result (check_all_updates figma_client) versions in
  let saved := saved_versions (effects (check_all_updates figma_client) versions) in
  let versions' := state_after (check_all_updates figma_client) versions in
  length saved = length updated_files
  ∧ (updated_files = [] → versions' = versions)
  ∧ (updated_files ≠ [] → last saved = Some versions').
Proof.
  intros updated_files saved versions'.
  unfold updated_files, saved, versions', result, state_after, effects.
  rewrite check_all_updates_unfold.
  apply (check_each_saves figma_client).
Qed.

Lemma check_all_updates_write_through_witness :
  result (check_all_updates (client_answering "v2" [])) sample_versions ≠ []
  ∧ last (saved_versions (effects (check_all_updates (client_answering "v2" []))
                            sample_versions))
    = Some (state_after (check_all_updates (client_answering "v2" [])) sample_versions).
Proof.
  assert (result (check_all_updates (client_answering "v2" [])) sample_versions ≠ [])
    as Hsome by (vm_compute; discriminate).
  split; [exact Hsome|].
  apply (proj2 (proj2 (check_all_updates_write_through (client_answering "v2" [])
                         sample_versions))).
  exact Hsome.
Defined.

End VersionTrackerMore.

(** ** Properties of the comment tracker *)

Module CommentTrackerFacts.
Import CommentTracker.

Lemma NoDup_fmap_filter {A B} (f : A → B) (P : A → Prop) `{!∀ x, Decision (P x)}
    (l : list A) :
  NoDup (f <$> l) → NoDup (f <$> filter P l).
Proof.
  induction l as [|x l IH]; [done|]. simpl. intros [Hx Hl]%NoDup_cons.
  rewrite filter_cons. destruct (decide (P x)); [|by apply IH].
  simpl. apply NoDup_cons. split; [|by apply IH].
  intros (y & Hxy & [_ Hy]%list_elem_of_filter)%list_elem_of_fmap.
  apply Hx, list_elem_of_fmap. by exists y.
Qed.


Lemma comment_ids_cons c l :
  comment_ids (c :: l)
  = match comment_id c with
    | Some i => if truthy i then {[ i ]} ∪ comment_ids l else comment_ids l
    | None => comment_ids l
    end.
Proof.
  unfold comment_ids. rewrite filter_cons.
  destruct (decide (has_id c)) as [Hc|Hc]; unfold has_id in Hc;
    destruct (comment_id c) as [i|] eqn:Hi; try done;
    destruct (truthy i); try done.
  simpl. by rewrite Hi.
Qed.

(** The ids collected from a list are the non-empty ids of its comments. *)
Lemma elem_of_comment_ids l i :
  i ∈ comment_ids l ↔ ∃ c, c ∈ l ∧ comment_id c = Some i ∧ i ≠ EmptyString.
Proof.
  induction l as [|c l IH].
  - unfold comment_ids. simpl. split; [by intros ?%not_elem_of_empty|].
    intros (c & Hc & _). by apply not_elem_of_nil in Hc.
  - rewrite comment_ids_cons. setoid_rewrite elem_of_cons.
    destruct (comment_id c) as [j|] eqn:Hc.
    + destruct (truthy j) eqn:Hj.
      * rewrite elem_of_union, elem_of_singleton, IH. apply truthy_spec in Hj.
        split.
        -- intros [->|(d & ? & ? & ?)]; [exists c|exists d]; eauto.
        -- intros (d & [->|?] & ? & ?); [left; congruence|right; eauto].
      * rewrite IH. apply truthy_false in Hj. subst j. split.
        -- intros (d & ? & ? & ?). exists d. eauto.
        -- intros (d & [->|?] & ? & ?); [congruence|eauto].
    + rewrite IH. split.
      * intros (d & ? & ? & ?). exists d. eauto.
      * intros (d & [->|?] & ? & ?); [congruence|eauto].
Qed.

Lemma first_per_id_filter (P : comment → Prop) `{!∀ c, Decision (P c)} l :
  (∀ c d, comment_id c = comment_id d → P c → P d) →
  first_per_id (filter P l) = filter P (first_per_id l).
Proof.
  intros HP. induction l as [|c l IH]; [done|].
  rewrite filter_cons. destruct (decide (P c)) as [Hc|Hc]; simpl.
  - rewrite filter_cons_True by done. f_equal. rewrite IH.
    rewrite !list_filter_filter. apply list_filter_iff.
    intros d. split; intros [? ?]; done.
  - rewrite filter_cons_False by done.
    rewrite IH, list_filter_filter. apply list_filter_iff.
    intros d. split; [|by intros [? _]].
    intros Hd. split; [done|]. intros Heq. apply Hc. by apply (HP d).
Qed.



Lemma unseen_add known i c :
  unseen (known ∪ {[ i ]}) c ↔ unseen known c ∧ comment_id c ≠ Some i.
Proof.
  unfold unseen. destruct (comment_id c) as [j|]; [|by split; [|intros []]].
  rewrite not_elem_of_union, not_elem_of_singleton. split.
  - intros (? & ? & ?). split; [done|congruence].
  - intros [[? ?] Hne]. repeat split; [done..|]. congruence.
Qed.

(** The loop of [check_file_comments], started on a tracked file whose
    stored set is [known]: it collects the first comment of each unseen
    id and leaves the stored set enlarged by every id fetched. *)
Lemma scan_comments_spec k l (comments : gmap string (gset string)) known :
  comments !! k = Some known →
  scan_comments k l comments
  = (first_per_id (filter (unseen known) l),
     <[k := known ∪ comment_ids l]> comments, []).
Proof.
  revert comments known.
  induction l as [|c l IH]; intros comments known Hk.
  - simpl. run_prog. f_equal. f_equal.
    unfold comment_ids. simpl. rewrite (right_id_L ∅ (∪)).
    by rewrite insert_id.
  - simpl. unfold mbind, prog_mbind, prog_bind, get_state, seen. simpl.
    rewrite Hk. simpl. rewrite comment_ids_cons, filter_cons.
    destruct (decide (unseen known c)) as [Hu|Hu]; unfold unseen in Hu;
      destruct (comment_id c) as [i|] eqn:Hi; [|done| |by rewrite (IH _ _ Hk)].
    + destruct Hu as [Hne Hin]. apply truthy_spec in Hne as Ht. rewrite Ht.
      rewrite bool_decide_eq_true_2 by done. simpl.
      unfold put_state. simpl.
      rewrite (IH _ (known ∪ {[ i ]})) by apply lookup_insert_eq.
      unfold mret, prog_mret, prog_ret. simpl. rewrite Hi.
      assert (first_per_id (filter (unseen (known ∪ {[ i ]})) l)
              = filter (λ d, comment_id d ≠ Some i)
                  (first_per_id (filter (unseen known) l))) as ->.
      { rewrite <-first_per_id_filter by (intros ?? <-; done).
        rewrite list_filter_filter. f_equal.
        apply list_filter_iff. intros d. rewrite unseen_add. tauto. }
      by rewrite insert_insert_eq, (assoc_L (∪)).
    + assert (truthy i && bool_decide (i ∉ known) = false) as ->.
      { destruct (truthy i) eqn:Ht; [|done]. simpl.
        apply bool_decide_eq_false_2. intros ?. apply Hu.
        by apply truthy_spec in Ht. }
      rewrite (IH _ _ Hk). f_equal. f_equal. f_equal.
      destruct (truthy i) eqn:Ht; [|done]. apply truthy_spec in Ht.
      assert (i ∈ known) by (apply dec_stable; intros ?; by apply Hu).
      apply set_eq. intros j. rewrite !elem_of_union, elem_of_singleton.
      split; [intros [?|?]|intros [?|[->|?]]]; auto.
Qed.

Lemma elem_of_first_per_id (l : list comment) c : c ∈ first_per_id l → c ∈ l.
Proof.
  induction l as [|d l IH]; [done|]. simpl. rewrite !elem_of_cons.
  intros [->|Hc]; [by left|]. right.
  apply list_elem_of_filter in Hc as [_ Hc]. by apply IH.
Qed.

(** Once every fetched id is in the stored set, nothing is unseen. *)
Lemma filter_unseen_after known (l : list comment) :
  filter (unseen (known ∪ comment_ids l)) l = [].
Proof.
  apply elem_of_nil_inv. intros c [Hu Hc]%list_elem_of_filter.
  unfold unseen in Hu. destruct (comment_id c) as [i|] eqn:Hi; [|done].
  destruct Hu as [Hne Hin]. apply Hin, elem_of_union. right.
  apply elem_of_comment_ids. by exists c.
Qed.

(** The debug loop raises exactly when one of its turns does. *)
Lemma log_new_comments_spec (new_comments : list comment) :
  log_new_comments new_comments
  = if decide (Forall logs new_comments) then Returns tt else Raises.
Proof.
  induction new_comments as [|c l IH]; [done|]. simpl.
  destruct (logs c) eqn:Hc.
  - rewrite IH. destruct (decide (Forall logs l)) as [Hl|Hl].
    + rewrite decide_True; [done|]. constructor; [by rewrite Hc|done].
    + rewrite decide_False; [done|]. by intros [_ ?]%Forall_cons.
  - rewrite decide_False; [done|]. intros [Hc' _]%Forall_cons. by rewrite Hc in Hc'.
Qed.


Lemma reported_logs (new_comments : list comment) :
  Forall logs new_comments →
  reported new_comments = Returns (new_comments, bool_decide (new_comments ≠ [])).
Proof. intros Hlogs. unfold reported. by rewrite decide_True. Qed.

Lemma reported_raises (new_comments : list comment) :
  ¬ Forall logs new_comments → reported new_comments = Raises.
Proof. intros Hlogs. unfold reported. by rewrite decide_False. Qed.


Section facts.
Variable figma_client : FigmaClient.
Implicit Types comments : gmap string (gset string).

Lemma check_file_comments_untracked comments k :
  comments !! k = None →
  check_file_comments figma_client k comments = (Returns ([], false), comments, []).
Proof. intros Hk. unfold check_file_comments. run_prog. by rewrite Hk. Qed.

Lemma check_file_comments_tracked comments k known :
  comments !! k = Some known →
  check_file_comments figma_client k comments
  = let live := client_file_comments figma_client k in
    let new_comments := first_per_id (filter (unseen known) live) in
    let comments' := <[k := known ∪ comment_ids live]> comments in
    (reported new_comments, comments',
     GetFileComments k
       :: if bool_decide (new_comments ≠ []) then [SaveComments comments'] else []).
Proof.
  intros Hk. unfold check_file_comments, _save_comments.
  unfold mbind, mret, prog_mbind, prog_mret, prog_bind, prog_ret,
    get_file_comments, get_state, put_state, emit. simpl.
  rewrite Hk. simpl. rewrite (scan_comments_spec _ _ _ _ Hk).
  destruct (first_per_id _) as [|c news]; [done|]. simpl.
  unfold seen. rewrite lookup_insert_eq. simpl.
  rewrite insert_insert_eq.
  change (if logs c then log_new_comments news else Raises)
    with (log_new_comments (c :: news)).
  rewrite log_new_comments_spec. unfold reported.
  by destruct (decide (Forall logs (c :: news))).
Qed.
End facts.









End CommentTrackerFacts.

(** ** Further properties of the comment tracker *)

Module CommentTrackerMore.
Import CommentTracker CommentTrackerFacts.

Implicit Types comments : gmap string (gset string).

Lemma NoDup_first_per_id (l : list comment) : NoDup (comment_id <$> first_per_id l).
Proof.
  induction l as [|c l IH]; [constructor|]. simpl. apply NoDup_cons. split.
  - intros (d & Hcd & [Hne _]%list_elem_of_filter)%list_elem_of_fmap. done.
  - by apply NoDup_fmap_filter.
Qed.

Section more.
Variable figma_client : FigmaClient.

Abbreviation live := (client_file_comments figma_client).

Lemma check_file_comments_result comments k :
  result (check_file_comments figma_client k) comments
  = reported (new_for figma_client comments k).
Proof.
  unfold new_for, result. destruct (comments !! k) as [known|] eqn:Hk.
  - by rewrite (check_file_comments_tracked _ _ _ _ Hk).
  - by rewrite (check_file_comments_untracked _ _ _ Hk).
Qed.

Lemma check_file_comments_state comments k :
  state_after (check_file_comments figma_client k) comments
  = match comments !! k with
    | Some known => <[k := known ∪ comment_ids (live k)]> comments
    | None => comments
    end.
Proof.
  unfold state_after. destruct (comments !! k) as [known|] eqn:Hk.
  - by rewrite (check_file_comments_tracked _ _ _ _ Hk).
  - by rewrite (check_file_comments_untracked _ _ _ Hk).
Qed.

Lemma check_file_comments_state_ne comments k k' :
  k ≠ k' →
  state_after (check_file_comments figma_client k) comments !! k' = comments !! k'.
Proof.
  intros Hne. rewrite check_file_comments_state.
  destruct (comments !! k); [by rewrite lookup_insert_ne|done].
Qed.

Lemma check_file_comments_dom comments k :
  dom (state_after (check_file_comments figma_client k) comments) = dom comments.
Proof.
  rewrite check_file_comments_state.
  destruct (comments !! k) as [known|] eqn:Hk; [|done].
  rewrite dom_insert_L. apply set_eq. intros k'.
  rewrite elem_of_union, elem_of_singleton, !elem_of_dom.
  split; [intros [->|?]; [by exists known|done]|by right].
Qed.

Lemma new_for_agree comments comments' k :
  comments' !! k = comments !! k →
  new_for figma_client comments' k = new_for figma_client comments k.
Proof. unfold new_for. by intros ->. Qed.

(** Nothing is new for a file whose stored set took in every fetched id. *)
Lemma new_for_after comments comments' k :
  comments' !! k = (λ known, known ∪ comment_ids (live k)) <$> comments !! k →
  new_for figma_client comments' k = [].
Proof.
  unfold new_for. intros ->. destruct (comments !! k) as [known|]; [|done].
  simpl. by rewrite filter_unseen_after.
Qed.

Lemma elem_of_new_for comments k c :
  c ∈ new_for figma_client comments k → c ∈ live k.
Proof.
  unfold new_for. destruct (comments !! k); [|by intros ?%not_elem_of_nil].
  by intros [_ ?]%elem_of_first_per_id%list_elem_of_filter.
Qed.

(** No check raises when every debug line of every fetched comment
    builds. *)
Lemma sweep_returns_live_logs comments :
  (∀ k, Forall logs (live k)) → sweep_returns figma_client comments.
Proof.
  intros Hlive k. apply Forall_forall. intros c Hc%elem_of_new_for.
  by apply (proj1 (Forall_forall _ _) (Hlive k)).
Qed.

Lemma comment_check_each_result_cons k rest by_file comments :
  result (check_each figma_client (k :: rest) by_file) comments
  = match reported (new_for figma_client comments k) with
    | Returns (new_comments, has_new) =>
        result (check_each figma_client rest
                  (if has_new : bool then <[k := new_comments]> by_file else by_file))
          (state_after (check_file_comments figma_client k) comments)
    | Raises => Raises
    end.
Proof.
  simpl. rewrite result_bind, check_file_comments_result.
  by destruct (reported _) as [[new_comments has_new]|].
Qed.

Lemma comment_check_each_state_cons k rest by_file comments :
  state_after (check_each figma_client (k :: rest) by_file) comments
  = match reported (new_for figma_client comments k) with
    | Returns (new_comments, has_new) =>
        state_after (check_each figma_client rest
                       (if has_new : bool then <[k := new_comments]> by_file
                        else by_file))
          (state_after (check_file_comments figma_client k) comments)
    | Raises => state_after (check_file_comments figma_client k) comments
    end.
Proof.
  simpl. rewrite state_after_bind, check_file_comments_result.
  by destruct (reported _) as [[new_comments has_new]|].
Qed.

(** The loop, whether it runs to its end or stops at an exception, keeps
    the set of tracked files. *)
Lemma check_each_dom file_keys by_file comments :
  dom (state_after (check_each figma_client file_keys by_file) comments)
  = dom comments.
Proof.
  revert by_file comments.
  induction file_keys as [|k rest IH]; intros by_file comments; [done|].
  rewrite comment_check_each_state_cons.
  destruct (reported _) as [[new_comments has_new]|].
  - by rewrite IH, check_file_comments_dom.
  - apply check_file_comments_dom.
Qed.

(** The loop over distinct keys: it returns exactly when no check raises,
    and then holds one entry per key whose check found something. *)
Lemma check_each_spec file_keys by_file comments :
  NoDup file_keys →
  (∀ k, k ∈ file_keys → by_file !! k = None) →
  match result (check_each figma_client file_keys by_file) comments with
  | Returns by_file' =>
      (∀ k, k ∈ file_keys → Forall logs (new_for figma_client comments k))
      ∧ (∀ k, by_file' !! k
              = if decide (k ∈ file_keys)
                then match new_for figma_client comments k with
                     | [] => None
                     | c :: news => Some (c :: news)
                     end
                else by_file !! k)
      ∧ (∀ k, state_after (check_each figma_client file_keys by_file) comments !! k
              = if decide (k ∈ file_keys)
                then (λ known, known ∪ comment_ids (live k)) <$> comments !! k
                else comments !! k)
  | Raises =>
      ∃ k, k ∈ file_keys ∧ ¬ Forall logs (new_for figma_client comments k)
  end.
Proof.
  intros Hnd. revert by_file comments.
  induction Hnd as [|k0 rest Hk0 Hnd IH]; intros by_file comments Hfree.
  - simpl. split; [by intros k ?%not_elem_of_nil|].
    split; by intros k.
  - rewrite comment_check_each_result_cons, comment_check_each_state_cons.
    destruct (decide (Forall logs (new_for figma_client comments k0)))
      as [Hlogs|Hlogs]; [|rewrite reported_raises by done; exists k0; split;
                           [apply list_elem_of_here|done]].
    rewrite reported_logs by done.
    set (comments1 := state_after (check_file_comments figma_client k0) comments).
    set (by_file1 := if bool_decide _ then _ else _).
    assert (∀ k, k ≠ k0 →
                 new_for figma_client comments1 k = new_for figma_client comments k)
      as Hagree.
    { intros k Hne. apply new_for_agree.
      by apply check_file_comments_state_ne. }
    assert (∀ k, k ∈ rest → k ≠ k0) as Hrest by (intros k Hk ->; done).
    assert (∀ k, k ≠ k0 → by_file1 !! k = by_file !! k) as Hby.
    { intros k Hne. unfold by_file1. case_bool_decide; [|done].
      by rewrite lookup_insert_ne. }
    specialize (IH by_file1 comments1).
    destruct (result (check_each figma_client rest by_file1) comments1)
      as [by_file'|].
    + destruct IH as (Hall & Hlook & Hstate).
      { intros k Hk. rewrite Hby by by apply Hrest. apply Hfree.
        by apply list_elem_of_further. }
      split; [|split].
      * intros k [->|Hk]%elem_of_cons; [done|].
        rewrite <-Hagree by by apply Hrest. by apply Hall.
      * intros k. rewrite Hlook. destruct (decide (k = k0)) as [->|Hne].
        -- rewrite decide_False by done.
           rewrite decide_True by apply list_elem_of_here.
           unfold by_file1.
           destruct (new_for figma_client comments k0) as [|c news].
           ++ rewrite bool_decide_eq_false_2 by (by intros ?).
              apply Hfree, list_elem_of_here.
           ++ rewrite bool_decide_eq_true_2 by done. apply lookup_insert_eq.
        -- rewrite Hagree, Hby by done.
           destruct (decide (k ∈ rest)) as [Hin|Hin].
           ++ rewrite decide_True; [done|by apply list_elem_of_further].
           ++ rewrite decide_False; [done|]. rewrite elem_of_cons. by intros [?|?].
      * intros k. rewrite Hstate. destruct (decide (k = k0)) as [->|Hne].
        -- rewrite decide_False by done.
           rewrite decide_True by apply list_elem_of_here.
           unfold comments1. rewrite check_file_comments_state.
           destruct (comments !! k0) as [known|] eqn:Hk.
           ++ by rewrite lookup_insert_eq.
           ++ by rewrite Hk.
        -- unfold comments1. rewrite check_file_comments_state_ne by done.
           destruct (decide (k ∈ rest)) as [Hin|Hin].
           ++ rewrite decide_True; [done|by apply list_elem_of_further].
           ++ rewrite decide_False; [done|]. rewrite elem_of_cons. by intros [?|?].
    + destruct IH as (k & Hk & Hraises).
      { intros k Hk. rewrite Hby by by apply Hrest. apply Hfree.
        by apply list_elem_of_further. }
      exists k. split; [by apply list_elem_of_further|].
      by rewrite <-Hagree by by apply Hrest.
Qed.

Lemma check_all_comments_unfold comments :
  check_all_comments figma_client comments
  = check_each figma_client (map_to_list comments).*1 ∅ comments.
Proof.
  unfold check_all_comments, mbind, prog_mbind, prog_bind, get_state.
  by destruct (check_each _ _ _ _) as [[??]?].
Qed.

Lemma elem_of_tracked_files comments k :
  k ∈ (map_to_list comments).*1 ↔ is_Some (comments !! k).
Proof.
  rewrite list_elem_of_fmap. split.
  - intros ([k' known] & -> & Hin). exists known. by apply elem_of_map_to_list.
  - intros [known Hk]. exists (k, known). split; [done|].
    by apply elem_of_map_to_list.
Qed.

Lemma check_all_comments_dom comments :
  dom (state_after (check_all_comments figma_client) comments) = dom comments.
Proof.
  unfold state_after. rewrite check_all_comments_unfold. apply check_each_dom.
Qed.

(** One sweep: it returns exactly when no check raises; the dict it
    returns and the state it leaves then. *)
Lemma check_all_comments_spec comments :
  match result (check_all_comments figma_client) comments with
  | Returns by_file =>
      sweep_returns figma_client comments
      ∧ (∀ k, by_file !! k
              = match new_for figma_client comments k with
                | [] => None
                | c :: news => Some (c :: news)
                end)
      ∧ (∀ k, state_after (check_all_comments figma_client) comments !! k
              = (λ known, known ∪ comment_ids (live k)) <$> comments !! k)
  | Raises => ∃ k, ¬ Forall logs (new_for figma_client comments k)
  end.
Proof.
  unfold result, state_after. rewrite check_all_comments_unfold.
  pose proof (check_each_spec (map_to_list comments).*1 ∅ comments
                (NoDup_fst_map_to_list _) (λ k _, lookup_empty k)) as Hspec.
  unfold result, state_after in Hspec.
  destruct (check_each _ _ _ _).1.1 as [by_file|].
  - destruct Hspec as (Hall & Hlook & Hstate).
    assert (∀ k, k ∉ (map_to_list comments).*1 → comments !! k = None) as Hout.
    { intros k Hk. apply eq_None_not_Some. by rewrite <-elem_of_tracked_files. }
    split; [|split].
    + intros k. destruct (decide (k ∈ (map_to_list comments).*1)); [by apply Hall|].
      unfold new_for. by rewrite Hout.
    + intros k. rewrite Hlook. case_decide as Hin; [done|].
      unfold new_for. by rewrite Hout, lookup_empty.
    + intros k. rewrite Hstate. case_decide as Hin; [done|]. by rewrite Hout.
  - destruct Hspec as (k & _ & Hraises). by exists k.
Qed.

Lemma check_all_comments_returns comments :
  sweep_returns figma_client comments →
  ∃ by_file,
    result (check_all_comments figma_client) comments = Returns by_file
    ∧ (∀ k, by_file !! k
            = match new_for figma_client comments k with
              | [] => None
              | c :: news => Some (c :: news)
              end)
    ∧ (∀ k, state_after (check_all_comments figma_client) comments !! k
            = (λ known, known ∪ comment_ids (live k)) <$> comments !! k).
Proof.
  intros Hsweep. pose proof (check_all_comments_spec comments) as Hspec.
  destruct (result _ comments) as [by_file|].
  - destruct Hspec as (_ & Hlook & Hstate). by exists by_file.
  - destruct Hspec as (k & Hraises). by destruct Hraises.
Qed.

Lemma check_all_comments_raises comments k :
  ¬ Forall logs (new_for figma_client comments k) →
  result (check_all_comments figma_client) comments = Raises.
Proof.
  intros Hraises. pose proof (check_all_comments_spec comments) as Hspec.
  destruct (result _ comments) as [by_file|]; [|done].
  destruct Hspec as (Hsweep & _). by destruct Hraises.
Qed.

(** Right after a sweep that returned, a sweep with the same answers
    returns the empty dict. *)
Lemma check_all_comments_quiet comments :
  sweep_returns figma_client comments →
  result (check_all_comments figma_client)
    (state_after (check_all_comments figma_client) comments) = Returns ∅.
Proof.
  intros (by_file & _ & _ & Hstate)%check_all_comments_returns.
  set (comments' := state_after (check_all_comments figma_client) comments) in *.
  assert (∀ k, new_for figma_client comments' k = []) as Hquiet.
  { intros k. by apply (new_for_after comments). }
  destruct (check_all_comments_returns comments') as (by_file' & -> & Hlook & _).
  { intros k. by rewrite Hquiet. }
  f_equal. apply map_eq. intros k. by rewrite Hlook, Hquiet, lookup_empty.
Qed.

Lemma add_file_to_track_run comments k :
  add_file_to_track figma_client k comments
  = let comments' := <[k := seen comments k ∪ comment_ids (live k)]> comments in
    (tt, comments', [GetFileComments k; SaveComments comments']).
Proof.
  unfold add_file_to_track, _save_comments, seen. run_prog.
  destruct (comments !! k) as [known|]; simpl; [done|].
  by rewrite (left_id_L ∅ (∪)).
Qed.

End more.

Lemma add_file_to_track_untracked
    (figma_client : FigmaClient) (comments : gmap string (gset string))
    (k : string) :
  comments !! k = None →
  state_after (add_file_to_track figma_client k) comments !! k
  = Some (comment_ids (client_file_comments figma_client k)).
Proof.
  intros Hk. unfold state_after. rewrite add_file_to_track_run.
  cbv zeta. simpl. rewrite lookup_insert_eq. unfold seen. rewrite Hk. simpl.
  by rewrite (left_id_L ∅ (∪)).
Qed.



(** X8. [remove_file_from_track] of the comment tracker deletes the
    entry of a tracked file, keeps every other entry and saves; the file
    then checks as untracked, without a fetch, and tracking it again keeps
    none of the ids stored before: the new set is the ids fetched at that
    moment.  On an untracked file the method changes and saves nothing. *)
Theorem untrack_comments_then_retrack
    (figma_client : FigmaClient) (comments : gmap string (gset string))
    (k : string) :
  (comments !! k = None → remove_file_from_track k comments = (tt, comments, []))
  ∧ (is_Some (comments !! k) →
     let untracked := state_after (remove_file_from_track k) comments in
     effects (remove_file_from_track k) comments = [SaveComments untracked]
     ∧ untracked !! k = None
     ∧ (∀ k', k' ≠ k → untracked !! k' = comments !! k')
     ∧ check_file_comments figma_client k untracked
       = (Returns ([], false), untracked, [])
     ∧ state_after (add_file_to_track figma_client k) untracked !! k
       = Some (comment_ids (client_file_comments figma_client k))).
Proof.
  split.
  - intros Hk. unfold remove_file_from_track. run_prog. by rewrite Hk.
  - intros [known Hk] untracked.
    assert (remove_file_from_track k comments
            = (tt, delete k comments, [SaveComments (delete k comments)])) as Hrun.
    { unfold remove_file_from_track, _save_comments. run_prog. by rewrite Hk. }
    assert (untracked = delete k comments) as ->.
    { unfold untracked, state_after. by rewrite Hrun. }
    unfold effects. rewrite Hrun. simpl.
    split; [done|]. split; [apply lookup_delete_eq|].
    split; [intros k' Hne; by apply lookup_delete_ne|].
    split; [apply check_file_comments_untracked, lookup_delete_eq|].
    apply add_file_to_track_untracked, lookup_delete_eq.
Qed.

Lemma untrack_comments_then_retrack_witness :
  remove_file_from_track "xyz789" sample_comments = (tt, sample_comments, [])
  ∧ state_after (remove_file_from_track "abc123") sample_comments !! "abc123" = None
  ∧ state_after (add_file_to_track (client_answering "v1" [c2_comment]) "abc123")
      (state_after (remove_file_from_track "abc123") sample_comments) !! "abc123"
    = Some (comment_ids [c2_comment]).
Proof.
  split.
  - apply (proj1 (untrack_comments_then_retrack (client_answering "v1" [c2_comment])
                    sample_comments "xyz789")).
    reflexivity.
  - destruct (proj2 (untrack_comments_then_retrack
                       (client_answering "v1" [c2_comment]) sample_comments "abc123"))
      as (_ & Hgone & _ & _ & Hretrack).
    + exists {[ "c1" ]}. reflexivity.
    + split; [exact Hgone|exact Hretrack].
Defined.

(** X9. [check_file_comments] neither adds nor drops a tracked file,
    leaves the stored set of every other file alone, and only ever grows
    the stored set of the file it checks. *)
Theorem check_file_comments_frame
    (figma_client : FigmaClient) (comments : gmap string (gset string))
    (k : string) :
  let comments' := state_after (check_file_comments figma_client k) comments in
  dom comments' = dom comments
  ∧ (∀ k', k' ≠ k → comments' !! k' = comments !! k')
  ∧ seen comments k ⊆ seen comments' k.
Proof.
  intros comments'. unfold comments'. rewrite check_file_comments_state.
  destruct (comments !! k) as [known|] eqn:Hk; [|done].
  split; [|split].
  - rewrite dom_insert_L. apply set_eq. intros k'.
    rewrite elem_of_union, elem_of_singleton, !elem_of_dom.
    split; [intros [->|?]; [by exists known|done]|by right].
  - intros k' Hne. by rewrite lookup_insert_ne.
  - unfold seen. rewrite lookup_insert_eq, Hk. simpl. apply union_subseteq_l.
Qed.

Lemma unseen_weaken known known' c :
  unseen (known ∪ known') c → unseen known c.
Proof.
  unfold unseen. destruct (comment_id c) as [i|]; [|done].
  intros [Hne Hin]. split; [done|]. intros ?. apply Hin. by apply elem_of_union_l.
Qed.

Lemma check_repeatedly_spec (clients : list FigmaClient)
    (comments : gmap string (gset string)) (k : string) (known : gset string) :
  comments !! k = Some known →
  NoDup (comment_id <$> result (check_repeatedly clients k) comments)
  ∧ ∀ c, c ∈ result (check_repeatedly clients k) comments → unseen known c.
Proof.
  revert comments known.
  induction clients as [|figma_client rest IH]; intros comments known Hk.
  - split; [constructor|]. intros c Hc. by apply not_elem_of_nil in Hc.
  - simpl. rewrite result_bind, check_file_comments_result.
    rewrite result_bind. change (result (mret ?x) _) with x.
    rewrite check_file_comments_state. unfold new_for. rewrite Hk.
    set (fetched := client_file_comments figma_client k).
    destruct (IH (<[k := known ∪ comment_ids fetched]> comments)
                (known ∪ comment_ids fetched)) as [IHnd IHunseen];
      [apply lookup_insert_eq|].
    assert (∀ c, c ∈ first_per_id (filter (unseen known) fetched) →
                 unseen known c ∧ c ∈ fetched) as Hfirst.
    { intros c Hc. by apply elem_of_first_per_id, list_elem_of_filter in Hc. }
    unfold reported.
    destruct (decide (Forall logs _)) as [_|_];
      [|split; [done|]; intros c Hc%IHunseen; by apply unseen_weaken in Hc].
    split.
    + rewrite fmap_app. apply NoDup_app. split; [apply NoDup_first_per_id|].
      split; [|done].
      intros o (c & -> & Hc)%list_elem_of_fmap (d & Hcd & Hd)%list_elem_of_fmap.
      apply Hfirst in Hc as [Hc Hin]. apply IHunseen in Hd.
      unfold unseen in Hc, Hd. rewrite <-Hcd in Hd.
      destruct (comment_id c) as [i|] eqn:Hi; [|done].
      destruct Hc as [Hne _]. destruct Hd as [_ Hd]. apply Hd.
      apply elem_of_union_r, elem_of_comment_ids. by exists c.
    + intros c [Hc|Hc]%elem_of_app; [by apply Hfirst|].
      apply IHunseen in Hc. by apply unseen_weaken in Hc.
Qed.

(** X10. Over any number of successive checks of a tracked file, whatever
    the client answers each time and whether a check returns or raises, no
    comment id is reported twice, and no id stored before the first check
    is reported at all; every reported comment carries a non-empty id. *)
Theorem check_file_comments_never_repeats_id
    (clients : list FigmaClient) (comments : gmap string (gset string))
    (k : string) (known : gset string) :
  comments !! k = Some known →
  let reported := result (check_repeatedly clients k) comments in
  NoDup (comment_id <$> reported)
  ∧ ∀ c : comment,
      c ∈ reported →
      ∃ i : string, comment_id c = Some i ∧ i ≠ EmptyString ∧ i ∉ known.
Proof.
  intros Hk reported.
  destruct (check_repeatedly_spec clients comments k known Hk) as [Hnd Hunseen].
  split; [done|]. intros c Hc. apply Hunseen in Hc. unfold unseen in Hc.
  destruct (comment_id c) as [i|]; [|done]. by exists i.
Qed.

Lemma check_file_comments_never_repeats_id_witness :
  NoDup (comment_id <$>
           result (check_repeatedly [client_answering "v1" odd_live;
                                     client_answering "v1" plain_live;
                                     client_answering "v1" odd_live] "abc123")
             sample_comments).
Proof.
  apply (check_file_comments_never_repeats_id
           [client_answering "v1" odd_live; client_answering "v1" plain_live;
            client_answering "v1" odd_live]
           sample_comments "abc123" {[ "c1" ]}).
  reflexivity.
Defined.





(** X14. One [check_all_comments] pass, whether it returns or raises,
    neither adds nor drops a tracked file.  When no check of the pass
    raises, it adds to each stored set the non-empty ids fetched for that
    file, and a second pass made while the client answers the same
    comments returns an empty dict. *)
Theorem check_all_comments_second_pass
    (figma_client : FigmaClient) (comments : gmap string (gset string)) :
  let comments' := state_after (check_all_comments figma_client) comments in
  dom comments' = dom comments
  ∧ (sweep_returns figma_client comments →
     (∀ (k : string) (known : gset string),
        comments !! k = Some known →
        comments' !! k
        = Some (known ∪ comment_ids (client_file_comments figma_client k)))
     ∧ result (check_all_comments figma_client) comments' = Returns ∅).
Proof.
  intros comments'. split; [apply check_all_comments_dom|].
  intros Hsweep. split; [|by apply check_all_comments_quiet].
  destruct (check_all_comments_returns figma_client comments Hsweep)
    as (by_file & _ & _ & Hstate).
  intros k known Hk. unfold comments'. by rewrite Hstate, Hk.
Qed.

Lemma check_all_comments_second_pass_witness :
  state_after (check_all_comments (client_answering "v1" plain_live))
    sample_comments !! "abc123"
  = Some ({[ "c1" ]} ∪ comment_ids plain_live)
  ∧ result (check_all_comments (client_answering "v1" plain_live))
      (state_after (check_all_comments (client_answering "v1" plain_live))
         sample_comments)
    = Returns ∅.
Proof.
  destruct (proj2 (check_all_comments_second_pass
                     (client_answering "v1" plain_live) sample_comments))
    as [Hstate Hquiet].
  { apply sweep_returns_live_logs. intros k. by_evaluation. }
  split; [|exact Hquiet]. apply (Hstate "abc123" {[ "c1" ]}). reflexivity.
Defined.

End CommentTrackerMore.

(** ** Properties of the subscription manager *)

Module SubscriptionManagerFacts.
Import SubscriptionManager.

Implicit Types subs : gmap Z (gset string).

Lemma files_of_insert subs chat_id file_keys :
  files_of (<[chat_id := file_keys]> subs) chat_id = file_keys.
Proof. unfold files_of. by rewrite lookup_insert_eq. Qed.

Lemma files_of_None subs chat_id : subs !! chat_id = None → files_of subs chat_id = ∅.
Proof. unfold files_of. by intros ->. Qed.

Lemma add_file_subscription_run st chat_id file_key :
  add_file_subscription chat_id file_key st
  = let st' := with_user_subscriptions
                 (added (user_subscriptions st) chat_id file_key) st in
    (tt, st', [SaveSubscriptions (user_subscriptions st') (comment_subscriptions st')]).
Proof.
  unfold add_file_subscription, _save_subscriptions, added. run_prog.
  destruct (user_subscriptions st !! chat_id) as [file_keys|] eqn:Hc; simpl; [done|].
  by rewrite files_of_insert, insert_insert_eq, (files_of_None _ _ Hc).
Qed.

Lemma add_comment_subscription_run st chat_id file_key :
  add_comment_subscription chat_id file_key st
  = let st' := with_comment_subscriptions
                 (added (comment_subscriptions st) chat_id file_key) st in
    (tt, st', [SaveSubscriptions (user_subscriptions st') (comment_subscriptions st')]).
Proof.
  unfold add_comment_subscription, _save_subscriptions, added. run_prog.
  destruct (comment_subscriptions st !! chat_id) as [file_keys|] eqn:Hc; simpl; [done|].
  by rewrite files_of_insert, insert_insert_eq, (files_of_None _ _ Hc).
Qed.

Lemma remove_file_subscription_state st chat_id file_key :
  state_after (remove_file_subscription chat_id file_key) st
  = with_user_subscriptions (removed (user_subscriptions st) chat_id file_key) st.
Proof.
  unfold remove_file_subscription, _save_subscriptions, removed. run_prog.
  destruct st as [subs csubs]. simpl.
  destruct (subs !! chat_id) as [file_keys|] eqn:Hc.
  - rewrite (bool_decide_eq_false_2 (_ = None)) by done. simpl.
    assert (files_of subs chat_id = file_keys) as -> by (unfold files_of; by rewrite Hc).
    destruct (decide (file_key ∈ file_keys)) as [Hin|Hin].
    + rewrite bool_decide_eq_false_2 by (intros ?; done). simpl.
      rewrite files_of_insert.
      destruct (decide (file_keys ∖ {[file_key]} = ∅)) as [He|He].
      * rewrite bool_decide_eq_true_2 by done. simpl.
        unfold with_user_subscriptions. simpl. by rewrite delete_insert_eq.
      * by rewrite bool_decide_eq_false_2 by done.
    + by rewrite bool_decide_eq_true_2 by done.
  - rewrite (bool_decide_eq_true_2 (_ = None)) by done. simpl.
    rewrite (files_of_None _ _ Hc). by rewrite decide_False by apply not_elem_of_empty.
Qed.

Lemma remove_comment_subscription_state st chat_id file_key :
  state_after (remove_comment_subscription chat_id file_key) st
  = with_comment_subscriptions (removed (comment_subscriptions st) chat_id file_key) st.
Proof.
  unfold remove_comment_subscription, _save_subscriptions, removed. run_prog.
  destruct st as [subs csubs]. simpl.
  destruct (csubs !! chat_id) as [file_keys|] eqn:Hc.
  - rewrite (bool_decide_eq_false_2 (_ = None)) by done. simpl.
    assert (files_of csubs chat_id = file_keys) as -> by (unfold files_of; by rewrite Hc).
    destruct (decide (file_key ∈ file_keys)) as [Hin|Hin].
    + rewrite bool_decide_eq_false_2 by (intros ?; done). simpl.
      rewrite files_of_insert.
      destruct (decide (file_keys ∖ {[file_key]} = ∅)) as [He|He].
      * rewrite bool_decide_eq_true_2 by done. simpl.
        unfold with_comment_subscriptions. simpl. by rewrite delete_insert_eq.
      * by rewrite bool_decide_eq_false_2 by done.
    + by rewrite bool_decide_eq_true_2 by done.
  - rewrite (bool_decide_eq_true_2 (_ = None)) by done. simpl.
    rewrite (files_of_None _ _ Hc). by rewrite decide_False by apply not_elem_of_empty.
Qed.

Lemma subscribers_in_NoDup subs file_key : NoDup (subscribers_in subs file_key).
Proof.
  unfold subscribers_in.
  pose proof (NoDup_fst_map_to_list subs) as Hnd.
  induction (map_to_list subs) as [|[chat file_keys] items IH]; [constructor|].
  simpl in Hnd. apply NoDup_cons in Hnd as [Hchat Hnd].
  rewrite filter_cons. destruct (decide _); [|by apply IH].
  simpl. apply NoDup_cons. split; [|by apply IH].
  intros ([chat' file_keys'] & Heq & [_ Hitem]%list_elem_of_filter)%list_elem_of_fmap.
  simpl in Heq. subst chat'. apply Hchat.
  apply list_elem_of_fmap. by exists (chat, file_keys').
Qed.

Lemma elem_of_subscribers_in subs file_key chat_id :
  chat_id ∈ subscribers_in subs file_key
  ↔ ∃ file_keys, subs !! chat_id = Some file_keys ∧ file_key ∈ file_keys.
Proof.
  unfold subscribers_in. rewrite list_elem_of_fmap. split.
  - intros ([chat file_keys] & -> & [Hin Hitem]%list_elem_of_filter).
    exists file_keys. by apply elem_of_map_to_list in Hitem.
  - intros (file_keys & Hc & Hin). exists (chat_id, file_keys).
    split; [done|]. apply list_elem_of_filter. split; [done|].
    by apply elem_of_map_to_list.
Qed.

Lemma added_added subs chat_id file_key :
  added (added subs chat_id file_key) chat_id file_key = added subs chat_id file_key.
Proof.
  unfold added. rewrite files_of_insert, insert_insert_eq.
  by rewrite <-(assoc_L (∪)), (idemp_L (∪)).
Qed.

(** C7. Calling [add_file_subscription] twice with the same subscriber
    and resource leaves the registry in the state one call leaves it in;
    in that state the subscriber is subscribed to the resource and occurs
    exactly once among its subscribers.  For every registry state and
    resource, [get_file_subscribers] lists no subscriber twice. *)
Theorem add_file_subscription_idempotent (st : state) (chat_id : Z) (file_key : string) :
  let once := state_after (add_file_subscription chat_id file_key) st in
  let twice :=
    state_after (add_file_subscription chat_id file_key;;
                 add_file_subscription chat_id file_key) st in
  twice = once
  ∧ is_user_subscribed_to_file once chat_id file_key = true
  ∧ length (filter (λ subscriber, subscriber = chat_id)
              (get_file_subscribers once file_key)) = 1
  ∧ ∀ (any : state) (resource : string), NoDup (get_file_subscribers any resource).
Proof.
  intros once twice.
  assert (once = with_user_subscriptions
                   (added (user_subscriptions st) chat_id file_key) st) as Honce.
  { unfold once, state_after. by rewrite add_file_subscription_run. }
  assert (chat_id ∈ get_file_subscribers once file_key) as Hin.
  { apply elem_of_subscribers_in. rewrite Honce. simpl. unfold added.
    eexists. rewrite lookup_insert_eq. split; [done|].
    by apply elem_of_union_r, elem_of_singleton. }
  split; [|split; [|split]].
  - unfold twice. rewrite state_after_bind. fold once. rewrite Honce.
    unfold state_after. rewrite add_file_subscription_run. simpl.
    unfold with_user_subscriptions. simpl. by rewrite added_added.
  - unfold is_user_subscribed_to_file. rewrite Honce. simpl. unfold added.
    rewrite files_of_insert, lookup_insert_eq.
    rewrite !bool_decide_eq_true_2; [done| |by eexists].
    by apply elem_of_union_r, elem_of_singleton.
  - pose proof (subscribers_in_NoDup (user_subscriptions once) file_key) as Hnd.
    unfold get_file_subscribers in *.
    induction Hnd as [|x l Hx Hnd IH]; [by apply not_elem_of_nil in Hin|].
    rewrite filter_cons. apply elem_of_cons in Hin as [<-|Hin].
    + rewrite decide_True by done. simpl. f_equal.
      apply length_zero_iff_nil, elem_of_nil_inv.
      intros y [-> Hy]%list_elem_of_filter. done.
    + rewrite decide_False by (intros ->; done). by apply IH.
  - intros any resource. apply subscribers_in_NoDup.
Qed.

Lemma no_empty_entry_added subs chat_id file_key :
  no_empty_entry subs → no_empty_entry (added subs chat_id file_key).
Proof.
  intros Hinv chat file_keys. unfold added. rewrite lookup_insert.
  case_decide; [|by apply Hinv]. intros [= <-] He.
  apply (not_elem_of_empty (C:=gset string) file_key). rewrite <-He.
  by apply elem_of_union_r, elem_of_singleton.
Qed.

Lemma no_empty_entry_removed subs chat_id file_key :
  no_empty_entry subs → no_empty_entry (removed subs chat_id file_key).
Proof.
  intros Hinv chat file_keys. unfold removed.
  destruct (decide (file_key ∈ _)); [|by apply Hinv].
  destruct (decide (_ = ∅)) as [He|He].
  - rewrite lookup_delete. case_decide; [done|by apply Hinv].
  - rewrite lookup_insert. case_decide; [|by apply Hinv]. by intros [= <-].
Qed.

Lemma perform_keeps_no_empty_entry c st :
  keeps_no_empty_entry st → keeps_no_empty_entry (state_after (perform c) st).
Proof.
  intros [Hu Hc]. destruct c as [chat f|chat f|chat f|chat f]; simpl.
  - unfold state_after. rewrite add_file_subscription_run. simpl.
    split; [by apply no_empty_entry_added|done].
  - rewrite state_after_bind. change (state_after (mret tt) ?s) with s.
    rewrite remove_file_subscription_state.
    split; [by apply no_empty_entry_removed|done].
  - unfold state_after. rewrite add_comment_subscription_run. simpl.
    split; [done|by apply no_empty_entry_added].
  - rewrite state_after_bind. change (state_after (mret tt) ?s) with s.
    rewrite remove_comment_subscription_state.
    split; [done|by apply no_empty_entry_removed].
Qed.

Lemma perform_all_keeps_no_empty_entry calls st :
  keeps_no_empty_entry st → keeps_no_empty_entry (state_after (perform_all calls) st).
Proof.
  revert st. induction calls as [|c calls IH]; intros st Hst; [done|].
  simpl. rewrite state_after_bind. by apply IH, perform_keeps_no_empty_entry.
Qed.

(** C10. After any sequence of [add_file_subscription],
    [remove_file_subscription], [add_comment_subscription] and
    [remove_comment_subscription] calls on a registry that starts empty,
    every subscriber key of [user_subscriptions] and of
    [comment_subscriptions] maps to a non-empty set; a removal of the last
    file key of a subscriber deletes the subscriber's entry. *)
Theorem registry_has_no_empty_entry (calls : list call) :
  let st := state_after (perform_all calls) initial in
  no_empty_entry (user_subscriptions st)
  ∧ no_empty_entry (comment_subscriptions st)
  ∧ ∀ (any : state) (chat_id : Z) (file_key : string),
      (user_subscriptions any !! chat_id = Some {[ file_key ]} →
       user_subscriptions
         (state_after (remove_file_subscription chat_id file_key) any) !! chat_id
       = None)
      ∧ (comment_subscriptions any !! chat_id = Some {[ file_key ]} →
         comment_subscriptions
           (state_after (remove_comment_subscription chat_id file_key) any) !! chat_id
         = None).
Proof.
  intros st.
  assert (keeps_no_empty_entry st) as [Hu Hc].
  { apply perform_all_keeps_no_empty_entry. split; intros chat files; done. }
  split; [done|]. split; [done|].
  intros any chat_id file_key. split; intros Hlast.
  - rewrite remove_file_subscription_state. simpl. unfold removed, files_of.
    rewrite Hlast. simpl.
    rewrite decide_True by (by apply elem_of_singleton).
    rewrite decide_True by apply difference_diag_L.
    apply lookup_delete_eq.
  - rewrite remove_comment_subscription_state. simpl. unfold removed, files_of.
    rewrite Hlast. simpl.
    rewrite decide_True by (by apply elem_of_singleton).
    rewrite decide_True by apply difference_diag_L.
    apply lookup_delete_eq.
Qed.

Lemma registry_has_no_empty_entry_witness :
  no_empty_entry
    (user_subscriptions
       (state_after (perform_all [AddFile 7 "abc123"; AddFile 7 "xyz789";
                                  RemoveFile 7 "abc123"]) initial))
  ∧ user_subscriptions
      (state_after (remove_file_subscription 7 "abc123") sample_subscriptions) !! 7%Z
    = None.
Proof.
  destruct (registry_has_no_empty_entry
              [AddFile 7 "abc123"; AddFile 7 "xyz789"; RemoveFile 7 "abc123"])
    as (Hu & _ & Hlast).
  split; [exact Hu|].
  destruct (Hlast sample_subscriptions 7%Z "abc123") as [Hfile _].
  apply Hfile. reflexivity.
Defined.

End SubscriptionManagerFacts.

(** ** Further properties of the subscription manager *)

Module SubscriptionManagerMore.
Import SubscriptionManager SubscriptionManagerFacts.

Implicit Types subs : gmap Z (gset string).

Lemma elem_of_files_of subs chat_id file_key :
  file_key ∈ files_of subs chat_id
  ↔ ∃ file_keys, subs !! chat_id = Some file_keys ∧ file_key ∈ file_keys.
Proof.
  unfold files_of. destruct (subs !! chat_id) as [file_keys|]; simpl.
  - split; [by exists file_keys|by intros (? & [= <-] & ?)].
  - split; [by intros ?%not_elem_of_empty|by intros (? & ? & _)].
Qed.

Lemma files_of_added subs chat_id file_key chat :
  files_of (added subs chat_id file_key) chat
  = if decide (chat_id = chat) then files_of subs chat_id ∪ {[ file_key ]}
    else files_of subs chat.
Proof.
  unfold added. case_decide as Hc.
  - subst chat. apply files_of_insert.
  - unfold files_of. by rewrite lookup_insert_ne.
Qed.

Lemma files_of_removed subs chat_id file_key chat :
  files_of (removed subs chat_id file_key) chat
  = if decide (chat_id = chat) then files_of subs chat_id ∖ {[ file_key ]}
    else files_of subs chat.
Proof.
  unfold removed.
  destruct (decide (file_key ∈ files_of subs chat_id)) as [Hin|Hin].
  - destruct (decide (files_of subs chat_id ∖ {[file_key]} = ∅)) as [He|He].
    + case_decide as Hc.
      * subst chat. rewrite He. unfold files_of at 1. by rewrite lookup_delete_eq.
      * unfold files_of. by rewrite lookup_delete_ne.
    + case_decide as Hc.
      * subst chat. apply files_of_insert.
      * unfold files_of. by rewrite lookup_insert_ne.
  - case_decide as Hc; [|done]. subst chat.
    apply set_eq. intros f. rewrite elem_of_difference, elem_of_singleton.
    split; [|by intros [? _]]. intros Hf. split; [done|]. by intros ->.
Qed.

Lemma subscribed_to_file_iff st chat_id file_key :
  is_user_subscribed_to_file st chat_id file_key = true
  ↔ file_key ∈ files_of (user_subscriptions st) chat_id.
Proof.
  unfold is_user_subscribed_to_file.
  rewrite andb_true_iff, !bool_decide_eq_true. split; [by intros [_ ?]|].
  intros Hin. split; [|done].
  apply elem_of_files_of in Hin as (file_keys & -> & _). by eexists.
Qed.

Lemma subscribed_to_comments_iff st chat_id file_key :
  is_user_subscribed_to_comments st chat_id file_key = true
  ↔ file_key ∈ files_of (comment_subscriptions st) chat_id.
Proof.
  unfold is_user_subscribed_to_comments.
  rewrite andb_true_iff, !bool_decide_eq_true. split; [by intros [_ ?]|].
  intros Hin. split; [|done].
  apply elem_of_files_of in Hin as (file_keys & -> & _). by eexists.
Qed.

Lemma elem_of_subscribers_in_files_of subs file_key chat_id :
  chat_id ∈ subscribers_in subs file_key ↔ file_key ∈ files_of subs chat_id.
Proof. by rewrite elem_of_subscribers_in, elem_of_files_of. Qed.

Lemma file_subscription_listed st chat_id file_key :
  chat_id ∈ get_file_subscribers st file_key
  ↔ is_user_subscribed_to_file st chat_id file_key = true.
Proof.
  unfold get_file_subscribers.
  by rewrite elem_of_subscribers_in_files_of, subscribed_to_file_iff.
Qed.

Lemma comment_subscription_listed st chat_id file_key :
  chat_id ∈ get_comment_subscribers st file_key
  ↔ is_user_subscribed_to_comments st chat_id file_key = true.
Proof.
  unfold get_comment_subscribers.
  by rewrite elem_of_subscribers_in_files_of, subscribed_to_comments_iff.
Qed.

Lemma any_subscriber_iff subs file_key :
  Exists (λ item : Z * gset string, file_key ∈ item.2) (map_to_list subs)
  ↔ ∃ chat_id, file_key ∈ files_of subs chat_id.
Proof.
  rewrite Exists_exists. split.
  - intros ([chat file_keys] & Hitem & Hin). exists chat.
    apply elem_of_files_of. exists file_keys.
    split; [by apply elem_of_map_to_list|done].
  - intros (chat & (file_keys & Hc & Hin)%elem_of_files_of).
    exists (chat, file_keys). split; [by apply elem_of_map_to_list|done].
Qed.

Lemma remove_file_subscription_run st chat_id file_key :
  remove_file_subscription chat_id file_key st
  = if is_user_subscribed_to_file st chat_id file_key
    then let st' := with_user_subscriptions
                      (removed (user_subscriptions st) chat_id file_key) st in
         (true, st',
          [SaveSubscriptions (user_subscriptions st') (comment_subscriptions st')])
    else (false, st, []).
Proof.
  unfold remove_file_subscription, _save_subscriptions, removed, is_user_subscribed_to_file.
  run_prog. destruct st as [usubs csubs]. simpl.
  destruct (usubs !! chat_id) as [file_keys|] eqn:Hc.
  - rewrite (bool_decide_eq_false_2 (_ = None)) by done.
    rewrite (bool_decide_eq_true_2 (is_Some _)) by (by eexists). simpl.
    assert (files_of usubs chat_id = file_keys) as ->
      by (unfold files_of; by rewrite Hc).
    destruct (decide (file_key ∈ file_keys)) as [Hin|Hin].
    + rewrite bool_decide_eq_false_2 by (intros ?; done).
      rewrite (bool_decide_eq_true_2 (_ ∈ _)) by done. simpl.
      rewrite files_of_insert.
      destruct (decide (file_keys ∖ {[file_key]} = ∅)) as [He|He].
      * rewrite bool_decide_eq_true_2 by done. simpl.
        unfold with_user_subscriptions. simpl. by rewrite delete_insert_eq.
      * by rewrite bool_decide_eq_false_2 by done.
    + rewrite bool_decide_eq_true_2 by done.
      by rewrite (bool_decide_eq_false_2 (_ ∈ _)) by done.
  - rewrite (bool_decide_eq_true_2 (_ = None)) by done.
    by rewrite (bool_decide_eq_false_2 (is_Some _)) by (by intros [? ?]).
Qed.

Lemma remove_comment_subscription_run st chat_id file_key :
  remove_comment_subscription chat_id file_key st
  = if is_user_subscribed_to_comments st chat_id file_key
    then let st' := with_comment_subscriptions
                      (removed (comment_subscriptions st) chat_id file_key) st in
         (true, st',
          [SaveSubscriptions (user_subscriptions st') (comment_subscriptions st')])
    else (false, st, []).
Proof.
  unfold remove_comment_subscription, _save_subscriptions, removed, is_user_subscribed_to_comments.
  run_prog. destruct st as [usubs csubs]. simpl.
  destruct (csubs !! chat_id) as [file_keys|] eqn:Hc.
  - rewrite (bool_decide_eq_false_2 (_ = None)) by done.
    rewrite (bool_decide_eq_true_2 (is_Some _)) by (by eexists). simpl.
    assert (files_of csubs chat_id = file_keys) as ->
      by (unfold files_of; by rewrite Hc).
    destruct (decide (file_key ∈ file_keys)) as [Hin|Hin].
    + rewrite bool_decide_eq_false_2 by (intros ?; done).
      rewrite (bool_decide_eq_true_2 (_ ∈ _)) by done. simpl.
      rewrite files_of_insert.
      destruct (decide (file_keys ∖ {[file_key]} = ∅)) as [He|He].
      * rewrite bool_decide_eq_true_2 by done. simpl.
        unfold with_comment_subscriptions. simpl. by rewrite delete_insert_eq.
      * by rewrite bool_decide_eq_false_2 by done.
    + rewrite bool_decide_eq_true_2 by done.
      by rewrite (bool_decide_eq_false_2 (_ ∈ _)) by done.
  - rewrite (bool_decide_eq_true_2 (_ = None)) by done.
    by rewrite (bool_decide_eq_false_2 (is_Some _)) by (by intros [? ?]).
Qed.

Lemma removed_added subs chat_id file_key :
  file_key ∉ files_of subs chat_id →
  subs !! chat_id ≠ Some ∅ →
  removed (added subs chat_id file_key) chat_id file_key = subs.
Proof.
  intros Hnew Hnonempty.
  assert (files_of (added subs chat_id file_key) chat_id
          = files_of subs chat_id ∪ {[file_key]}) as Hadded.
  { rewrite files_of_added. by rewrite decide_True. }
  unfold removed. rewrite Hadded.
  rewrite decide_True by (by apply elem_of_union_r, elem_of_singleton).
  assert ((files_of subs chat_id ∪ {[file_key]}) ∖ {[file_key]}
          = files_of subs chat_id) as ->.
  { apply set_eq. intros f.
    rewrite elem_of_difference, elem_of_union, elem_of_singleton. split.
    - by intros [[?|?] ?].
    - intros Hf. split; [by left|]. by intros ->. }
  unfold added. destruct (subs !! chat_id) as [file_keys|] eqn:Hc.
  - assert (files_of subs chat_id = file_keys) as ->
      by (unfold files_of; by rewrite Hc).
    rewrite decide_False by (intros ->; done).
    rewrite insert_insert_eq. by apply insert_id.
  - rewrite (files_of_None _ _ Hc), decide_True by done.
    rewrite delete_insert_eq. by apply delete_id.
Qed.

Lemma added_removed subs chat_id file_key :
  file_key ∈ files_of subs chat_id →
  added (removed subs chat_id file_key) chat_id file_key = subs.
Proof.
  intros Hin.
  assert (files_of (removed subs chat_id file_key) chat_id
          = files_of subs chat_id ∖ {[file_key]}) as Hremoved.
  { rewrite files_of_removed. by rewrite decide_True. }
  unfold added. rewrite Hremoved.
  assert (files_of subs chat_id ∖ {[file_key]} ∪ {[file_key]}
          = files_of subs chat_id) as ->.
  { apply set_eq. intros f.
    rewrite elem_of_union, elem_of_difference, elem_of_singleton. split.
    - by intros [[? _]| ->].
    - intros Hf. destruct (decide (f = file_key)); [by right|by left]. }
  apply elem_of_files_of in Hin as (file_keys & Hc & Hin).
  assert (files_of subs chat_id = file_keys) as ->
    by (unfold files_of; by rewrite Hc).
  unfold removed.
  assert (files_of subs chat_id = file_keys) as ->
    by (unfold files_of; by rewrite Hc).
  rewrite decide_True by done.
  destruct (decide (file_keys ∖ {[file_key]} = ∅)).
  - rewrite insert_delete_eq. by apply insert_id.
  - rewrite insert_insert_eq. by apply insert_id.
Qed.

Lemma with_user_subscriptions_same st :
  with_user_subscriptions (user_subscriptions st) st = st.
Proof. by destruct st. Qed.

Lemma with_comment_subscriptions_same st :
  with_comment_subscriptions (comment_subscriptions st) st = st.
Proof. by destruct st. Qed.

(** X15. [remove_file_subscription] returns whether the subscriber was
    subscribed to the file.  When it returns False the registry is
    unchanged and nothing is saved; when it returns True the subscriber is
    no longer subscribed to the file, the comment subscriptions are
    untouched and the registry is saved once, as it then stands. *)
Theorem remove_file_subscription_reports
    (st : state) (chat_id : Z) (file_key : string) :
  result (remove_file_subscription chat_id file_key) st
  = is_user_subscribed_to_file st chat_id file_key
  ∧ (is_user_subscribed_to_file st chat_id file_key = false →
     remove_file_subscription chat_id file_key st = (false, st, []))
  ∧ (is_user_subscribed_to_file st chat_id file_key = true →
     let st' := state_after (remove_file_subscription chat_id file_key) st in
     effects (remove_file_subscription chat_id file_key) st
     = [SaveSubscriptions (user_subscriptions st') (comment_subscriptions st')]
     ∧ is_user_subscribed_to_file st' chat_id file_key = false
     ∧ comment_subscriptions st' = comment_subscriptions st).
Proof.
  unfold result, state_after, effects. rewrite remove_file_subscription_run.
  destruct (is_user_subscribed_to_file st chat_id file_key) eqn:Hsub.
  - split; [done|]. split; [done|]. intros _. simpl.
    split; [done|]. split; [|done].
    apply not_true_is_false. rewrite subscribed_to_file_iff. simpl.
    rewrite files_of_removed, decide_True by done.
    rewrite elem_of_difference, elem_of_singleton. by intros [_ ?].
  - done.
Qed.

Lemma remove_file_subscription_reports_witness :
  remove_file_subscription 8 "abc123" sample_subscriptions
  = (false, sample_subscriptions, [])
  ∧ is_user_subscribed_to_file
      (state_after (remove_file_subscription 7 "abc123") sample_subscriptions)
      7 "abc123"
    = false.
Proof.
  split.
  - apply (proj1 (proj2 (remove_file_subscription_reports
                           sample_subscriptions 8 "abc123"))).
    reflexivity.
  - apply (proj2 (proj2 (remove_file_subscription_reports
                           sample_subscriptions 7 "abc123"))).
    reflexivity.
Defined.

(** X16. The queries on update subscriptions agree with one another: a
    subscriber is listed by [get_file_subscribers] for a file exactly when
    [is_user_subscribed_to_file] holds, exactly when the file is in the
    subscriber's [get_user_file_subscriptions]; [has_any_file_subscribers]
    holds exactly when some subscriber is subscribed, and fails exactly
    when [get_file_subscribers] is empty. *)
Theorem file_subscription_views_agree
    (st : state) (chat_id : Z) (file_key : string) :
  (chat_id ∈ get_file_subscribers st file_key
   ↔ is_user_subscribed_to_file st chat_id file_key = true)
  ∧ (file_key ∈ get_user_file_subscriptions st chat_id
     ↔ is_user_subscribed_to_file st chat_id file_key = true)
  ∧ (has_any_file_subscribers st file_key = true
     ↔ ∃ subscriber : Z, is_user_subscribed_to_file st subscriber file_key = true)
  ∧ (has_any_file_subscribers st file_key = false
     ↔ get_file_subscribers st file_key = []).
Proof.
  unfold get_file_subscribers, get_user_file_subscriptions, has_any_file_subscribers.
  split; [|split; [|split]].
  - by rewrite elem_of_subscribers_in_files_of, subscribed_to_file_iff.
  - by rewrite subscribed_to_file_iff.
  - rewrite bool_decide_eq_true, any_subscriber_iff.
    by setoid_rewrite subscribed_to_file_iff.
  - rewrite bool_decide_eq_false, any_subscriber_iff. split.
    + intros Hnone. apply elem_of_nil_inv. intros c Hc. apply Hnone.
      exists c. by apply elem_of_subscribers_in_files_of.
    + intros Hnil (c & Hc). apply elem_of_subscribers_in_files_of in Hc.
      rewrite Hnil in Hc. by apply not_elem_of_nil in Hc.
Qed.

(** X17. The same agreement for comment subscriptions, between
    [get_comment_subscribers], [is_user_subscribed_to_comments],
    [get_user_comment_subscriptions] and [has_any_comment_subscribers]. *)
Theorem comment_subscription_views_agree
    (st : state) (chat_id : Z) (file_key : string) :
  (chat_id ∈ get_comment_subscribers st file_key
   ↔ is_user_subscribed_to_comments st chat_id file_key = true)
  ∧ (file_key ∈ get_user_comment_subscriptions st chat_id
     ↔ is_user_subscribed_to_comments st chat_id file_key = true)
  ∧ (has_any_comment_subscribers st file_key = true
     ↔ ∃ subscriber : Z, is_user_subscribed_to_comments st subscriber file_key = true)
  ∧ (has_any_comment_subscribers st file_key = false
     ↔ get_comment_subscribers st file_key = []).
Proof.
  unfold get_comment_subscribers, get_user_comment_subscriptions,
    has_any_comment_subscribers.
  split; [|split; [|split]].
  - by rewrite elem_of_subscribers_in_files_of, subscribed_to_comments_iff.
  - by rewrite subscribed_to_comments_iff.
  - rewrite bool_decide_eq_true, any_subscriber_iff.
    by setoid_rewrite subscribed_to_comments_iff.
  - rewrite bool_decide_eq_false, any_subscriber_iff. split.
    + intros Hnone. apply elem_of_nil_inv. intros c Hc. apply Hnone.
      exists c. by apply elem_of_subscribers_in_files_of.
    + intros Hnil (c & Hc). apply elem_of_subscribers_in_files_of in Hc.
      rewrite Hnil in Hc. by apply not_elem_of_nil in Hc.
Qed.

(** X18. Update subscriptions behave as a set of (subscriber, file)
    pairs: after [add_file_subscription] the subscribed pairs are the old
    ones plus the pair added; after [remove_file_subscription] they are
    the old ones minus the pair removed; neither call touches the comment
    subscriptions. *)
Theorem file_subscriptions_form_a_set
    (st : state) (chat_id : Z) (file_key : string)
    (other_chat : Z) (other_file : string) :
  let after_add := state_after (add_file_subscription chat_id file_key) st in
  let after_remove := state_after (remove_file_subscription chat_id file_key) st in
  (is_user_subscribed_to_file after_add other_chat other_file = true
   ↔ (other_chat = chat_id ∧ other_file = file_key)
     ∨ is_user_subscribed_to_file st other_chat other_file = true)
  ∧ (is_user_subscribed_to_file after_remove other_chat other_file = true
     ↔ is_user_subscribed_to_file st other_chat other_file = true
       ∧ ¬ (other_chat = chat_id ∧ other_file = file_key))
  ∧ comment_subscriptions after_add = comment_subscriptions st
  ∧ comment_subscriptions after_remove = comment_subscriptions st.
Proof.
  intros after_add after_remove.
  assert (after_add = with_user_subscriptions
                        (added (user_subscriptions st) chat_id file_key) st) as ->.
  { unfold after_add, state_after. by rewrite add_file_subscription_run. }
  assert (after_remove = with_user_subscriptions
                           (removed (user_subscriptions st) chat_id file_key) st) as ->.
  { apply remove_file_subscription_state. }
  rewrite !subscribed_to_file_iff. simpl.
  rewrite files_of_added, files_of_removed.
  split; [|split; [|done]].
  - case_decide as Hc.
    + subst other_chat. rewrite elem_of_union, elem_of_singleton. split.
      * intros [?| ->]; [by right|by left].
      * intros [[_ ->]|?]; [by right|by left].
    + split; [by right|]. by intros [[? _]|?].
  - case_decide as Hc.
    + subst other_chat. rewrite elem_of_difference, elem_of_singleton. split.
      * intros [? Hne]. split; [done|]. by intros [_ ?].
      * intros [? Hne]. split; [done|]. intros ->. by apply Hne.
    + split; [|by intros [? _]]. intros ?. split; [done|]. by intros [? _].
Qed.

(** X19. Subscribing and unsubscribing undo each other on the registry:
    removing a subscription and adding it back restores the registry, and
    so does adding a subscription the subscriber did not hold and removing
    it, provided the subscriber had no empty entry before. *)
Theorem add_and_remove_file_subscription_cancel
    (st : state) (chat_id : Z) (file_key : string) :
  (is_user_subscribed_to_file st chat_id file_key = true →
   state_after (remove_file_subscription chat_id file_key;;
                add_file_subscription chat_id file_key) st = st)
  ∧ (is_user_subscribed_to_file st chat_id file_key = false →
     user_subscriptions st !! chat_id ≠ Some ∅ →
     state_after (add_file_subscription chat_id file_key;;
                  remove_file_subscription chat_id file_key) st = st).
Proof.
  split.
  - intros Hsub%subscribed_to_file_iff.
    rewrite state_after_bind, remove_file_subscription_state.
    unfold state_after. rewrite add_file_subscription_run.
    unfold with_user_subscriptions. simpl.
    rewrite added_removed by done. by destruct st.
  - intros Hsub Hnonempty.
    assert (file_key ∉ files_of (user_subscriptions st) chat_id) as Hnew.
    { intros Hin%subscribed_to_file_iff. congruence. }
    rewrite state_after_bind, remove_file_subscription_state.
    unfold state_after. rewrite add_file_subscription_run.
    unfold with_user_subscriptions. simpl.
    rewrite removed_added by done. by destruct st.
Qed.

Lemma add_and_remove_file_subscription_cancel_witness :
  state_after (remove_file_subscription 7 "abc123";;
               add_file_subscription 7 "abc123") sample_subscriptions
  = sample_subscriptions
  ∧ state_after (add_file_subscription 8 "abc123";;
                 remove_file_subscription 8 "abc123") sample_subscriptions
    = sample_subscriptions.
Proof.
  split.
  - apply (proj1 (add_and_remove_file_subscription_cancel
                    sample_subscriptions 7 "abc123")).
    reflexivity.
  - apply (proj2 (add_and_remove_file_subscription_cancel
                    sample_subscriptions 8 "abc123"));
      [reflexivity|discriminate].
Defined.

(** X20. [add_comment_subscription] is idempotent: calling it twice with
    the same subscriber and file leaves the registry as one call does, with
    the subscriber subscribed to the file's comments and listed exactly
    once; [get_comment_subscribers] never lists a subscriber twice; the
    update subscriptions are not touched. *)
Theorem add_comment_subscription_idempotent
    (st : state) (chat_id : Z) (file_key : string) :
  let once := state_after (add_comment_subscription chat_id file_key) st in
  let twice :=
    state_after (add_comment_subscription chat_id file_key;;
                 add_comment_subscription chat_id file_key) st in
  twice = once
  ∧ is_user_subscribed_to_comments once chat_id file_key = true
  ∧ user_subscriptions once = user_subscriptions st
  ∧ (∀ (any : state) (resource : string), NoDup (get_comment_subscribers any resource)).
Proof.
  intros once twice.
  assert (once = with_comment_subscriptions
                   (added (comment_subscriptions st) chat_id file_key) st) as Honce.
  { unfold once, state_after. by rewrite add_comment_subscription_run. }
  split; [|split; [|split]].
  - unfold twice. rewrite state_after_bind. fold once. rewrite Honce.
    unfold state_after. rewrite add_comment_subscription_run. simpl.
    unfold with_comment_subscriptions. simpl. by rewrite added_added.
  - rewrite subscribed_to_comments_iff, Honce. simpl.
    rewrite files_of_added, decide_True by done.
    by apply elem_of_union_r, elem_of_singleton.
  - by rewrite Honce.
  - intros any resource. apply subscribers_in_NoDup.
Qed.

End SubscriptionManagerMore.

(** ** Properties of the bot *)

Module BotFacts.
Import Bot SubscriptionManager SubscriptionManagerFacts SubscriptionManagerMore.

Section runs.
Context {A : Type}.

Lemma on_version_tracker_run (m : prog (gmap string string) event A) b :
  on_version_tracker m b
  = (result m (version_tracker b),
     BotState (state_after m (version_tracker b)) (comment_tracker b)
       (subscription_manager b),
     Component <$> effects m (version_tracker b)).
Proof.
  unfold on_version_tracker, result, state_after, effects.
  by destruct (m _) as [[??]?].
Qed.

Lemma on_comment_tracker_run (m : prog (gmap string (gset string)) event A) b :
  on_comment_tracker m b
  = (result m (comment_tracker b),
     BotState (version_tracker b) (state_after m (comment_tracker b))
       (subscription_manager b),
     Component <$> effects m (comment_tracker b)).
Proof.
  unfold on_comment_tracker, result, state_after, effects.
  by destruct (m _) as [[??]?].
Qed.

Lemma on_subscription_manager_run (m : prog SubscriptionManager.state event A) b :
  on_subscription_manager m b
  = (result m (subscription_manager b),
     BotState (version_tracker b) (comment_tracker b)
       (state_after m (subscription_manager b)),
     Component <$> effects m (subscription_manager b)).
Proof.
  unfold on_subscription_manager, result, state_after, effects.
  by destruct (m _) as [[??]?].
Qed.

Lemma on_client_run (m : prog unit event A) b :
  on_client m b = (result m tt, b, Component <$> effects m tt).
Proof.
  unfold on_client, result, state_after, effects. by destruct (m _) as [[??]?].
Qed.
End runs.

(** Symbolic execution of a bot program, one call at a time. *)
Lemma state_after_ret {S E A} (x : A) (s : S) : state_after (mret x : prog S E A) s = s.
Proof. done. Qed.
Lemma result_ret {S E A} (x : A) (s : S) : result (mret x : prog S E A) s = x.
Proof. done. Qed.
Lemma effects_ret {S E A} (x : A) (s : S) : effects (mret x : prog S E A) s = [].
Proof. done. Qed.
Lemma state_after_get {S E} (s : S) : state_after (get_state : prog S E S) s = s.
Proof. done. Qed.
Lemma result_get {S E} (s : S) : result (get_state : prog S E S) s = s.
Proof. done. Qed.
Lemma effects_get {S E} (s : S) : effects (get_state : prog S E S) s = [].
Proof. done. Qed.
Lemma state_after_emit {S E} (e : E) (s : S) : state_after (emit e) s = s.
Proof. done. Qed.
Lemma effects_emit {S E} (e : E) (s : S) : effects (emit e) s = [e].
Proof. done. Qed.

Lemma state_after_on_version_tracker {A} (m : prog _ event A) b :
  state_after (on_version_tracker m) b
  = BotState (state_after m (version_tracker b)) (comment_tracker b)
      (subscription_manager b).
Proof. unfold state_after at 1. by rewrite on_version_tracker_run. Qed.
Lemma result_on_version_tracker {A} (m : prog _ event A) b :
  result (on_version_tracker m) b = result m (version_tracker b).
Proof. unfold result at 1. by rewrite on_version_tracker_run. Qed.
Lemma effects_on_version_tracker {A} (m : prog _ event A) b :
  effects (on_version_tracker m) b = Component <$> effects m (version_tracker b).
Proof. unfold effects at 1. by rewrite on_version_tracker_run. Qed.

Lemma state_after_on_comment_tracker {A} (m : prog _ event A) b :
  state_after (on_comment_tracker m) b
  = BotState (version_tracker b) (state_after m (comment_tracker b))
      (subscription_manager b).
Proof. unfold state_after at 1. by rewrite on_comment_tracker_run. Qed.
Lemma result_on_comment_tracker {A} (m : prog _ event A) b :
  result (on_comment_tracker m) b = result m (comment_tracker b).
Proof. unfold result at 1. by rewrite on_comment_tracker_run. Qed.
Lemma effects_on_comment_tracker {A} (m : prog _ event A) b :
  effects (on_comment_tracker m) b = Component <$> effects m (comment_tracker b).
Proof. unfold effects at 1. by rewrite on_comment_tracker_run. Qed.

Lemma state_after_on_subscription_manager {A} (m : prog _ event A) b :
  state_after (on_subscription_manager m) b
  = BotState (version_tracker b) (comment_tracker b)
      (state_after m (subscription_manager b)).
Proof. unfold state_after at 1. by rewrite on_subscription_manager_run. Qed.
Lemma result_on_subscription_manager {A} (m : prog _ event A) b :
  result (on_subscription_manager m) b = result m (subscription_manager b).
Proof. unfold result at 1. by rewrite on_subscription_manager_run. Qed.

Lemma state_after_on_client {A} (m : prog unit event A) b :
  state_after (on_client m) b = b.
Proof. unfold state_after at 1. by rewrite on_client_run. Qed.

Lemma state_after_reply_text chat_id text b :
  state_after (reply_text chat_id text) b = b.
Proof. done. Qed.

Lemma state_after_get_file files k b : state_after (get_file files k) b = b.
Proof. done. Qed.
Lemma result_get_file files k b : result (get_file files k) b = client_file files k.
Proof. done. Qed.

Ltac step_bot :=
  repeat (rewrite ?state_after_bind, ?result_bind;
          rewrite ?state_after_ret, ?result_ret, ?state_after_get, ?result_get,
            ?state_after_reply_text, ?state_after_get_file, ?result_get_file,
            ?state_after_on_client,
            ?state_after_on_version_tracker, ?result_on_version_tracker,
            ?state_after_on_comment_tracker, ?result_on_comment_tracker,
            ?state_after_on_subscription_manager, ?result_on_subscription_manager;
          cbn [version_tracker comment_tracker subscription_manager negb]).

Lemma version_remove_state (versions : gmap string string) k :
  state_after (VersionTracker.remove_file_from_track k) versions = delete k versions.
Proof.
  unfold VersionTracker.remove_file_from_track, VersionTracker._save_versions.
  run_prog. destruct (versions !! k) eqn:Hk; simpl; [done|].
  by rewrite delete_id.
Qed.

Lemma comment_remove_state (comments : gmap string (gset string)) k :
  state_after (CommentTracker.remove_file_from_track k) comments = delete k comments.
Proof.
  unfold CommentTracker.remove_file_from_track, CommentTracker._save_comments.
  run_prog. destruct (comments !! k) eqn:Hk; simpl; [done|].
  by rewrite delete_id.
Qed.

(** The state [unsubscribe] leaves. *)
Lemma unsubscribe_state chat_id k rest b :
  state_after (unsubscribe chat_id (k :: rest)) b
  = let subs := subscription_manager b in
    if is_user_subscribed_to_file subs chat_id k then
      let subs1 :=
        with_user_subscriptions (removed (user_subscriptions subs) chat_id k) subs in
      let versions1 :=
        if has_any_file_subscribers subs1 k then version_tracker b
        else delete k (version_tracker b) in
      if is_user_subscribed_to_comments subs1 chat_id k then
        let subs2 :=
          with_comment_subscriptions
            (removed (comment_subscriptions subs1) chat_id k) subs1 in
        BotState versions1
          (if has_any_comment_subscribers subs2 k then comment_tracker b
           else delete k (comment_tracker b))
          subs2
      else BotState versions1 (comment_tracker b) subs1
    else b.
Proof.
  unfold unsubscribe. cbv zeta. step_bot.
  destruct (is_user_subscribed_to_file (subscription_manager b) chat_id k);
    cbn [negb]; [|done].
  step_bot. rewrite remove_file_subscription_state.
  set (subs1 := with_user_subscriptions _ _).
  destruct (has_any_file_subscribers subs1 k); cbn [negb]; step_bot.
  - destruct (is_user_subscribed_to_comments subs1 chat_id k); step_bot; [|done].
    rewrite remove_comment_subscription_state.
    destruct (has_any_comment_subscribers _ k); cbn [negb]; step_bot; [done|].
    by rewrite comment_remove_state.
  - rewrite version_remove_state.
    destruct (is_user_subscribed_to_comments subs1 chat_id k); step_bot; [|done].
    rewrite remove_comment_subscription_state.
    destruct (has_any_comment_subscribers _ k); cbn [negb]; step_bot; [done|].
    by rewrite comment_remove_state.
Qed.

Lemma has_any_file_iff st k :
  has_any_file_subscribers st k = true
  ↔ ∃ chat_id, is_user_subscribed_to_file st chat_id k = true.
Proof.
  unfold has_any_file_subscribers.
  rewrite bool_decide_eq_true, any_subscriber_iff.
  by setoid_rewrite subscribed_to_file_iff.
Qed.

Lemma has_any_comment_iff st k :
  has_any_comment_subscribers st k = true
  ↔ ∃ chat_id, is_user_subscribed_to_comments st chat_id k = true.
Proof.
  unfold has_any_comment_subscribers.
  rewrite bool_decide_eq_true, any_subscriber_iff.
  by setoid_rewrite subscribed_to_comments_iff.
Qed.

Lemma subscribed_to_file_removed st chat_id k other file :
  is_user_subscribed_to_file
    (with_user_subscriptions (removed (user_subscriptions st) chat_id k) st) other file
  = true
  ↔ is_user_subscribed_to_file st other file = true ∧ ¬ (other = chat_id ∧ file = k).
Proof.
  rewrite !subscribed_to_file_iff. cbn [with_user_subscriptions user_subscriptions].
  rewrite files_of_removed. case_decide as Hc.
  - subst other. rewrite elem_of_difference, elem_of_singleton. split.
    + intros [? Hne]. split; [done|]. by intros [_ ?].
    + intros [? Hne]. split; [done|]. intros ->. by apply Hne.
  - split; [|by intros [? _]]. intros ?. split; [done|]. by intros [? _].
Qed.

Lemma subscribed_to_comments_removed st chat_id k other file :
  is_user_subscribed_to_comments
    (with_comment_subscriptions (removed (comment_subscriptions st) chat_id k) st)
    other file
  = true
  ↔ is_user_subscribed_to_comments st other file = true
    ∧ ¬ (other = chat_id ∧ file = k).
Proof.
  rewrite !subscribed_to_comments_iff.
  cbn [with_comment_subscriptions comment_subscriptions].
  rewrite files_of_removed. case_decide as Hc.
  - subst other. rewrite elem_of_difference, elem_of_singleton. split.
    + intros [? Hne]. split; [done|]. by intros [_ ?].
    + intros [? Hne]. split; [done|]. intros ->. by apply Hne.
  - split; [|by intros [? _]]. intros ?. split; [done|]. by intros [? _].
Qed.

Lemma subscribed_to_file_added st chat_id k other file :
  is_user_subscribed_to_file
    (with_user_subscriptions (added (user_subscriptions st) chat_id k) st) other file
  = true
  ↔ (other = chat_id ∧ file = k) ∨ is_user_subscribed_to_file st other file = true.
Proof.
  rewrite !subscribed_to_file_iff. cbn [with_user_subscriptions user_subscriptions].
  rewrite files_of_added. case_decide as Hc.
  - subst other. rewrite elem_of_union, elem_of_singleton. split.
    + intros [?| ->]; [by right|by left].
    + intros [[_ ->]|?]; [by right|by left].
  - split; [by right|]. by intros [[? _]|?].
Qed.

Lemma subscribed_to_comments_added st chat_id k other file :
  is_user_subscribed_to_comments
    (with_comment_subscriptions (added (comment_subscriptions st) chat_id k) st)
    other file
  = true
  ↔ (other = chat_id ∧ file = k) ∨ is_user_subscribed_to_comments st other file = true.
Proof.
  rewrite !subscribed_to_comments_iff.
  cbn [with_comment_subscriptions comment_subscriptions].
  rewrite files_of_added. case_decide as Hc.
  - subst other. rewrite elem_of_union, elem_of_singleton. split.
    + intros [?| ->]; [by right|by left].
    + intros [[_ ->]|?]; [by right|by left].
  - split; [by right|]. by intros [[? _]|?].
Qed.

(** A change of one class of subscriptions is not seen by the other. *)
Lemma subscribed_to_comments_with_user usubs st chat_id k :
  is_user_subscribed_to_comments (with_user_subscriptions usubs st) chat_id k
  = is_user_subscribed_to_comments st chat_id k.
Proof. done. Qed.

Lemma subscribed_to_file_with_comment csubs st chat_id k :
  is_user_subscribed_to_file (with_comment_subscriptions csubs st) chat_id k
  = is_user_subscribed_to_file st chat_id k.
Proof. done. Qed.

Lemma has_any_comment_with_user usubs st k :
  has_any_comment_subscribers (with_user_subscriptions usubs st) k
  = has_any_comment_subscribers st k.
Proof. done. Qed.

Lemma has_any_file_with_comment csubs st k :
  has_any_file_subscribers (with_comment_subscriptions csubs st) k
  = has_any_file_subscribers st k.
Proof. done. Qed.

Lemma has_any_file_removed st chat_id k :
  has_any_file_subscribers
    (with_user_subscriptions (removed (user_subscriptions st) chat_id k) st) k = true
  ↔ ∃ other, other ≠ chat_id ∧ is_user_subscribed_to_file st other k = true.
Proof.
  rewrite has_any_file_iff. setoid_rewrite subscribed_to_file_removed. split.
  - intros (other & Hsub & Hne). exists other. split; [|done].
    intros ->. by apply Hne.
  - intros (other & Hne & Hsub). exists other. split; [done|]. by intros [? _].
Qed.

Lemma has_any_comment_removed st chat_id k :
  has_any_comment_subscribers
    (with_comment_subscriptions (removed (comment_subscriptions st) chat_id k) st) k
  = true
  ↔ ∃ other, other ≠ chat_id ∧ is_user_subscribed_to_comments st other k = true.
Proof.
  rewrite has_any_comment_iff. setoid_rewrite subscribed_to_comments_removed. split.
  - intros (other & Hsub & Hne). exists other. split; [|done].
    intros ->. by apply Hne.
  - intros (other & Hne & Hsub). exists other. split; [done|]. by intros [? _].
Qed.

Lemma comments_off_state chat_id k rest b :
  state_after (comments_off chat_id (k :: rest)) b
  = let subs := subscription_manager b in
    if is_user_subscribed_to_comments subs chat_id k then
      let subs1 :=
        with_comment_subscriptions
          (removed (comment_subscriptions subs) chat_id k) subs in
      BotState (version_tracker b)
        (if has_any_comment_subscribers subs1 k then comment_tracker b
         else delete k (comment_tracker b))
        subs1
    else b.
Proof.
  unfold comments_off. cbv zeta. step_bot.
  destruct (is_user_subscribed_to_comments (subscription_manager b) chat_id k);
    cbn [negb]; [|done].
  step_bot. rewrite remove_comment_subscription_state.
  destruct (has_any_comment_subscribers _ k); cbn [negb]; step_bot; [done|].
  by rewrite comment_remove_state.
Qed.

Lemma comment_reset_state (comments : gmap string (gset string)) k :
  state_after (CommentTracker.reset_comments_for_file k) comments
  = match comments !! k with
    | Some _ => <[k := ∅]> comments
    | None => comments
    end.
Proof.
  unfold CommentTracker.reset_comments_for_file, CommentTracker._save_comments.
  run_prog. by destruct (comments !! k).
Qed.

Lemma reset_comments_state chat_id k rest b :
  state_after (reset_comments chat_id (k :: rest)) b
  = if is_user_subscribed_to_comments (subscription_manager b) chat_id k then
      BotState (version_tracker b)
        (match comment_tracker b !! k with
         | Some _ => <[k := ∅]> (comment_tracker b)
         | None => comment_tracker b
         end)
        (subscription_manager b)
    else b.
Proof.
  unfold reset_comments. step_bot.
  destruct (is_user_subscribed_to_comments (subscription_manager b) chat_id k);
    cbn [negb]; [|done].
  step_bot. rewrite comment_reset_state.
  by destruct (result _ (comment_tracker b)).
Qed.

Lemma add_file_subscription_state st chat_id k :
  state_after (add_file_subscription chat_id k) st
  = with_user_subscriptions (added (user_subscriptions st) chat_id k) st.
Proof. unfold state_after. by rewrite add_file_subscription_run. Qed.

Lemma add_comment_subscription_state st chat_id k :
  state_after (add_comment_subscription chat_id k) st
  = with_comment_subscriptions (added (comment_subscriptions st) chat_id k) st.
Proof. unfold state_after. by rewrite add_comment_subscription_run. Qed.

Lemma version_add_state figma_client (versions : gmap string string) k :
  state_after (VersionTracker.add_file_to_track figma_client k) versions
  = match versions !! k with
    | Some _ => versions
    | None =>
        if truthy (client_file_version figma_client k)
        then <[k := client_file_version figma_client k]> versions
        else versions
    end.
Proof.
  unfold VersionTracker.add_file_to_track, VersionTracker._save_versions.
  run_prog. destruct (versions !! k); [done|]. by destruct (truthy _).
Qed.

Lemma comment_add_state figma_client (comments : gmap string (gset string)) k :
  state_after (CommentTracker.add_file_to_track figma_client k) comments
  = <[k := CommentTracker.seen comments k
           ∪ CommentTracker.comment_ids (client_file_comments figma_client k)]>
      comments.
Proof.
  unfold state_after. by rewrite CommentTrackerMore.add_file_to_track_run.
Qed.

Lemma subscribe_state figma_client figma_files auto chat_id k rest b :
  state_after (subscribe figma_client figma_files auto chat_id (k :: rest)) b
  = match client_file figma_files k with
    | FileReturns (FileInfo None _) =>
        let versions1 :=
          state_after (VersionTracker.add_file_to_track figma_client k)
            (version_tracker b) in
        let subs1 :=
          with_user_subscriptions
            (added (user_subscriptions (subscription_manager b)) chat_id k)
            (subscription_manager b) in
        if auto then
          BotState versions1
            (state_after (CommentTracker.add_file_to_track figma_client k)
               (comment_tracker b))
            (with_comment_subscriptions
               (added (comment_subscriptions subs1) chat_id k) subs1)
        else BotState versions1 (comment_tracker b) subs1
    | _ => b
    end.
Proof.
  unfold subscribe. step_bot.
  destruct (client_file figma_files k) as [[[error|] name]|error]; [done| |done].
  step_bot. rewrite add_file_subscription_state.
  destruct auto; step_bot; [|done].
  by rewrite add_comment_subscription_state.
Qed.

Lemma comments_on_state figma_client figma_files chat_id k rest b :
  state_after (comments_on figma_client figma_files chat_id (k :: rest)) b
  = match client_file figma_files k with
    | FileReturns (FileInfo None _) =>
        BotState (version_tracker b)
          (state_after (CommentTracker.add_file_to_track figma_client k)
             (comment_tracker b))
          (with_comment_subscriptions
             (added (comment_subscriptions (subscription_manager b)) chat_id k)
             (subscription_manager b))
    | _ => b
    end.
Proof.
  unfold comments_on. step_bot.
  destruct (client_file figma_files k) as [[[error|] name]|error]; [done| |done].
  step_bot. by rewrite add_comment_subscription_state.
Qed.

(** X21. [unsubscribe] does nothing to the state when the user holds no
    update subscription to the file.  Otherwise the user ends subscribed
    neither to the file's updates nor to its comments, no other
    subscription changes, and the version tracker drops the file exactly
    when no other user is subscribed to its updates: while another
    subscriber remains the tracker is left as it was. *)
Theorem unsubscribe_untracks_last
    (b : bot) (chat_id : Z) (k : string) (rest : list string) :
  let subs := subscription_manager b in
  let b' := state_after (unsubscribe chat_id (k :: rest)) b in
  let subs' := subscription_manager b' in
  (is_user_subscribed_to_file subs chat_id k = false → b' = b)
  ∧ (is_user_subscribed_to_file subs chat_id k = true →
     is_user_subscribed_to_file subs' chat_id k = false
     ∧ is_user_subscribed_to_comments subs' chat_id k = false
     ∧ (∀ (other : Z) (file : string),
          ¬ (other = chat_id ∧ file = k) →
          is_user_subscribed_to_file subs' other file
          = is_user_subscribed_to_file subs other file
          ∧ is_user_subscribed_to_comments subs' other file
            = is_user_subscribed_to_comments subs other file)
     ∧ ((∃ other, other ≠ chat_id ∧ is_user_subscribed_to_file subs other k = true) →
        version_tracker b' = version_tracker b)
     ∧ ((∀ other, is_user_subscribed_to_file subs other k = true → other = chat_id) →
        version_tracker b' = delete k (version_tracker b))
     ∧ (is_user_subscribed_to_comments subs chat_id k = false
        ∨ (∃ other, other ≠ chat_id
                    ∧ is_user_subscribed_to_comments subs other k = true) →
        comment_tracker b' = comment_tracker b)
     ∧ (is_user_subscribed_to_comments subs chat_id k = true →
        (∀ other, is_user_subscribed_to_comments subs other k = true → other = chat_id) →
        comment_tracker b' = delete k (comment_tracker b))).
Proof.
  intros subs b' subs'. unfold subs', b'. rewrite unsubscribe_state. cbv zeta.
  fold subs. destruct (is_user_subscribed_to_file subs chat_id k) eqn:Hsub; [|done].
  split; [done|]. intros _.
  set (subs1 := with_user_subscriptions (removed (user_subscriptions subs) chat_id k) subs).
  assert (is_user_subscribed_to_file subs1 chat_id k = false) as Hgone.
  { apply not_true_is_false. unfold subs1. rewrite subscribed_to_file_removed.
    intros [_ Hne]. by apply Hne. }
  assert (∀ other file, ¬ (other = chat_id ∧ file = k) →
            is_user_subscribed_to_file subs1 other file
            = is_user_subscribed_to_file subs other file) as Hothers.
  { intros other file Hne. apply eq_true_iff_eq. unfold subs1.
    rewrite subscribed_to_file_removed. by split; [intros [? _]|]. }
  assert (((∃ other, other ≠ chat_id ∧ is_user_subscribed_to_file subs other k = true) →
           (if has_any_file_subscribers subs1 k then version_tracker b
            else delete k (version_tracker b)) = version_tracker b)
          ∧ ((∀ other, is_user_subscribed_to_file subs other k = true → other = chat_id) →
             (if has_any_file_subscribers subs1 k then version_tracker b
              else delete k (version_tracker b)) = delete k (version_tracker b)))
    as [Hkeep Hdrop].
  { split.
    - intros Hother. apply has_any_file_removed in Hother. fold subs1 in Hother.
      by rewrite Hother.
    - intros Honly. destruct (has_any_file_subscribers subs1 k) eqn:Hany; [|done].
      apply has_any_file_removed in Hany as (other & Hne & Hother).
      by apply Honly in Hother. }
  assert (∀ other file, is_user_subscribed_to_comments subs1 other file
                        = is_user_subscribed_to_comments subs other file) as Hcomments
    by done.
  rewrite Hcomments.
  destruct (is_user_subscribed_to_comments subs chat_id k) eqn:Hcom;
    cbn [subscription_manager version_tracker comment_tracker].
  - rewrite subscribed_to_file_with_comment. split; [done|]. split.
    { apply not_true_is_false. rewrite subscribed_to_comments_removed.
      intros [_ Hne]. by apply Hne. }
    split.
    { intros other file Hne.
      rewrite subscribed_to_file_with_comment. split; [by apply Hothers|].
      apply eq_true_iff_eq. rewrite subscribed_to_comments_removed, Hcomments.
      by split; [intros [? _]|]. }
    split; [done|]. split; [done|]. split.
    + intros [?|Hother]; [done|].
      assert (has_any_comment_subscribers
                (with_comment_subscriptions
                   (removed (comment_subscriptions subs1) chat_id k) subs1) k = true)
        as ->; [|done].
      apply has_any_comment_removed. by setoid_rewrite Hcomments.
    + intros _ Honly.
      destruct (has_any_comment_subscribers _ k) eqn:Hany; [|done].
      apply has_any_comment_removed in Hany as (other & Hne & Hother).
      rewrite Hcomments in Hother. by apply Honly in Hother.
  - split; [done|]. split; [by rewrite Hcomments|]. split.
    { intros other file Hne. split; [by apply Hothers|]. by rewrite Hcomments. }
    split; [done|]. split; [done|]. split; [done|]. by intros ?.
Qed.

Lemma unsubscribe_untracks_last_witness :
  is_user_subscribed_to_file
    (subscription_manager (state_after (unsubscribe 7 ["abc123"]) sample_bot))
    7 "abc123"
  = false
  ∧ comment_tracker (state_after (unsubscribe 7 ["abc123"]) sample_bot)
    = comment_tracker sample_bot.
Proof.
  destruct (unsubscribe_untracks_last sample_bot 7 "abc123" []) as [_ Hsubscribed].
  destruct Hsubscribed as (Hgone & _ & _ & _ & _ & Hkeep & _); [reflexivity|].
  split; [exact Hgone|]. apply Hkeep. right. exists 8%Z.
  split; [discriminate|reflexivity].
Defined.

(** X22. [comments_off] does nothing to the state when the user holds
    no comment subscription to the file.  Otherwise only that comment
    subscription goes: the user's update subscriptions, every other
    subscription and the version tracker stay as they were, and the comment
    tracker drops the file exactly when no other user is subscribed to its
    comments. *)
Theorem comments_off_untracks_last
    (b : bot) (chat_id : Z) (k : string) (rest : list string) :
  let subs := subscription_manager b in
  let b' := state_after (comments_off chat_id (k :: rest)) b in
  let subs' := subscription_manager b' in
  (is_user_subscribed_to_comments subs chat_id k = false → b' = b)
  ∧ (is_user_subscribed_to_comments subs chat_id k = true →
     is_user_subscribed_to_comments subs' chat_id k = false
     ∧ user_subscriptions subs' = user_subscriptions subs
     ∧ version_tracker b' = version_tracker b
     ∧ (∀ (other : Z) (file : string),
          ¬ (other = chat_id ∧ file = k) →
          is_user_subscribed_to_comments subs' other file
          = is_user_subscribed_to_comments subs other file)
     ∧ ((∃ other, other ≠ chat_id
                  ∧ is_user_subscribed_to_comments subs other k = true) →
        comment_tracker b' = comment_tracker b)
     ∧ ((∀ other, is_user_subscribed_to_comments subs other k = true → other = chat_id) →
        comment_tracker b' = delete k (comment_tracker b))).
Proof.
  intros subs b' subs'. unfold subs', b'. rewrite comments_off_state. cbv zeta.
  fold subs. destruct (is_user_subscribed_to_comments subs chat_id k) eqn:Hsub; [|done].
  split; [done|]. intros _.
  cbn [subscription_manager version_tracker comment_tracker].
  split.
  { apply not_true_is_false. rewrite subscribed_to_comments_removed.
    intros [_ Hne]. by apply Hne. }
  split; [done|]. split; [done|]. split.
  { intros other file Hne. apply eq_true_iff_eq.
    rewrite subscribed_to_comments_removed. by split; [intros [? _]|]. }
  split.
  - intros Hother. apply has_any_comment_removed in Hother. by rewrite Hother.
  - intros Honly. destruct (has_any_comment_subscribers _ k) eqn:Hany; [|done].
    apply has_any_comment_removed in Hany as (other & Hne & Hother).
    by apply Honly in Hother.
Qed.

Lemma comments_off_untracks_last_witness :
  is_user_subscribed_to_comments
    (subscription_manager (state_after (comments_off 8 ["abc123"]) sample_bot))
    8 "abc123"
  = false
  ∧ comment_tracker (state_after (comments_off 8 ["abc123"]) sample_bot)
    = comment_tracker sample_bot.
Proof.
  destruct (comments_off_untracks_last sample_bot 8 "abc123" []) as [_ Hsubscribed].
  destruct Hsubscribed as (Hgone & _ & _ & _ & Hkeep & _); [reflexivity|].
  split; [exact Hgone|]. apply Hkeep. exists 7%Z.
  split; [discriminate|reflexivity].
Defined.



(** X24. [reset_comments] changes nothing unless the user is subscribed
    to the file's comments.  For a subscriber it empties the stored set of
    a tracked file and touches nothing else, neither another file's set,
    nor the version tracker, nor a subscription; on a file the comment
    tracker does not hold it changes nothing. *)
Theorem reset_comments_needs_subscription
    (b : bot) (chat_id : Z) (k : string) (rest : list string) :
  let b' := state_after (reset_comments chat_id (k :: rest)) b in
  (is_user_subscribed_to_comments (subscription_manager b) chat_id k = false → b' = b)
  ∧ (is_user_subscribed_to_comments (subscription_manager b) chat_id k = true →
     version_tracker b' = version_tracker b
     ∧ subscription_manager b' = subscription_manager b
     ∧ (is_Some (comment_tracker b !! k) → comment_tracker b' !! k = Some ∅)
     ∧ (comment_tracker b !! k = None → comment_tracker b' = comment_tracker b)
     ∧ (∀ k', k' ≠ k → comment_tracker b' !! k' = comment_tracker b !! k')).
Proof.
  intros b'. unfold b'. rewrite reset_comments_state.
  destruct (is_user_subscribed_to_comments _ chat_id k); [|done].
  split; [done|]. intros _.
  cbn [subscription_manager version_tracker comment_tracker].
  split; [done|]. split; [done|].
  destruct (comment_tracker b !! k) as [known|] eqn:Hk.
  - split; [by rewrite lookup_insert_eq|]. split; [done|].
    intros k' Hne. by rewrite lookup_insert_ne.
  - split; [by intros [? ?]|]. done.
Qed.

Lemma reset_comments_needs_subscription_witness :
  state_after (reset_comments 9 ["abc123"]) sample_bot = sample_bot
  ∧ comment_tracker (state_after (reset_comments 7 ["abc123"]) sample_bot) !! "abc123"
    = Some ∅.
Proof.
  split.
  - apply (proj1 (reset_comments_needs_subscription sample_bot 9 "abc123" [])).
    reflexivity.
  - destruct (proj2 (reset_comments_needs_subscription sample_bot 7 "abc123" []))
      as (_ & _ & Hemptied & _); [reflexivity|].
    apply Hemptied. exists {[ "c1" ]}. reflexivity.
Defined.

(** *** The scheduled job *)

Lemma sent_app t1 t2 : sent (t1 ++ t2) = sent t1 ++ sent t2.
Proof. apply omap_app. Qed.

Lemma sent_component (trace : list event) : sent (Component <$> trace) = [].
Proof. induction trace as [|e trace IH]; [done|]. by simpl. Qed.

Lemma state_after_for_each {A} (l : list A) (body : A → prog bot bot_event unit) b :
  (∀ x b0, state_after (body x) b0 = b0) →
  state_after (for_each l body) b = b.
Proof.
  intros Hbody. induction l as [|x l IH]; [done|].
  simpl. by rewrite state_after_bind, Hbody.
Qed.

Lemma sent_for_each {A} (l : list A) (body : A → prog bot bot_event unit) b :
  (∀ x b0, state_after (body x) b0 = b0) →
  sent (effects (for_each l body) b) = l ≫= (λ x, sent (effects (body x) b)).
Proof.
  intros Hbody. induction l as [|x l IH]; [done|].
  simpl. by rewrite effects_bind, sent_app, Hbody, IH.
Qed.

Lemma state_after_send_message chat_id text b :
  state_after (send_message chat_id text) b = b.
Proof. done. Qed.

Lemma sent_send_all (l : list Z) (text : Z → notification) b :
  sent (effects (for_each l (λ chat_id, send_message chat_id (text chat_id))) b)
  = (λ chat_id, (chat_id, text chat_id)) <$> l.
Proof.
  induction l as [|x l IH]; [done|].
  cbn [for_each]. rewrite effects_bind, sent_app.
  change (state_after (send_message x (text x)) b) with b. by rewrite IH.
Qed.

Lemma sent_send_each {A} (l : list A) (chat_id : Z) (text : A → notification) b :
  sent (effects (for_each l (λ x, send_message chat_id (text x))) b)
  = (λ x, (chat_id, text x)) <$> l.
Proof.
  induction l as [|x l IH]; [done|].
  cbn [for_each]. rewrite effects_bind, sent_app.
  change (state_after (send_message chat_id (text x)) b) with b. by rewrite IH.
Qed.

Lemma state_after_notify_update figma_files u b :
  state_after (notify_update figma_files u) b = b.
Proof.
  unfold notify_update. cbv zeta. step_bot.
  destruct (client_file figma_files _); [|done].
  rewrite state_after_bind. change (state_after (get_file_versions _ _) b) with b.
  change (result (get_file_versions figma_files ?k) b)
    with (client_file_versions figma_files k).
  destruct (client_file_versions figma_files _); [|done].
  step_bot. by apply state_after_for_each.
Qed.

Lemma sent_notify_update figma_files u b :
  sent (effects (notify_update figma_files u) b)
  = update_jobs figma_files (subscription_manager b) u.
Proof.
  unfold notify_update, update_jobs. cbv zeta.
  rewrite effects_bind. step_bot.
  change (effects (get_file figma_files ?k) b) with [GetFile k].
  rewrite sent_app. change (sent [GetFile _]) with (@nil (Z * notification)).
  rewrite app_nil_l.
  destruct (client_file figma_files _) as [info|error]; [|done].
  rewrite effects_bind, sent_app.
  change (state_after (get_file_versions _ _) b) with b.
  change (result (get_file_versions figma_files ?k) b)
    with (client_file_versions figma_files k).
  change (sent (effects (get_file_versions figma_files _) b))
    with (@nil (Z * notification)).
  rewrite app_nil_l.
  destruct (client_file_versions figma_files _) as [latest|]; [|done].
  rewrite effects_bind. step_bot.
  change (effects get_state b) with (@nil bot_event). rewrite app_nil_l.
  apply (sent_send_all _ (λ _, UpdateNotice (info_name info) u latest)).
Qed.

Lemma sent_send_some {A} (l : list A) (chat_id : Z) (ready : A → bool)
    (text : A → notification) b :
  sent (effects (for_each l (λ x, if ready x then send_message chat_id (text x)
                                  else mret tt)) b)
  = (λ x, (chat_id, text x)) <$> filter ready l.
Proof.
  induction l as [|x l IH]; [done|].
  cbn [for_each]. cbn beta. rewrite effects_bind, sent_app, filter_cons.
  destruct (ready x) eqn:Hx.
  - change (state_after (send_message chat_id (text x)) b) with b.
    by rewrite IH.
  - change (state_after (mret tt) b) with b. by rewrite IH.
Qed.

Lemma state_after_notify_comments figma_files item b :
  state_after (notify_comments figma_files item) b = b.
Proof.
  unfold notify_comments. destruct item as [k news]. step_bot.
  destruct (client_file figma_files k); [|done].
  step_bot. apply state_after_for_each. intros chat b0.
  apply state_after_for_each. intros c b1. by destruct (builds_message c).
Qed.

Lemma sent_notify_comments figma_files item b :
  sent (effects (notify_comments figma_files item) b)
  = comment_jobs figma_files (subscription_manager b) item.
Proof.
  unfold notify_comments, comment_jobs. destruct item as [k news].
  cbn [fst snd].
  rewrite effects_bind. step_bot.
  change (effects (get_file figma_files ?k) b) with [GetFile k].
  rewrite sent_app. change (sent [GetFile _]) with (@nil (Z * notification)).
  rewrite app_nil_l.
  destruct (client_file figma_files k) as [info|error]; [|done].
  rewrite effects_bind. step_bot.
  change (effects get_state b) with (@nil bot_event). rewrite app_nil_l.
  rewrite sent_for_each.
  - apply list_bind_ext; [|done]. intros chat.
    apply (sent_send_some news chat builds_message
             (λ c, CommentNotice (info_name info) k c)).
  - intros chat b0. apply state_after_for_each.
    intros c b1. by destruct (builds_message c).
Qed.

Lemma check_updates_state figma_client figma_files b :
  state_after (check_updates figma_client figma_files) b
  = BotState
      (state_after (VersionTracker.check_all_updates figma_client) (version_tracker b))
      (state_after (CommentTracker.check_all_comments figma_client) (comment_tracker b))
      (subscription_manager b).
Proof.
  unfold check_updates. step_bot.
  rewrite (state_after_for_each _ (notify_update figma_files))
    by apply state_after_notify_update.
  step_bot.
  destruct (result (CommentTracker.check_all_comments figma_client) _)
    as [by_file|]; [|done].
  step_bot.
  rewrite (state_after_for_each _ (notify_comments figma_files))
    by apply state_after_notify_comments.
  done.
Qed.

(** The job raises exactly when the comment sweep does. *)
Lemma check_updates_result figma_client figma_files b :
  result (check_updates figma_client figma_files) b
  = match result (CommentTracker.check_all_comments figma_client)
            (comment_tracker b) with
    | Returns _ => Returns tt
    | Raises => Raises
    end.
Proof.
  unfold check_updates. step_bot.
  rewrite (state_after_for_each _ (notify_update figma_files))
    by apply state_after_notify_update.
  step_bot.
  destruct (result (CommentTracker.check_all_comments figma_client) _)
    as [by_file|]; [|done].
  by step_bot.
Qed.

Lemma check_updates_sent figma_client figma_files b :
  sent (effects (check_updates figma_client figma_files) b)
  = (result (VersionTracker.check_all_updates figma_client) (version_tracker b)
       ≫= update_jobs figma_files (subscription_manager b))
    ++ match result (CommentTracker.check_all_comments figma_client)
               (comment_tracker b) with
       | Returns new_comments_by_file =>
           map_to_list new_comments_by_file
             ≫= comment_jobs figma_files (subscription_manager b)
       | Raises => []
       end.
Proof.
  unfold check_updates.
  rewrite effects_bind, sent_app, effects_on_version_tracker, sent_component.
  rewrite app_nil_l. step_bot.
  rewrite effects_bind, sent_app.
  rewrite (sent_for_each _ (notify_update figma_files))
    by apply state_after_notify_update.
  rewrite (state_after_for_each _ (notify_update figma_files))
    by apply state_after_notify_update.
  f_equal.
  - apply list_bind_ext; [|done]. intros u. by rewrite sent_notify_update.
  - rewrite effects_bind, sent_app, effects_on_comment_tracker, sent_component.
    rewrite app_nil_l. step_bot.
    destruct (result (CommentTracker.check_all_comments figma_client) _)
      as [by_file|]; [|done].
    rewrite effects_bind, sent_app.
    change (sent (effects (mret (Returns tt)) _)) with (@nil (Z * notification)).
    rewrite app_nil_r.
    rewrite (sent_for_each _ (notify_comments figma_files))
      by apply state_after_notify_comments.
    apply list_bind_ext; [|done]. intros item. by rewrite sent_notify_comments.
Qed.

(** Membership in the notifications owed. *)
Lemma elem_of_update_jobs figma_files subs u y :
  y ∈ update_jobs figma_files subs u
  ↔ ∃ chat_id info latest,
      client_file figma_files (VersionTracker.file_key u) = FileReturns info
      ∧ client_file_versions figma_files (VersionTracker.file_key u) = Versions latest
      ∧ chat_id ∈ get_file_subscribers subs (VersionTracker.file_key u)
      ∧ y = (chat_id, UpdateNotice (info_name info) u latest).
Proof.
  unfold update_jobs.
  destruct (client_file figma_files _) as [info|error];
    [|split; [by intros ?%not_elem_of_nil|by intros (? & ? & ? & ? & _)]].
  destruct (client_file_versions figma_files _) as [latest|];
    [|split; [by intros ?%not_elem_of_nil|by intros (? & ? & ? & _ & ? & _)]].
  rewrite list_elem_of_fmap. split.
  - intros (chat & -> & Hchat). by exists chat, info, latest.
  - intros (chat & info' & latest' & [= <-] & [= <-] & Hchat & ->). by exists chat.
Qed.

Lemma elem_of_comment_jobs figma_files subs k (news : list comment) y :
  y ∈ comment_jobs figma_files subs (k, news)
  ↔ ∃ chat_id info c,
      client_file figma_files k = FileReturns info
      ∧ chat_id ∈ get_comment_subscribers subs k
      ∧ c ∈ news
      ∧ builds_message c = true
      ∧ y = (chat_id, CommentNotice (info_name info) k c).
Proof.
  unfold comment_jobs. cbn [fst snd].
  destruct (client_file figma_files k) as [info|error];
    [|split; [by intros ?%not_elem_of_nil|by intros (? & ? & ? & ? & _)]].
  rewrite list_elem_of_bind. split.
  - intros (chat & (c & -> & [Hb Hc]%list_elem_of_filter)%list_elem_of_fmap & Hchat).
    exists chat, info, c. repeat split; try done. by apply Is_true_true.
  - intros (chat & info' & c & [= <-] & Hchat & Hc & Hb & ->).
    exists chat. split; [|done]. apply list_elem_of_fmap. exists c.
    split; [done|]. apply list_elem_of_filter. split; [by rewrite Hb|done].
Qed.

(** The comment notices of one run: none when the sweep raises, else those
    owed for what each check found. *)
Lemma elem_of_comment_notices figma_client figma_files
    (comments : gmap string (gset string)) subs y :
  y ∈ match result (CommentTracker.check_all_comments figma_client) comments with
      | Returns new_comments_by_file =>
          map_to_list new_comments_by_file ≫= comment_jobs figma_files subs
      | Raises => []
      end
  ↔ sweep_returns figma_client comments
    ∧ ∃ k, y ∈ comment_jobs figma_files subs (k, new_for figma_client comments k).
Proof.
  pose proof (CommentTrackerMore.check_all_comments_spec figma_client comments)
    as Hspec.
  destruct (result _ comments) as [by_file|].
  - destruct Hspec as (Hsweep & Hlook & _). rewrite list_elem_of_bind. split.
    + intros ([k news] & Hjob & Hitem%elem_of_map_to_list).
      split; [done|]. exists k. rewrite Hlook in Hitem.
      destruct (new_for _ _ k); [done|]. by injection Hitem as <-.
    + intros (_ & k & Hjob).
      exists (k, new_for figma_client comments k). split; [done|].
      apply elem_of_map_to_list. rewrite Hlook.
      destruct (new_for _ _ k); [|done].
      apply elem_of_comment_jobs in Hjob as (? & ? & ? & _ & _ & Hc & _).
      by apply not_elem_of_nil in Hc.
  - destruct Hspec as (k & Hraises). split; [by intros ?%not_elem_of_nil|].
    intros (Hsweep & _). by destruct Hraises.
Qed.

(** X25. The update notifications of one [check_updates] run: a user
    is sent the notice of an update exactly when the version tracker
    reports that update in this run (the file is tracked and its fetched
    version is non-empty and differs from the stored baseline), preparing
    the message did not raise, and the user is subscribed to the file's
    updates. *)
Theorem check_updates_update_notices
    (figma_client : FigmaClient) (figma_files : FigmaFiles) (b : bot)
    (chat_id : Z) (file_name : option string) (u : VersionTracker.update)
    (latest : option version_info) :
  let k := VersionTracker.file_key u in
  (chat_id, UpdateNotice file_name u latest)
    ∈ sent (effects (check_updates figma_client figma_files) b)
  ↔ (∃ old : string,
       version_tracker b !! k = Some old
       ∧ client_file_version figma_client k ≠ EmptyString
       ∧ client_file_version figma_client k ≠ old
       ∧ u = VersionTracker.Update k (Some old)
               (Some (client_file_version figma_client k)))
    ∧ (∃ info, client_file figma_files k = FileReturns info
               ∧ info_name info = file_name)
    ∧ client_file_versions figma_files k = Versions latest
    ∧ is_user_subscribed_to_file (subscription_manager b) chat_id k = true.
Proof.
  cbv zeta. rewrite check_updates_sent, elem_of_app, list_elem_of_bind.
  rewrite <-(VersionTrackerMore.elem_of_check_all_updates figma_client).
  split.
  - intros [(u' & Hjob & Hu')|Hcomment].
    + apply elem_of_update_jobs in Hjob
        as (chat & info & latest' & Hfile & Hversions & Hchat & Heq).
      simplify_eq.
      split; [done|]. split; [by exists info|]. split; [done|].
      by apply SubscriptionManagerMore.file_subscription_listed.
    + apply elem_of_comment_notices in Hcomment as (_ & k' & Hjob).
      by apply elem_of_comment_jobs in Hjob as (? & ? & ? & _ & _ & _ & _ & [=]).
  - intros (Hu & (info & Hfile & <-) & Hversions & Hsub). left.
    exists u. split; [|done]. apply elem_of_update_jobs.
    exists chat_id, info, latest. repeat split; try done.
    by apply SubscriptionManagerMore.file_subscription_listed.
Qed.

Lemma comment_notice_sent figma_client figma_files b chat_id info k known c :
  sweep_returns figma_client (comment_tracker b) →
  comment_tracker b !! k = Some known →
  c ∈ first_per_id (filter (unseen known) (client_file_comments figma_client k)) →
  builds_message c = true →
  client_file figma_files k = FileReturns info →
  is_user_subscribed_to_comments (subscription_manager b) chat_id k = true →
  (chat_id, CommentNotice (info_name info) k c)
    ∈ sent (effects (check_updates figma_client figma_files) b).
Proof.
  intros Hsweep Hk Hc Hbuilds Hfile Hsub.
  rewrite check_updates_sent, elem_of_app. right.
  apply elem_of_comment_notices. split; [done|]. exists k.
  apply elem_of_comment_jobs. exists chat_id, info, c.
  split; [done|]. split.
  { by apply SubscriptionManagerMore.comment_subscription_listed. }
  split; [|done]. unfold new_for. by rewrite Hk.
Qed.

(** X26. The comment notifications of one [check_updates] run:
    [send_message] is called for a user with the notice of a comment of a
    file exactly when no check of the comment sweep raises, the comment
    tracker tracks the file and the comment is, in this run, the first
    fetched comment of a non-empty id absent from the stored set, the
    message of the comment builds (its ["user"] and its ["client_meta"]
    are each missing or a dict), [get_file] did not raise, and the user is
    subscribed to the file's comments. *)
Theorem check_updates_comment_notices
    (figma_client : FigmaClient) (figma_files : FigmaFiles) (b : bot)
    (chat_id : Z) (file_name : option string) (k : string) (c : comment) :
  (chat_id, CommentNotice file_name k c)
    ∈ sent (effects (check_updates figma_client figma_files) b)
  ↔ sweep_returns figma_client (comment_tracker b)
    ∧ (∃ known : gset string,
         comment_tracker b !! k = Some known
         ∧ c ∈ first_per_id
                 (filter (unseen known) (client_file_comments figma_client k)))
    ∧ builds_message c = true
    ∧ (∃ info, client_file figma_files k = FileReturns info
               ∧ info_name info = file_name)
    ∧ is_user_subscribed_to_comments (subscription_manager b) chat_id k = true.
Proof.
  split.
  - rewrite check_updates_sent, elem_of_app, list_elem_of_bind.
    intros [(u' & Hjob & _)|Hcomment].
    + by apply elem_of_update_jobs in Hjob as (? & ? & ? & _ & _ & _ & [=]).
    + apply elem_of_comment_notices in Hcomment as (Hsweep & k' & Hjob).
      apply elem_of_comment_jobs in Hjob
        as (chat & info & c' & Hfile & Hchat & Hc & Hbuilds & Heq).
      injection Heq as <- -> <- <-. split; [done|]. unfold new_for in Hc.
      split; [|split; [done|split; [by exists info|]]].
      * destruct (comment_tracker b !! k) as [known|]; [by exists known|].
        by apply not_elem_of_nil in Hc.
      * by apply SubscriptionManagerMore.comment_subscription_listed.
  - intros (Hsweep & (known & Hk & Hc) & Hbuilds & (info & Hfile & <-) & Hsub).
    by apply (comment_notice_sent _ _ _ _ _ _ known).
Qed.

Lemma NoDup_update_jobs figma_files subs u : NoDup (update_jobs figma_files subs u).
Proof.
  unfold update_jobs. destruct (client_file figma_files _); [|constructor].
  destruct (client_file_versions figma_files _); [|constructor].
  apply NoDup_fmap_2_strong; [|apply subscribers_in_NoDup].
  by intros x y _ _ [= ->].
Qed.

Lemma NoDup_comment_jobs figma_files subs k (news : list comment) :
  NoDup news → NoDup (comment_jobs figma_files subs (k, news)).
Proof.
  intros Hnews. unfold comment_jobs. cbn [fst snd].
  destruct (client_file figma_files k); [|constructor].
  apply NoDup_bind; [| |apply subscribers_in_NoDup].
  - intros x1 x2 y _ _ (c1 & -> & _)%list_elem_of_fmap (c2 & Heq & _)%list_elem_of_fmap.
    by injection Heq.
  - intros x _. apply NoDup_fmap_2_strong; [|by apply NoDup_filter].
    by intros c1 c2 _ _ [= ->].
Qed.

(** X27. One [check_updates] run sends no notification twice: the same
    notice never goes twice to the same user. *)
Theorem check_updates_sends_once
    (figma_client : FigmaClient) (figma_files : FigmaFiles) (b : bot) :
  NoDup (sent (effects (check_updates figma_client figma_files) b)).
Proof.
  rewrite check_updates_sent. apply NoDup_app. split; [|split].
  - apply NoDup_bind; [| |apply VersionTrackerMore.NoDup_check_all_updates].
    + intros u1 u2 y _ _
        (? & ? & ? & _ & _ & _ & ->)%elem_of_update_jobs
        (? & ? & ? & _ & _ & _ & Heq)%elem_of_update_jobs.
      by injection Heq.
    + intros u _. apply NoDup_update_jobs.
  - intros y (u & Hy & _)%list_elem_of_bind (_ & k & Hy')%elem_of_comment_notices.
    apply elem_of_update_jobs in Hy as (? & ? & ? & _ & _ & _ & ->).
    by apply elem_of_comment_jobs in Hy' as (? & ? & ? & _ & _ & _ & _ & [=]).
  - pose proof (CommentTrackerMore.check_all_comments_spec figma_client
                  (comment_tracker b)) as Hspec.
    destruct (result _ (comment_tracker b)) as [by_file|]; [|constructor].
    destruct Hspec as (_ & Hlook & _).
    apply NoDup_bind; [| |apply NoDup_map_to_list].
    + intros [k1 n1] [k2 n2] y Hi1 Hi2
        (? & ? & ? & _ & _ & _ & _ & ->)%elem_of_comment_jobs
        (? & ? & ? & _ & _ & _ & _ & Heq)%elem_of_comment_jobs.
      injection Heq as _ _ -> _.
      apply elem_of_map_to_list in Hi1, Hi2. congruence.
    + intros [k news] Hitem. apply NoDup_comment_jobs.
      apply elem_of_map_to_list in Hitem. rewrite Hlook in Hitem.
      assert (news = new_for figma_client (comment_tracker b) k) as ->.
      { destruct (new_for _ _ _); [done|]. by injection Hitem. }
      unfold new_for. destruct (comment_tracker b !! k); [|constructor].
      apply (NoDup_fmap_1 comment_id), CommentTrackerMore.NoDup_first_per_id.
Qed.

Lemma check_updates_returns_iff figma_client figma_files b :
  result (check_updates figma_client figma_files) b = Returns tt
  ↔ sweep_returns figma_client (comment_tracker b).
Proof.
  rewrite check_updates_result.
  pose proof (CommentTrackerMore.check_all_comments_spec figma_client
                (comment_tracker b)) as Hspec.
  destruct (result _ (comment_tracker b)) as [by_file|].
  - by destruct Hspec as (Hsweep & _).
  - destruct Hspec as (k & Hraises). split; [done|]. intros Hsweep.
    by destruct Hraises.
Qed.

(** X28. [check_updates] never changes a subscription, and a second run
    made while the Figma API answers as in the first sends no update
    notice.  When the first run returned (its comment sweep did not
    raise), the second returns too and sends nothing at all. *)
Theorem check_updates_second_run
    (figma_client : FigmaClient) (figma_files : FigmaFiles) (b : bot) :
  let b' := state_after (check_updates figma_client figma_files) b in
  subscription_manager b' = subscription_manager b
  ∧ (∀ (chat_id : Z) (file_name : option string) (u : VersionTracker.update)
       (latest : option version_info),
       (chat_id, UpdateNotice file_name u latest)
         ∉ sent (effects (check_updates figma_client figma_files) b'))
  ∧ (result (check_updates figma_client figma_files) b = Returns tt →
     result (check_updates figma_client figma_files) b' = Returns tt
     ∧ sent (effects (check_updates figma_client figma_files) b') = []).
Proof.
  intros b'. unfold b'. rewrite check_updates_state.
  split; [done|]. split.
  - intros chat_id file_name u latest. rewrite check_updates_sent.
    cbn [version_tracker comment_tracker subscription_manager].
    rewrite VersionTrackerMore.check_all_updates_quiet. cbn [mbind list_bind app].
    intros (_ & k & Hjob)%elem_of_comment_notices.
    by apply elem_of_comment_jobs in Hjob as (? & ? & ? & _ & _ & _ & _ & [=]).
  - intros Hreturned%check_updates_returns_iff.
    rewrite check_updates_result, check_updates_sent.
    cbn [version_tracker comment_tracker subscription_manager].
    rewrite VersionTrackerMore.check_all_updates_quiet.
    rewrite CommentTrackerMore.check_all_comments_quiet by done.
    by rewrite map_to_list_empty.
Qed.

Lemma check_updates_second_run_witness :
  sent (effects (check_updates (client_answering "v2" plain_live) sample_files)
          (state_after (check_updates (client_answering "v2" plain_live) sample_files)
             sample_bot))
  = [].
Proof.
  apply (proj2 (proj2 (check_updates_second_run (client_answering "v2" plain_live)
                         sample_files sample_bot))).
  reflexivity.
Defined.

(** X29. [reset_comments] makes the next poll announce everything to
    everyone: once a comment subscriber has reset a tracked file, the next
    [check_updates] run, if no check of its comment sweep raises, calls
    [send_message] for every subscriber of the file's comments, not only
    the user who reset, with a notice for each comment that is the first
    fetched one of its non-empty id and whose message builds, whether or
    not that comment had been announced before the reset, provided
    [get_file] does not raise. *)
Theorem reset_comments_then_check_updates
    (figma_client : FigmaClient) (figma_files : FigmaFiles) (b : bot)
    (chat_id other : Z) (k : string) (rest : list string)
    (info : file_info) (c : comment) :
  is_user_subscribed_to_comments (subscription_manager b) chat_id k = true →
  is_Some (comment_tracker b !! k) →
  sweep_returns figma_client (<[k := ∅]> (comment_tracker b)) →
  client_file figma_files k = FileReturns info →
  is_user_subscribed_to_comments (subscription_manager b) other k = true →
  c ∈ first_per_id (filter (unseen ∅) (client_file_comments figma_client k)) →
  builds_message c = true →
  (other, CommentNotice (info_name info) k c)
    ∈ sent (effects (check_updates figma_client figma_files)
              (state_after (reset_comments chat_id (k :: rest)) b)).
Proof.
  intros Hsub [known Hk] Hsweep Hfile Hother Hc Hbuilds.
  rewrite reset_comments_state, Hsub, Hk.
  apply (comment_notice_sent _ _ _ _ _ _ ∅); cbn [comment_tracker subscription_manager];
    [done|apply lookup_insert_eq|done..].
Qed.

Lemma reset_comments_then_check_updates_witness :
  (8%Z, CommentNotice (Some "Design") "abc123" c1_comment)
    ∈ sent (effects (check_updates (client_answering "v1" plain_live) sample_files)
              (state_after (reset_comments 7 ["abc123"]) sample_bot)).
Proof.
  apply (reset_comments_then_check_updates (client_answering "v1" plain_live)
           sample_files sample_bot 7 8 "abc123" []
           (FileInfo None (Some "Design")) c1_comment).
  - reflexivity.
  - exists {[ "c1" ]}. reflexivity.
  - apply CommentTrackerMore.sweep_returns_live_logs. intros k. by_evaluation.
  - reflexivity.
  - reflexivity.
  - by_evaluation.
  - reflexivity.
Defined.

(** *** Tracking follows subscriptions *)

Lemma has_any_file_added st chat_id k k' :
  has_any_file_subscribers
    (with_user_subscriptions (added (user_subscriptions st) chat_id k) st) k' = true
  ↔ k' = k ∨ has_any_file_subscribers st k' = true.
Proof.
  rewrite !has_any_file_iff. setoid_rewrite subscribed_to_file_added. split.
  - intros (c & [[_ ->]|Hc]); [by left|right; by exists c].
  - intros [->|(c & Hc)]; [exists chat_id; by left|exists c; by right].
Qed.

Lemma has_any_comment_added st chat_id k k' :
  has_any_comment_subscribers
    (with_comment_subscriptions (added (comment_subscriptions st) chat_id k) st) k'
  = true
  ↔ k' = k ∨ has_any_comment_subscribers st k' = true.
Proof.
  rewrite !has_any_comment_iff. setoid_rewrite subscribed_to_comments_added. split.
  - intros (c & [[_ ->]|Hc]); [by left|right; by exists c].
  - intros [->|(c & Hc)]; [exists chat_id; by left|exists c; by right].
Qed.

Lemma has_any_file_removed_ne st chat_id k k' :
  k' ≠ k →
  has_any_file_subscribers st k' = true →
  has_any_file_subscribers
    (with_user_subscriptions (removed (user_subscriptions st) chat_id k) st) k' = true.
Proof.
  intros Hne. rewrite !has_any_file_iff. intros (c & Hc). exists c.
  apply subscribed_to_file_removed. split; [done|]. by intros [_ ?].
Qed.

Lemma has_any_comment_removed_ne st chat_id k k' :
  k' ≠ k →
  has_any_comment_subscribers st k' = true →
  has_any_comment_subscribers
    (with_comment_subscriptions (removed (comment_subscriptions st) chat_id k) st) k'
  = true.
Proof.
  intros Hne. rewrite !has_any_comment_iff. intros (c & Hc). exists c.
  apply subscribed_to_comments_removed. split; [done|]. by intros [_ ?].
Qed.

(** A tracker pruned of [k] when [k] has no subscriber left. *)
Lemma pruned_tracker_followed {V} (tracker : gmap string V) (any any' : string → bool) k :
  (∀ k', is_Some (tracker !! k') → any k' = true) →
  (∀ k', k' ≠ k → any k' = true → any' k' = true) →
  ∀ k', is_Some ((if any' k then tracker else delete k tracker) !! k') →
        any' k' = true.
Proof.
  intros Hall Hkeep k' Hk'. destruct (decide (k' = k)) as [->|Hne].
  - destruct (any' k) eqn:Hany; [done|].
    rewrite lookup_delete_eq in Hk'. by destruct Hk'.
  - apply Hkeep; [done|]. apply Hall.
    destruct (any' k); [done|]. by rewrite lookup_delete_ne in Hk'.
Qed.

Lemma subscribe_keeps_no_orphan figma_client figma_files auto chat_id args b :
  no_orphan_tracking b →
  no_orphan_tracking
    (state_after (subscribe figma_client figma_files auto chat_id args) b).
Proof.
  intros [Hv Hc]. destruct args as [|k rest]; [done|].
  rewrite subscribe_state.
  destruct (client_file figma_files k) as [[[error|] name]|error]; [done| |done].
  cbv zeta. rewrite version_add_state, comment_add_state.
  set (subs1 := with_user_subscriptions _ (subscription_manager b)).
  assert (∀ k', is_Some (match version_tracker b !! k with
                         | Some _ => version_tracker b
                         | None =>
                             if truthy (client_file_version figma_client k)
                             then <[k:=client_file_version figma_client k]>
                                    (version_tracker b)
                             else version_tracker b
                         end !! k') →
                has_any_file_subscribers subs1 k' = true) as Hv'.
  { intros k' Hk'. apply has_any_file_added.
    destruct (decide (k' = k)) as [->|Hne]; [by left|]. right. apply Hv.
    destruct (version_tracker b !! k); [done|].
    destruct (truthy _); [|done]. by rewrite lookup_insert_ne in Hk'. }
  destruct auto; split; cbn [version_tracker comment_tracker subscription_manager].
  - intros k' Hk'. rewrite has_any_file_with_comment. by apply Hv'.
  - intros k' Hk'. apply has_any_comment_added.
    destruct (decide (k' = k)) as [->|Hne]; [by left|]. right.
    unfold subs1. rewrite has_any_comment_with_user. apply Hc.
    by rewrite lookup_insert_ne in Hk'.
  - done.
  - intros k' Hk'. unfold subs1. rewrite has_any_comment_with_user. by apply Hc.
Qed.

Lemma comments_on_keeps_no_orphan figma_client figma_files chat_id args b :
  no_orphan_tracking b →
  no_orphan_tracking (state_after (comments_on figma_client figma_files chat_id args) b).
Proof.
  intros [Hv Hc]. destruct args as [|k rest]; [done|].
  rewrite comments_on_state.
  destruct (client_file figma_files k) as [[[error|] name]|error]; [done| |done].
  rewrite comment_add_state.
  split; cbn [version_tracker comment_tracker subscription_manager].
  - intros k' Hk'. rewrite has_any_file_with_comment. by apply Hv.
  - intros k' Hk'. apply has_any_comment_added.
    destruct (decide (k' = k)) as [->|Hne]; [by left|]. right. apply Hc.
    by rewrite lookup_insert_ne in Hk'.
Qed.

Lemma comments_off_keeps_no_orphan chat_id args b :
  no_orphan_tracking b → no_orphan_tracking (state_after (comments_off chat_id args) b).
Proof.
  intros [Hv Hc]. destruct args as [|k rest]; [done|].
  rewrite comments_off_state. cbv zeta.
  destruct (is_user_subscribed_to_comments _ chat_id k); [|done].
  split; cbn [version_tracker comment_tracker subscription_manager].
  - intros k' Hk'. rewrite has_any_file_with_comment. by apply Hv.
  - apply (pruned_tracker_followed _
             (has_any_comment_subscribers (subscription_manager b))); [done|].
    intros k' Hne. by apply has_any_comment_removed_ne.
Qed.

Lemma unsubscribe_keeps_no_orphan chat_id args b :
  no_orphan_tracking b → no_orphan_tracking (state_after (unsubscribe chat_id args) b).
Proof.
  intros [Hv Hc]. destruct args as [|k rest]; [done|].
  rewrite unsubscribe_state. cbv zeta.
  destruct (is_user_subscribed_to_file _ chat_id k); [|done].
  set (subs1 := with_user_subscriptions _ (subscription_manager b)).
  assert (∀ k', is_Some ((if has_any_file_subscribers subs1 k then version_tracker b
                          else delete k (version_tracker b)) !! k') →
                has_any_file_subscribers subs1 k' = true) as Hv'.
  { apply (pruned_tracker_followed _
             (has_any_file_subscribers (subscription_manager b))); [done|].
    intros k' Hne. by apply has_any_file_removed_ne. }
  assert (∀ k', is_Some (comment_tracker b !! k') →
                has_any_comment_subscribers subs1 k' = true) as Hc'.
  { intros k' Hk'. unfold subs1. rewrite has_any_comment_with_user. by apply Hc. }
  destruct (is_user_subscribed_to_comments subs1 chat_id k);
    split; cbn [version_tracker comment_tracker subscription_manager]; [|  |done|done].
  - intros k' Hk'. rewrite has_any_file_with_comment. by apply Hv'.
  - apply (pruned_tracker_followed _ (has_any_comment_subscribers subs1)); [done|].
    intros k' Hne. by apply has_any_comment_removed_ne.
Qed.

Lemma reset_comments_keeps_no_orphan chat_id args b :
  no_orphan_tracking b → no_orphan_tracking (state_after (reset_comments chat_id args) b).
Proof.
  intros [Hv Hc]. destruct args as [|k rest]; [done|].
  rewrite reset_comments_state.
  destruct (is_user_subscribed_to_comments _ chat_id k); [|done].
  split; cbn [version_tracker comment_tracker subscription_manager]; [done|].
  intros k' Hk'. apply Hc.
  destruct (comment_tracker b !! k) as [known|] eqn:Hk; [|done].
  destruct (decide (k' = k)) as [->|Hne]; [by rewrite Hk|].
  by rewrite lookup_insert_ne in Hk'.
Qed.

Lemma check_updates_keeps_no_orphan figma_client figma_files b :
  no_orphan_tracking b →
  no_orphan_tracking (state_after (check_updates figma_client figma_files) b).
Proof.
  intros [Hv Hc]. rewrite check_updates_state.
  split; cbn [version_tracker comment_tracker subscription_manager].
  - intros k Hk. apply Hv.
    rewrite VersionTrackerFacts.check_all_updates_state in Hk.
    unfold next_baseline in Hk. by destruct (version_tracker b !! k).
  - intros k Hk. apply Hc. apply elem_of_dom.
    rewrite <-(CommentTrackerMore.check_all_comments_dom figma_client).
    by apply elem_of_dom.
Qed.

(** X30. From a bot started with nothing stored, after any sequence of
    [subscribe], [unsubscribe], [comments_on], [comments_off] and
    [reset_comments] commands and [check_updates] runs, whatever the
    arguments and whatever the Figma API answers at each step, every file
    the version tracker holds has a subscriber to its updates and every
    file the comment tracker holds has a subscriber to its comments: no
    file is polled that nobody follows. *)
Theorem trackers_follow_subscriptions
    (auto_subscribe_comments : bool) (steps : list (world * command)) :
  no_orphan_tracking (state_after (handle_all auto_subscribe_comments steps) fresh).
Proof.
  assert (∀ b, no_orphan_tracking b →
               no_orphan_tracking
                 (state_after (handle_all auto_subscribe_comments steps) b)) as Hall.
  { induction steps as [|[w c] steps IH]; intros b Hb; [done|].
    cbn [handle_all]. rewrite state_after_bind. apply IH.
    destruct c as [chat args|chat args|chat args|chat args|chat args|]; cbn [handle].
    - by apply subscribe_keeps_no_orphan.
    - by apply unsubscribe_keeps_no_orphan.
    - by apply comments_on_keeps_no_orphan.
    - by apply comments_off_keeps_no_orphan.
    - by apply reset_comments_keeps_no_orphan.
    - change (no_orphan_tracking
                (state_after
                   (check_updates (world_client w) (world_files w);; mret tt) b)).
      rewrite state_after_bind. by apply check_updates_keeps_no_orphan. }
  apply Hall. split; intros k [? Hk]; cbn in Hk; by rewrite lookup_empty in Hk.
Qed.

End BotFacts.

(** ** Scenarios *)

(** Tracking a resource and checking it at once reports no change. *)
Example track_then_check_reports_no_change :
  result (VersionTracker.check_file_updates (client_answering "v1" []) "abc123")
    (state_after (VersionTracker.add_file_to_track (client_answering "v1" []) "abc123") ∅)
  = (false, Some "v1", Some "v1").
Proof. vm_compute. reflexivity. Qed.

(** Baseline ["v1"], live version ["v2"]: one pass reports the one change,
    the next pass reports none. *)
Example two_passes_over_one_change :
  result (VersionTracker.check_all_updates (client_answering "v2" [])) sample_versions
  = [VersionTracker.Update "abc123" (Some "v1") (Some "v2")]
  ∧ result (VersionTracker.check_all_updates (client_answering "v2" []))
      (state_after (VersionTracker.check_all_updates (client_answering "v2" []))
         sample_versions)
    = [].
Proof. split; vm_compute; reflexivity. Qed.

(** Comment ["c1"] present at track time, ["c1"] and ["c2"] at the next
    poll: the poll reports ["c2"] for the file, the poll after it nothing. *)
Example new_comment_reported_once :
  let tracked :=
    state_after (CommentTracker.add_file_to_track
                   (client_answering "v1" [c1_comment]) "abc123") ∅ in
  let poll := CommentTracker.check_all_comments (client_answering "v1" plain_live) in
  result poll tracked = Returns {[ "abc123" := [c2_comment] ]}
  ∧ result poll (state_after poll tracked) = Returns ∅.
Proof. split; vm_compute; reflexivity. Qed.

(** Unsubscribing the only subscription of a subscriber empties the
    registry again. *)
Example subscribe_then_unsubscribe :
  state_after (perform_all [AddFile 7 "abc123"; RemoveFile 7 "abc123"])
    SubscriptionManager.initial
  = SubscriptionManager.initial.
Proof. vm_compute. reflexivity. Qed.
